(** * BVH cache of a mesh: a shallow embedding of
      [source/blender/blenkernel/intern/bvhutils.cc]

    The development follows the source file section by section: the slot
    table ([BVHCache]), the query callbacks, the tree builders, the
    active-subset masks and the acquisition and release entry points.
    Stateful code is written in a state-and-error monad over the part of the
    heap the file touches; assertions ([BLI_assert]) and out-of-range
    accesses are explicit error results. *)

From Stdlib Require Import ZArith SpecFloat Lia.
From stdpp Require Import base option list gmap.

Set Warnings "-clear-no-such-hyp".

(** ** Single-precision floats

    The C [float] of the source is IEEE binary32: [spec_float] at precision
    24 and maximal exponent 128.  Comparisons are the IEEE ones (a NaN
    compares false with everything). *)

Module F32.
Definition float : Type := spec_float.
Definition prec : Z := 24.
Definition emax : Z := 128.
Definition zero : float := S754_zero false.
Definition FLT_MAX : float := S754_finite false (2 ^ 24 - 1) 104.
Definition mul : float -> float -> float := SFmul prec emax.
Definition eqb : float -> float -> bool := SFeqb.
Definition ltb : float -> float -> bool := SFltb.
Definition leb : float -> float -> bool := SFleb.
(** [a >= b] of C is [b <= a]. *)
Definition geb (a b : float) : bool := SFleb b a.
(** Floats of small integer value, for examples. *)
Definition of_pos (p : positive) : float := binary_normalize prec emax (Zpos p) 0 false.
End F32.

Abbreviation float := F32.float.

(** A [float[3]]. *)
Definition V3 : Type := float * float * float.

(** ** Results and the state monad *)

Inductive error : Type :=
  | AssertFail      (* a [BLI_assert] that does not hold *)
  | OutOfBounds     (* an array or bit-vector index out of range *)
  | NullDeref       (* an access through a null pointer *)
  | Deadlock.       (* locking a mutex the thread already holds *)

Inductive res (A : Type) : Type :=
  | Ok (a : A)
  | Err (e : error).
Arguments Ok {A} a.
Arguments Err {A} e.

(** ** BVHCache *)

(** The variants, as the [switch] statements of the source list them. *)
Inductive BVHCacheType : Type :=
  | BVHTREE_FROM_VERTS
  | BVHTREE_FROM_EDGES
  | BVHTREE_FROM_FACES
  | BVHTREE_FROM_LOOPTRI
  | BVHTREE_FROM_LOOPTRI_NO_HIDDEN
  | BVHTREE_FROM_LOOSEVERTS
  | BVHTREE_FROM_LOOSEEDGES
  | BVHTREE_FROM_EM_VERTS
  | BVHTREE_FROM_EM_EDGES
  | BVHTREE_FROM_EM_LOOPTRI
  | BVHTREE_MAX_ITEM.

(** Modelled from the spec: the enumeration is declared in [BKE_bvhutils.h],
    which is not part of the sources at hand.  The spec describes a fixed-size
    slot array indexed by a closed enumeration of variants; the ordinals below
    follow the order of the declaration, with [BVHTREE_MAX_ITEM] last, so that
    it is the number of slots and not a slot itself. *)
Definition BVHCacheType_index (type : BVHCacheType) : nat :=
  match type with
  | BVHTREE_FROM_VERTS => 0
  | BVHTREE_FROM_EDGES => 1
  | BVHTREE_FROM_FACES => 2
  | BVHTREE_FROM_LOOPTRI => 3
  | BVHTREE_FROM_LOOPTRI_NO_HIDDEN => 4
  | BVHTREE_FROM_LOOSEVERTS => 5
  | BVHTREE_FROM_LOOSEEDGES => 6
  | BVHTREE_FROM_EM_VERTS => 7
  | BVHTREE_FROM_EM_EDGES => 8
  | BVHTREE_FROM_EM_LOOPTRI => 9
  | BVHTREE_MAX_ITEM => 10
  end.

Definition BVHTREE_MAX_ITEM_num : nat := BVHCacheType_index BVHTREE_MAX_ITEM.

(** A [BVHTree *]: the address of a hierarchy, [None] for [nullptr]. *)
Definition BVHTreeP : Type := option nat.

Record BVHCacheItem : Type := {
  is_filled : bool;
  tree : BVHTreeP;
}.

Record BVHCache : Type := {
  items : list BVHCacheItem;   (* [items[BVHTREE_MAX_ITEM]] *)
  mutex : bool;                (* the [ThreadMutex]: [true] when held *)
}.

(** ** The hierarchy, as far as the builders use it

    A leaf is the index it was inserted with and its points. *)
Record BVHTree : Type := {
  bt_maxsize : Z;
  bt_epsilon : float;
  bt_tree_type : Z;
  bt_axis : Z;
  bt_leaves : list (Z * list V3);
  bt_balanced : bool;
}.

(** ** The state the file works on *)
Record State : Type := {
  heap : gmap nat BVHTree;       (* the live hierarchies, by address *)
  alloc_failures : list bool;    (* outcome of the coming allocations: [true] fails *)
  n_new : nat;                   (* calls of [BLI_bvhtree_new] so far *)
  n_insert : nat;                (* calls of [BLI_bvhtree_insert] so far *)
  bvh_cache : option BVHCache;   (* [mesh->runtime->bvh_cache], [None] for [nullptr] *)
  eval_mutex : bool;             (* [mesh->runtime->eval_mutex]: [true] when held *)
}.

Definition M (A : Type) : Type := State -> res (A * State).

Definition ret {A} (a : A) : M A := fun st => Ok (a, st).

Definition bind {A B} (m : M A) (k : A -> M B) : M B :=
  fun st => match m st with
            | Ok (a, st') => k a st'
            | Err e => Err e
            end.

Notation "x <- m ;; k" := (bind m (fun x => k))
  (at level 100, m at next level, right associativity, only parsing).
Notation "m ;; k" := (bind m (fun _ => k))
  (at level 100, right associativity, only parsing).

Definition fail {A} (e : error) : M A := fun _ => Err e.
Definition gets {A} (f : State -> A) : M A := fun st => Ok (f st, st).
Definition modify (f : State -> State) : M unit := fun st => Ok (tt, f st).

(** [BLI_assert(b)]. *)
Definition BLI_assert (b : bool) : M unit :=
  if b then ret tt else fail AssertFail.

(** [a[i]] on an array. *)
Definition index {A} (a : list A) (i : nat) : M A :=
  match a !! i with
  | Some x => ret x
  | None => fail OutOfBounds
  end.

(** [p[i]] through a pointer that may be null. *)
Definition index_ptr {A} (p : option (list A)) (i : nat) : M A :=
  match p with
  | Some a => index a i
  | None => fail NullDeref
  end.

Fixpoint for_each {A} (l : list A) (body : A -> M unit) : M unit :=
  match l with
  | [] => ret tt
  | x :: l' => body x ;; for_each l' body
  end.

(** [for (int i = 0; i < n; i++) body(i)]. *)
Definition for_range (n : Z) (body : nat -> M unit) : M unit :=
  for_each (seq 0 (Z.to_nat n)) body.

Definition set_heap (h : gmap nat BVHTree) (st : State) : State :=
  {| heap := h; alloc_failures := alloc_failures st;
     n_new := n_new st; n_insert := n_insert st;
     bvh_cache := bvh_cache st; eval_mutex := eval_mutex st |}.

Definition set_bvh_cache (c : option BVHCache) (st : State) : State :=
  {| heap := heap st; alloc_failures := alloc_failures st;
     n_new := n_new st; n_insert := n_insert st;
     bvh_cache := c; eval_mutex := eval_mutex st |}.

Definition set_eval_mutex (b : bool) (st : State) : State :=
  {| heap := heap st; alloc_failures := alloc_failures st;
     n_new := n_new st; n_insert := n_insert st;
     bvh_cache := bvh_cache st; eval_mutex := b |}.

(** *** The mutexes *)

Definition set_mutex (b : bool) (c : BVHCache) : BVHCache :=
  {| items := items c; mutex := b |}.

Definition set_item (i : nat) (it : BVHCacheItem) (c : BVHCache) : BVHCache :=
  {| items := <[i := it]> (items c); mutex := mutex c |}.

(** The cache the pointer designates; a null pointer cannot be followed. *)
Definition the_cache : M BVHCache :=
  c <- gets bvh_cache ;;
  match c with
  | Some c => ret c
  | None => fail NullDeref
  end.

(** [BLI_mutex_lock(&bvh_cache->mutex)]. *)
Definition BLI_mutex_lock_cache : M unit :=
  c <- the_cache ;;
  if mutex c then fail Deadlock
  else modify (set_bvh_cache (Some (set_mutex true c))).

(** [BLI_mutex_unlock(&bvh_cache->mutex)]. *)
Definition BLI_mutex_unlock_cache : M unit :=
  c <- the_cache ;;
  modify (set_bvh_cache (Some (set_mutex false c))).

(** [bvhcache_init]: [MEM_cnew] zero-fills the slots. *)
Definition bvhcache_init : BVHCache :=
  {| items := replicate BVHTREE_MAX_ITEM_num {| is_filled := false; tree := None |};
     mutex := false |}.

(** [bvh_cache->items[type]]. *)
Definition cache_item (c : BVHCache) (type : BVHCacheType) : M BVHCacheItem :=
  index (items c) (BVHCacheType_index type).

(** [bvhcache_find] called with [r_locked == nullptr]: the instance the
    function calls itself with.  The result is the returned flag and the
    value of [*r_tree] afterwards. *)
Definition bvhcache_find_nolock (type : BVHCacheType) (r_tree : BVHTreeP)
  : M (bool * BVHTreeP) :=
  c <- gets bvh_cache ;;
  match c with
  | None =>
      (* Cache does not exist and no lock is requested. *)
      ret (false, r_tree)
  | Some bvh_cache =>
      item <- cache_item bvh_cache type ;;
      if is_filled item then ret (true, tree item)
      else ret (false, r_tree)
  end.

(** [bvhcache_find]: [do_lock] is [r_locked != nullptr]; the result is the
    returned flag, [*r_tree] and [*r_locked] afterwards. *)
Definition bvhcache_find (type : BVHCacheType) (r_tree : BVHTreeP) (do_lock : bool)
  : M (bool * BVHTreeP * bool) :=
  if negb do_lock then
    r <- bvhcache_find_nolock type r_tree ;;
    ret (r.1, r.2, false)
  else
    c <- gets bvh_cache ;;
    match c with
    | None =>
        (* Lazy initialization of the bvh_cache using the [mesh_eval_mutex]. *)
        locked <- gets eval_mutex ;;
        (if locked then fail Deadlock else modify (set_eval_mutex true)) ;;
        c' <- gets bvh_cache ;;
        match c' with
        | None => modify (set_bvh_cache (Some bvhcache_init))
        | Some _ => ret tt
        end ;;
        modify (set_eval_mutex false)
    | Some _ => ret tt
    end ;;
    bvh_cache <- the_cache ;;
    item <- cache_item bvh_cache type ;;
    if is_filled item then ret (true, tree item, false)
    else
      BLI_mutex_lock_cache ;;
      r <- bvhcache_find_nolock type r_tree ;;
      let in_cache := r.1 in
      if in_cache then
        BLI_mutex_unlock_cache ;;
        ret (in_cache, r.2, false)
      else ret (false, r.2, true).

Definition bvhcache_unlock (lock_started : bool) : M unit :=
  if lock_started then BLI_mutex_unlock_cache else ret tt.

(** [bvhcache_has_tree]: the loop over the slots compares the [tree] fields
    only. *)
Fixpoint has_tree_loop (its : list BVHCacheItem) (t : BVHTreeP) : bool :=
  match its with
  | [] => false
  | it :: its' => if decide (tree it = t) then true else has_tree_loop its' t
  end.

Definition bvhcache_has_tree (bvh_cache : option BVHCache) (t : BVHTreeP) : bool :=
  match bvh_cache with
  | None => false
  | Some c => has_tree_loop (take BVHTREE_MAX_ITEM_num (items c)) t
  end.

(** [bvhcache_insert]. *)
Definition bvhcache_insert (t : BVHTreeP) (type : BVHCacheType) : M unit :=
  c <- the_cache ;;
  item <- cache_item c type ;;
  BLI_assert (negb (is_filled item)) ;;
  modify (set_bvh_cache
            (Some (set_item (BVHCacheType_index type)
                            {| is_filled := true; tree := t |} c))).

(** ** The hierarchy operations of [BLI_kdopbvh]

    Modelled from the spec: the BVH data structure is an external
    collaborator, specified at its interface: it accepts primitives with
    bounding extents and an identifier, and allocation failure is signalled
    by returning no index.  Nothing here bounds the number of insertions
    by [maxsize]. *)

Definition set_counts (failures : list bool) (news inserts : nat) (st : State) : State :=
  {| heap := heap st; alloc_failures := failures;
     n_new := news; n_insert := inserts;
     bvh_cache := bvh_cache st; eval_mutex := eval_mutex st |}.

Definition empty_tree (maxsize : Z) (epsilon : float) (tree_type axis : Z) : BVHTree :=
  {| bt_maxsize := maxsize; bt_epsilon := epsilon; bt_tree_type := tree_type;
     bt_axis := axis; bt_leaves := []; bt_balanced := false |}.

(** The conversion of an [int] to [char]: the value modulo 256, in the range
    of a [char] that is signed.  On the values from 0 to 127 it is the
    identity, whether [char] is signed or not. *)
Definition char_of_int (x : Z) : Z := ((x + 128) mod 256 - 128)%Z.

(** Modelled from the spec: [BLI_bvhtree_new] allocates a hierarchy sized for
    [maxsize] insertions, also when [maxsize] is zero, or returns [nullptr]
    when the allocation fails.  The address is one that is not live.  Its
    parameters [tree_type] and [axis] are [char]: the [int] its callers in
    this file pass is converted. *)
Definition BLI_bvhtree_new (maxsize : Z) (epsilon : float) (tree_type axis : Z)
  : M BVHTreeP :=
  failures <- gets alloc_failures ;;
  news <- gets n_new ;;
  inserts <- gets n_insert ;;
  modify (set_counts (tail failures) (S news) inserts) ;;
  match failures with
  | true :: _ => ret None
  | _ =>
      h <- gets heap ;;
      let a := fresh (dom h) in
      modify (set_heap (<[a := empty_tree maxsize epsilon (char_of_int tree_type)
                                          (char_of_int axis)]> h)) ;;
      ret (Some a)
  end.

(** A live hierarchy; a dangling or null pointer cannot be followed. *)
Definition the_tree (t : nat) : M BVHTree :=
  h <- gets heap ;;
  match h !! t with
  | Some tr => ret tr
  | None => fail NullDeref
  end.

Definition add_leaf (i : Z) (co : list V3) (tr : BVHTree) : BVHTree :=
  {| bt_maxsize := bt_maxsize tr; bt_epsilon := bt_epsilon tr;
     bt_tree_type := bt_tree_type tr; bt_axis := bt_axis tr;
     bt_leaves := bt_leaves tr ++ [(i, co)]; bt_balanced := bt_balanced tr |}.

Definition set_balanced (tr : BVHTree) : BVHTree :=
  {| bt_maxsize := bt_maxsize tr; bt_epsilon := bt_epsilon tr;
     bt_tree_type := bt_tree_type tr; bt_axis := bt_axis tr;
     bt_leaves := bt_leaves tr; bt_balanced := true |}.

(** Modelled from the spec: [BLI_bvhtree_insert(tree, index, co, numpoints)]
    adds the primitive [index] with the [numpoints] points at [co]. *)
Definition BLI_bvhtree_insert (t : nat) (i : Z) (co : list V3) : M unit :=
  tr <- the_tree t ;;
  h <- gets heap ;;
  failures <- gets alloc_failures ;;
  news <- gets n_new ;;
  inserts <- gets n_insert ;;
  modify (set_counts failures news (S inserts)) ;;
  modify (set_heap (<[t := add_leaf i co tr]> h)).

(** Modelled from the spec: [BLI_bvhtree_get_len] is the number of primitives
    inserted. *)
Definition BLI_bvhtree_get_len (t : nat) : M Z :=
  tr <- the_tree t ;;
  ret (Z.of_nat (length (bt_leaves tr))).

(** Modelled from the spec: [BLI_bvhtree_free] releases the hierarchy; a null
    pointer is ignored. *)
Definition BLI_bvhtree_free (t : BVHTreeP) : M unit :=
  match t with
  | None => ret tt
  | Some a => h <- gets heap ;; modify (set_heap (delete a h))
  end.

(** Modelled from the spec: [BLI_bvhtree_balance] balances the hierarchy in
    place; the primitives stay as inserted. *)
Definition BLI_bvhtree_balance (t : nat) : M unit :=
  tr <- the_tree t ;;
  h <- gets heap ;;
  modify (set_heap (<[t := set_balanced tr]> h)).

(** [bvhcache_free]: every slot's tree is released, filled or not; then the
    mutex and the cache itself.  The pointer the caller holds is the
    caller's to reset. *)
Definition bvhcache_free (bvh_cache : BVHCache) : M unit :=
  for_each (take BVHTREE_MAX_ITEM_num (items bvh_cache))
           (fun item => BLI_bvhtree_free (tree item)).

(** [bvhtree_balance_isolated] and [bvhtree_balance]: [BLI_task_isolate] runs
    its function on the calling thread. *)
Definition bvhtree_balance_isolated (userdata : nat) : M unit :=
  BLI_bvhtree_balance userdata.

Definition bvhtree_balance (t : BVHTreeP) (isolate : bool) : M unit :=
  match t with
  | Some a =>
      if isolate then bvhtree_balance_isolated a
      else BLI_bvhtree_balance a
  | None => ret tt
  end.

(** ** The pure error monad, for code that reads arrays and changes nothing *)

#[global] Instance res_ret : MRet res := fun _ a => Ok a.
#[global] Instance res_bind : MBind res := fun _ _ k m =>
  match m with
  | Ok a => k a
  | Err e => Err e
  end.

Definition lift {A} (r : res A) : M A :=
  fun st => match r with
            | Ok a => Ok (a, st)
            | Err e => Err e
            end.

(** [a[i]] and [p[i]], without state. *)
Definition at_index {A} (a : list A) (i : nat) : res A :=
  match a !! i with
  | Some x => Ok x
  | None => Err OutOfBounds
  end.

Definition at_ptr {A} (p : option (list A)) (i : nat) : res A :=
  match p with
  | Some a => at_index a i
  | None => Err NullDeref
  end.

(** [Span::data()]: the pointer of an empty span is null. *)
Definition span_data {A} (s : list A) : option (list A) :=
  match s with
  | [] => None
  | _ => Some s
  end.

(** ** Mesh data *)

Record MEdge : Type := { e_v1 : nat; e_v2 : nat }.
Record MFace : Type := { f_v1 : nat; f_v2 : nat; f_v3 : nat; f_v4 : nat }.
Record MLoop : Type := { l_v : nat; l_e : nat }.
Record MLoopTri : Type := { tri : nat * nat * nat; poly : nat }.
Record MPoly : Type := { loopstart : Z; totloop : Z }.

(** Modelled from the spec: [ME_POLY_TRI_TOT] of [DNA_meshdata_types.h], the
    number of triangles a polygon is tessellated into: a polygon of [n]
    corners gives [n - 2] triangles. *)
Definition ME_POLY_TRI_TOT (mp : MPoly) : Z := (totloop mp - 2)%Z.

(** Modelled from the spec: a [VArray<T>] is either one value standing for
    every index or a value per element; the attribute lookup gives the
    first, with the default, when the attribute is not stored. *)
Inductive VArray (A : Type) : Type :=
  | VArray_Single (value : A) (size : nat)
  | VArray_Span (values : list A).
Arguments VArray_Single {A} value size.
Arguments VArray_Span {A} values.

Definition VArray_is_single {A} (v : VArray A) : bool :=
  match v with
  | VArray_Single _ _ => true
  | VArray_Span _ => false
  end.

Definition VArray_get_internal_single {A} (v : VArray A) : res A :=
  match v with
  | VArray_Single x _ => Ok x
  | VArray_Span _ => Err AssertFail
  end.

Definition VArray_get {A} (v : VArray A) (i : nat) : res A :=
  match v with
  | VArray_Single x n => if decide (i < n) then Ok x else Err OutOfBounds
  | VArray_Span l => at_index l i
  end.

(** A [BitVector<>] or [BitSpan]: one bit per candidate. *)
Abbreviation BitVector := (list bool).

Definition BitSpan_is_empty (mask : BitVector) : bool :=
  match mask with
  | [] => true
  | _ => false
  end.

Record LooseEdgeCache : Type := {
  is_loose_bits : BitVector;
  count : Z;
}.

Record Mesh : Type := {
  vert_positions : list V3;
  edges : list MEdge;
  loops : list MLoop;
  polys : list MPoly;
  looptris : list MLoopTri;
  mface : option (list MFace);        (* the [CD_MFACE] layer of [fdata] *)
  totvert : Z;
  totedge : Z;
  totface : Z;
  totpoly : Z;
  hide_poly_attribute : option (list bool);   (* [".hide_poly"], when stored *)
  loose_edges : LooseEdgeCache;
}.

(** [attributes.lookup_or_default(".hide_poly", ATTR_DOMAIN_FACE, false)]. *)
Definition lookup_hide_poly (mesh : Mesh) : VArray bool :=
  match hide_poly_attribute mesh with
  | Some l => VArray_Span l
  | None => VArray_Single false (length (polys mesh))
  end.

(** The edit mesh: element tables and the tessellation. *)
Record BMVert : Type := { co : V3 }.
Record BMEdge : Type := { bm_v1 : BMVert; bm_v2 : BMVert }.
Record BMLoop : Type := { bl_v : BMVert }.
Record BMesh : Type := { vtable : list BMVert; etable : list BMEdge }.
Record BMEditMesh : Type := { bm : BMesh; em_looptris : list (BMLoop * BMLoop * BMLoop) }.

Definition bm_totvert (b : BMesh) : Z := Z.of_nat (length (vtable b)).
Definition bm_totedge (b : BMesh) : Z := Z.of_nat (length (etable b)).
Definition em_tottri (em : BMEditMesh) : Z := Z.of_nat (length (em_looptris em)).

(** ** Rays, hits and the geometry of [BLI_math] *)

Record BVHTreeRay : Type := {
  origin : V3;
  direction : V3;
  radius : float;
}.

Record BVHTreeRayHit : Type := {
  hit_index : Z;
  hit_co : V3;
  hit_no : V3;
  hit_dist : float;
}.

(** The intersection and vector routines are library code; the callbacks are
    stated for any implementation of them. *)
Class BLI_math : Type := {
  (* [isect_ray_tri_watertight_v3] or [isect_ray_tri_epsilon_v3]: the
     distance along the ray when it meets the triangle *)
  isect_ray_tri : BVHTreeRay -> V3 -> V3 -> V3 -> option float;
  (* the fraction of the sweep at which the sphere meets the triangle *)
  isect_sweeping_sphere_tri_v3 : V3 -> V3 -> float -> V3 -> V3 -> V3 -> option float;
  madd_v3_v3v3fl : V3 -> V3 -> float -> V3;
  normal_tri_v3 : V3 -> V3 -> V3 -> V3;
}.

(** ** Query bundles and the callbacks they carry *)

(** The callbacks a bundle can point to, by name. *)
Inductive BVHTree_NearestPointCallback : Type :=
  | CB_mesh_faces_nearest_point
  | CB_mesh_looptri_nearest_point
  | CB_editmesh_looptri_nearest_point
  | CB_mesh_edges_nearest_point.

Inductive BVHTree_RayCastCallback : Type :=
  | CB_mesh_faces_spherecast
  | CB_mesh_looptri_spherecast
  | CB_editmesh_looptri_spherecast
  | CB_mesh_verts_spherecast
  | CB_editmesh_verts_spherecast
  | CB_mesh_edges_spherecast.

Record BVHTreeFromMesh : Type := {
  fm_tree : BVHTreeP;
  fm_nearest_callback : option BVHTree_NearestPointCallback;
  fm_raycast_callback : option BVHTree_RayCastCallback;
  fm_vert_positions : option (list V3);
  fm_edge : option (list MEdge);
  fm_face : option (list MFace);
  fm_loop : option (list MLoop);
  fm_looptri : option (list MLoopTri);
  fm_cached : bool;
}.

Record BVHTreeFromEditMesh : Type := {
  fem_tree : BVHTreeP;
  fem_nearest_callback : option BVHTree_NearestPointCallback;
  fem_raycast_callback : option BVHTree_RayCastCallback;
  fem_em : option BMEditMesh;
  fem_cached : bool;
}.

(** [memset] of the bundle to zero. *)
Definition BVHTreeFromMesh_zero : BVHTreeFromMesh :=
  {| fm_tree := None; fm_nearest_callback := None; fm_raycast_callback := None;
     fm_vert_positions := None; fm_edge := None; fm_face := None; fm_loop := None;
     fm_looptri := None; fm_cached := false |}.

Definition BVHTreeFromEditMesh_zero : BVHTreeFromEditMesh :=
  {| fem_tree := None; fem_nearest_callback := None; fem_raycast_callback := None;
     fem_em := None; fem_cached := false |}.

Section Callbacks.
Context `{BLI_math}.

Definition bvhtree_ray_tri_intersection
    (ray : BVHTreeRay) (m_dist : float) (v0 v1 v2 : V3) : float :=
  match isect_ray_tri ray v0 v1 v2 with
  | Some dist => dist
  | None => F32.FLT_MAX
  end.

Definition bvhtree_sphereray_tri_intersection
    (ray : BVHTreeRay) (radius : float) (m_dist : float) (v0 v1 v2 : V3) : float :=
  let p1 := madd_v3_v3v3fl (origin ray) (direction ray) m_dist in
  match isect_sweeping_sphere_tri_v3 (origin ray) p1 radius v0 v1 v2 with
  | Some idist => F32.mul idist m_dist
  | None => F32.FLT_MAX
  end.

(** The corners of face [index]: [t3] is null for a triangle. *)
Definition mesh_faces_corners (data : BVHTreeFromMesh) (index : nat)
  : res (V3 * V3 * V3 * option V3) :=
  face ← at_ptr (fm_face data) index;
  t0 ← at_ptr (fm_vert_positions data) (f_v1 face);
  t1 ← at_ptr (fm_vert_positions data) (f_v2 face);
  t2 ← at_ptr (fm_vert_positions data) (f_v3 face);
  t3 ← (if decide (f_v4 face = 0) then Ok None
        else t ← at_ptr (fm_vert_positions data) (f_v4 face); mret (Some t));
  mret (t0, t1, t2, t3).

(** [mesh_faces_spherecast].  The [do ... while (t2)] loop runs once on
    [(t0, t1, t2)] and, when [t3] is not null, once more on [(t0, t2, t3)]:
    after that [t2] is null. *)
Definition mesh_faces_spherecast
    (data : BVHTreeFromMesh) (index : nat) (ray : BVHTreeRay) (hit : BVHTreeRayHit)
  : res BVHTreeRayHit :=
  c ← mesh_faces_corners data index;
  let '(t0, t1, t2, t3) := c in
  let body (t0 t1 t2 : V3) (hit : BVHTreeRayHit) : BVHTreeRayHit :=
    let dist :=
      if F32.eqb (radius ray) F32.zero
      then bvhtree_ray_tri_intersection ray (hit_dist hit) t0 t1 t2
      else bvhtree_sphereray_tri_intersection ray (radius ray) (hit_dist hit) t0 t1 t2 in
    if F32.geb dist F32.zero && F32.ltb dist (hit_dist hit) then
      {| hit_index := Z.of_nat index;
         hit_dist := dist;
         hit_co := madd_v3_v3v3fl (origin ray) (direction ray) dist;
         hit_no := normal_tri_v3 t0 t1 t2 |}
    else hit in
  let hit := body t0 t1 t2 hit in
  match t3 with
  | Some t3 => mret (body t0 t2 t3 hit)
  | None => mret hit
  end.

Definition mesh_looptri_vtri_co (data : BVHTreeFromMesh) (index : nat)
  : res (V3 * V3 * V3) :=
  lt ← at_ptr (fm_looptri data) index;
  l0 ← at_ptr (fm_loop data) (tri lt).1.1;
  l1 ← at_ptr (fm_loop data) (tri lt).1.2;
  l2 ← at_ptr (fm_loop data) (tri lt).2;
  t0 ← at_ptr (fm_vert_positions data) (l_v l0);
  t1 ← at_ptr (fm_vert_positions data) (l_v l1);
  t2 ← at_ptr (fm_vert_positions data) (l_v l2);
  mret (t0, t1, t2).

(** [mesh_looptri_spherecast]. *)
Definition mesh_looptri_spherecast
    (data : BVHTreeFromMesh) (index : nat) (ray : BVHTreeRay) (hit : BVHTreeRayHit)
  : res BVHTreeRayHit :=
  vtri_co ← mesh_looptri_vtri_co data index;
  let '(t0, t1, t2) := vtri_co in
  let dist :=
    if F32.eqb (radius ray) F32.zero
    then bvhtree_ray_tri_intersection ray (hit_dist hit) t0 t1 t2
    else bvhtree_sphereray_tri_intersection ray (radius ray) (hit_dist hit) t0 t1 t2 in
  if F32.geb dist F32.zero && F32.ltb dist (hit_dist hit) then
    mret {| hit_index := Z.of_nat index;
            hit_dist := dist;
            hit_co := madd_v3_v3v3fl (origin ray) (direction ray) dist;
            hit_no := normal_tri_v3 t0 t1 t2 |}
  else mret hit.

Definition editmesh_looptri_corners (data : BVHTreeFromEditMesh) (index : nat)
  : res (V3 * V3 * V3) :=
  match fem_em data with
  | None => Err NullDeref
  | Some em =>
      ltri ← at_index (em_looptris em) index;
      mret (co (bl_v ltri.1.1), co (bl_v ltri.1.2), co (bl_v ltri.2))
  end.

(** [editmesh_looptri_spherecast]. *)
Definition editmesh_looptri_spherecast
    (data : BVHTreeFromEditMesh) (index : nat) (ray : BVHTreeRay) (hit : BVHTreeRayHit)
  : res BVHTreeRayHit :=
  c ← editmesh_looptri_corners data index;
  let '(t0, t1, t2) := c in
  let dist :=
    if F32.eqb (radius ray) F32.zero
    then bvhtree_ray_tri_intersection ray (hit_dist hit) t0 t1 t2
    else bvhtree_sphereray_tri_intersection ray (radius ray) (hit_dist hit) t0 t1 t2 in
  if F32.geb dist F32.zero && F32.ltb dist (hit_dist hit) then
    mret {| hit_index := Z.of_nat index;
            hit_dist := dist;
            hit_co := madd_v3_v3v3fl (origin ray) (direction ray) dist;
            hit_no := normal_tri_v3 t0 t1 t2 |}
  else mret hit.
End Callbacks.

(** ** Common utilities of the builders *)

Definition bvhtree_from_mesh_setup_data
    (t : BVHTreeP) (bvh_cache_type : BVHCacheType)
    (positions : option (list V3)) (edge : option (list MEdge))
    (face : option (list MFace)) (loop : option (list MLoop))
    (looptris : list MLoopTri) : M BVHTreeFromMesh :=
  let r_data (nearest : option BVHTree_NearestPointCallback)
             (raycast : option BVHTree_RayCastCallback) : BVHTreeFromMesh :=
    {| fm_tree := t;
       fm_nearest_callback := nearest; fm_raycast_callback := raycast;
       fm_vert_positions := positions; fm_edge := edge; fm_face := face;
       fm_loop := loop; fm_looptri := span_data looptris;
       fm_cached := false |} in
  match bvh_cache_type with
  | BVHTREE_FROM_VERTS | BVHTREE_FROM_LOOSEVERTS =>
      ret (r_data None (Some CB_mesh_verts_spherecast))
  | BVHTREE_FROM_EDGES | BVHTREE_FROM_LOOSEEDGES =>
      ret (r_data (Some CB_mesh_edges_nearest_point) (Some CB_mesh_edges_spherecast))
  | BVHTREE_FROM_FACES =>
      ret (r_data (Some CB_mesh_faces_nearest_point) (Some CB_mesh_faces_spherecast))
  | BVHTREE_FROM_LOOPTRI | BVHTREE_FROM_LOOPTRI_NO_HIDDEN =>
      ret (r_data (Some CB_mesh_looptri_nearest_point) (Some CB_mesh_looptri_spherecast))
  | BVHTREE_FROM_EM_VERTS | BVHTREE_FROM_EM_EDGES | BVHTREE_FROM_EM_LOOPTRI
  | BVHTREE_MAX_ITEM =>
      BLI_assert false ;;
      ret (r_data None None)
  end.

Definition bvhtree_from_editmesh_setup_data
    (t : BVHTreeP) (bvh_cache_type : BVHCacheType) (em : BMEditMesh)
  : M BVHTreeFromEditMesh :=
  let r_data (nearest : option BVHTree_NearestPointCallback)
             (raycast : option BVHTree_RayCastCallback) : BVHTreeFromEditMesh :=
    {| fem_tree := t;
       fem_nearest_callback := nearest; fem_raycast_callback := raycast;
       fem_em := Some em; fem_cached := false |} in
  match bvh_cache_type with
  | BVHTREE_FROM_EM_VERTS =>
      ret (r_data None (Some CB_editmesh_verts_spherecast))
  | BVHTREE_FROM_EM_EDGES =>
      ret (r_data None None)
  | BVHTREE_FROM_EM_LOOPTRI =>
      ret (r_data (Some CB_editmesh_looptri_nearest_point)
                  (Some CB_editmesh_looptri_spherecast))
  | BVHTREE_FROM_VERTS | BVHTREE_FROM_LOOSEVERTS | BVHTREE_FROM_EDGES
  | BVHTREE_FROM_LOOSEEDGES | BVHTREE_FROM_FACES | BVHTREE_FROM_LOOPTRI
  | BVHTREE_FROM_LOOPTRI_NO_HIDDEN | BVHTREE_MAX_ITEM =>
      BLI_assert false ;;
      ret (r_data None None)
  end.

(** [IN_RANGE_INCL(a, b, c)] of [BLI_utildefines.h]. *)
Definition IN_RANGE_INCL (a b c : Z) : bool :=
  if (a <? b)%Z || (a >? c)%Z then false else true.

(** [!mask.is_empty() && !mask[i]]: the candidate is left out. *)
Definition mask_skips (mask : BitVector) (i : nat) : M bool :=
  if negb (BitSpan_is_empty mask) then
    b <- index mask i ;;
    ret (negb b)
  else ret false.

(** ** Vertex builder *)

Definition bvhtree_from_editmesh_verts_create_tree
    (epsilon : float) (tree_type axis : Z) (em : BMEditMesh)
    (verts_mask : BitVector) (verts_num_active : Z) : M BVHTreeP :=
  let verts_num := bm_totvert (bm em) in
  verts_num_active <-
    (if negb (BitSpan_is_empty verts_mask) then
       BLI_assert (IN_RANGE_INCL verts_num_active 0 verts_num) ;;
       ret verts_num_active
     else ret verts_num) ;;
  t <- BLI_bvhtree_new verts_num_active epsilon tree_type axis ;;
  match t with
  | None => ret None
  | Some tree =>
      for_range verts_num (fun i =>
        skip <- mask_skips verts_mask i ;;
        if skip then ret tt
        else
          eve <- index (vtable (bm em)) i ;;
          BLI_bvhtree_insert tree (Z.of_nat i) [co eve]) ;;
      len <- BLI_bvhtree_get_len tree ;;
      BLI_assert (len =? verts_num_active)%Z ;;
      ret (Some tree)
  end.

Definition bvhtree_from_mesh_verts_create_tree
    (epsilon : float) (tree_type axis : Z) (positions : option (list V3))
    (verts_num : Z) (verts_mask : BitVector) (verts_num_active : Z) : M BVHTreeP :=
  verts_num_active <-
    (if negb (BitSpan_is_empty verts_mask) then
       BLI_assert (IN_RANGE_INCL verts_num_active 0 verts_num) ;;
       ret verts_num_active
     else ret verts_num) ;;
  if (verts_num_active =? 0)%Z then ret None
  else
    t <- BLI_bvhtree_new verts_num_active epsilon tree_type axis ;;
    match t with
    | None => ret None
    | Some tree =>
        for_range verts_num (fun i =>
          skip <- mask_skips verts_mask i ;;
          if skip then ret tt
          else
            p <- index_ptr positions i ;;
            BLI_bvhtree_insert tree (Z.of_nat i) [p]) ;;
        len <- BLI_bvhtree_get_len tree ;;
        BLI_assert (len =? verts_num_active)%Z ;;
        ret (Some tree)
    end.

(** ** Edge builder *)

Definition bvhtree_from_editmesh_edges_create_tree
    (epsilon : float) (tree_type axis : Z) (em : BMEditMesh)
    (edges_mask : BitVector) (edges_num_active : Z) : M BVHTreeP :=
  let edges_num := bm_totedge (bm em) in
  edges_num_active <-
    (if negb (BitSpan_is_empty edges_mask) then
       BLI_assert (IN_RANGE_INCL edges_num_active 0 edges_num) ;;
       ret edges_num_active
     else ret edges_num) ;;
  t <- BLI_bvhtree_new edges_num_active epsilon tree_type axis ;;
  match t with
  | None => ret None
  | Some tree =>
      (* [BM_ITER_MESH_INDEX] walks the edges of the mesh, counting them in [i] *)
      for_range edges_num (fun i =>
        skip <- mask_skips edges_mask i ;;
        if skip then ret tt
        else
          eed <- index (etable (bm em)) i ;;
          BLI_bvhtree_insert tree (Z.of_nat i) [co (bm_v1 eed); co (bm_v2 eed)]) ;;
      len <- BLI_bvhtree_get_len tree ;;
      BLI_assert (len =? edges_num_active)%Z ;;
      ret (Some tree)
  end.

Definition bvhtree_from_mesh_edges_create_tree
    (positions : option (list V3)) (edge : option (list MEdge)) (edge_num : Z)
    (edges_mask : BitVector) (edges_num_active : Z)
    (epsilon : float) (tree_type axis : Z) : M BVHTreeP :=
  edges_num_active <-
    (if negb (BitSpan_is_empty edges_mask) then
       BLI_assert (IN_RANGE_INCL edges_num_active 0 edge_num) ;;
       ret edges_num_active
     else ret edge_num) ;;
  if (edges_num_active =? 0)%Z then ret None
  else
    t <- BLI_bvhtree_new edges_num_active epsilon tree_type axis ;;
    match t with
    | None => ret None
    | Some tree =>
        for_range edge_num (fun i =>
          skip <- mask_skips edges_mask i ;;
          if skip then ret tt
          else
            e <- index_ptr edge i ;;
            co0 <- index_ptr positions (e_v1 e) ;;
            co1 <- index_ptr positions (e_v2 e) ;;
            BLI_bvhtree_insert tree (Z.of_nat i) [co0; co1]) ;;
        ret (Some tree)
    end.

(** ** Tessellated face builder *)

Definition is_null {A} (p : option A) : bool :=
  match p with
  | None => true
  | Some _ => false
  end.

Definition bvhtree_from_mesh_faces_create_tree
    (epsilon : float) (tree_type axis : Z) (positions : option (list V3))
    (face : option (list MFace)) (faces_num : Z)
    (faces_mask : BitVector) (faces_num_active : Z) : M BVHTreeP :=
  if (faces_num =? 0)%Z then ret None
  else
    faces_num_active <-
      (if negb (BitSpan_is_empty faces_mask) then
         BLI_assert (IN_RANGE_INCL faces_num_active 0 faces_num) ;;
         ret faces_num_active
       else ret faces_num) ;;
    t <- BLI_bvhtree_new faces_num_active epsilon tree_type axis ;;
    match t with
    | None => ret None
    | Some tree =>
        (if negb (is_null positions) && negb (is_null face) then
           for_range faces_num (fun i =>
             skip <- mask_skips faces_mask i ;;
             if skip then ret tt
             else
               f <- index_ptr face i ;;
               co0 <- index_ptr positions (f_v1 f) ;;
               co1 <- index_ptr positions (f_v2 f) ;;
               co2 <- index_ptr positions (f_v3 f) ;;
               if decide (f_v4 f = 0) then
                 BLI_bvhtree_insert tree (Z.of_nat i) [co0; co1; co2]
               else
                 co3 <- index_ptr positions (f_v4 f) ;;
                 BLI_bvhtree_insert tree (Z.of_nat i) [co0; co1; co2; co3])
         else ret tt) ;;
        len <- BLI_bvhtree_get_len tree ;;
        BLI_assert (len =? faces_num_active)%Z ;;
        ret (Some tree)
    end.

(** ** LoopTri face builder *)

Definition bvhtree_from_editmesh_looptri_create_tree
    (epsilon : float) (tree_type axis : Z) (em : BMEditMesh)
    (looptri_mask : BitVector) (looptri_num_active : Z) : M BVHTreeP :=
  let looptri_num := em_tottri em in
  if (looptri_num =? 0)%Z then ret None
  else
    looptri_num_active <-
      (if negb (BitSpan_is_empty looptri_mask) then
         BLI_assert (IN_RANGE_INCL looptri_num_active 0 looptri_num) ;;
         ret looptri_num_active
       else ret looptri_num) ;;
    t <- BLI_bvhtree_new looptri_num_active epsilon tree_type axis ;;
    match t with
    | None => ret None
    | Some tree =>
        for_range looptri_num (fun i =>
          ltri <- index (em_looptris em) i ;;
          insert <- (if negb (BitSpan_is_empty looptri_mask)
                     then index looptri_mask i else ret true) ;;
          if insert then
            BLI_bvhtree_insert tree (Z.of_nat i)
              [co (bl_v ltri.1.1); co (bl_v ltri.1.2); co (bl_v ltri.2)]
          else ret tt) ;;
        len <- BLI_bvhtree_get_len tree ;;
        BLI_assert (len =? looptri_num_active)%Z ;;
        ret (Some tree)
    end.

Definition bvhtree_from_mesh_looptri_create_tree
    (epsilon : float) (tree_type axis : Z) (positions : option (list V3))
    (mloop : option (list MLoop)) (looptris : list MLoopTri)
    (looptri_mask : BitVector) (looptri_num_active : Z) : M BVHTreeP :=
  let size := Z.of_nat (length looptris) in
  looptri_num_active <-
    (if negb (BitSpan_is_empty looptri_mask) then
       BLI_assert (IN_RANGE_INCL looptri_num_active 0 size) ;;
       ret looptri_num_active
     else ret size) ;;
  if (looptri_num_active =? 0)%Z then ret None
  else
    t <- BLI_bvhtree_new looptri_num_active epsilon tree_type axis ;;
    match t with
    | None => ret None
    | Some tree =>
        (if negb (is_null positions) && negb (bool_decide (looptris = [])) then
           for_range size (fun i =>
             skip <- mask_skips looptri_mask i ;;
             if skip then ret tt
             else
               lt <- index looptris i ;;
               l0 <- index_ptr mloop (tri lt).1.1 ;;
               l1 <- index_ptr mloop (tri lt).1.2 ;;
               l2 <- index_ptr mloop (tri lt).2 ;;
               co0 <- index_ptr positions (l_v l0) ;;
               co1 <- index_ptr positions (l_v l1) ;;
               co2 <- index_ptr positions (l_v l2) ;;
               BLI_bvhtree_insert tree (Z.of_nat i) [co0; co1; co2])
         else ret tt) ;;
        len <- BLI_bvhtree_get_len tree ;;
        BLI_assert (len =? looptri_num_active)%Z ;;
        ret (Some tree)
    end.

(** The [_ex] builders: [data] may be null, the bundle is filled when it is
    not. *)

Definition bvhtree_from_editmesh_verts_ex
    (data : bool) (em : BMEditMesh) (verts_mask : BitVector) (verts_num_active : Z)
    (epsilon : float) (tree_type axis : Z)
  : M (option BVHTreeFromEditMesh * BVHTreeP) :=
  t <- bvhtree_from_editmesh_verts_create_tree
         epsilon tree_type axis em verts_mask verts_num_active ;;
  bvhtree_balance t false ;;
  if data then
    d <- bvhtree_from_editmesh_setup_data t BVHTREE_FROM_EM_VERTS em ;;
    ret (Some d, t)
  else ret (None, t).

Definition bvhtree_from_editmesh_verts
    (data : bool) (em : BMEditMesh) (epsilon : float) (tree_type axis : Z)
  : M (option BVHTreeFromEditMesh * BVHTreeP) :=
  bvhtree_from_editmesh_verts_ex data em [] (-1) epsilon tree_type axis.

Definition bvhtree_from_mesh_verts_ex
    (data : bool) (vert_positions : option (list V3)) (verts_num : Z)
    (verts_mask : BitVector) (verts_num_active : Z)
    (epsilon : float) (tree_type axis : Z)
  : M (option BVHTreeFromMesh * BVHTreeP) :=
  t <- bvhtree_from_mesh_verts_create_tree
         epsilon tree_type axis vert_positions verts_num verts_mask verts_num_active ;;
  bvhtree_balance t false ;;
  if data then
    d <- bvhtree_from_mesh_setup_data t BVHTREE_FROM_VERTS vert_positions None None None [] ;;
    ret (Some d, t)
  else ret (None, t).

Definition bvhtree_from_editmesh_edges_ex
    (data : bool) (em : BMEditMesh) (edges_mask : BitVector) (edges_num_active : Z)
    (epsilon : float) (tree_type axis : Z)
  : M (option BVHTreeFromEditMesh * BVHTreeP) :=
  t <- bvhtree_from_editmesh_edges_create_tree
         epsilon tree_type axis em edges_mask edges_num_active ;;
  bvhtree_balance t false ;;
  if data then
    d <- bvhtree_from_editmesh_setup_data t BVHTREE_FROM_EM_EDGES em ;;
    ret (Some d, t)
  else ret (None, t).

Definition bvhtree_from_editmesh_edges
    (data : bool) (em : BMEditMesh) (epsilon : float) (tree_type axis : Z)
  : M (option BVHTreeFromEditMesh * BVHTreeP) :=
  bvhtree_from_editmesh_edges_ex data em [] (-1) epsilon tree_type axis.

Definition bvhtree_from_mesh_edges_ex
    (data : bool) (vert_positions : option (list V3)) (edge : option (list MEdge))
    (edges_num : Z) (edges_mask : BitVector) (edges_num_active : Z)
    (epsilon : float) (tree_type axis : Z)
  : M (option BVHTreeFromMesh * BVHTreeP) :=
  t <- bvhtree_from_mesh_edges_create_tree
         vert_positions edge edges_num edges_mask edges_num_active epsilon tree_type axis ;;
  bvhtree_balance t false ;;
  if data then
    d <- bvhtree_from_mesh_setup_data t BVHTREE_FROM_EDGES vert_positions edge None None [] ;;
    ret (Some d, t)
  else ret (None, t).

Definition bvhtree_from_editmesh_looptri_ex
    (data : bool) (em : BMEditMesh) (looptri_mask : BitVector) (looptri_num_active : Z)
    (epsilon : float) (tree_type axis : Z)
  : M (option BVHTreeFromEditMesh * BVHTreeP) :=
  t <- bvhtree_from_editmesh_looptri_create_tree
         epsilon tree_type axis em looptri_mask looptri_num_active ;;
  bvhtree_balance t false ;;
  if data then
    d <- bvhtree_from_editmesh_setup_data t BVHTREE_FROM_EM_LOOPTRI em ;;
    ret (Some d, t)
  else ret (None, t).

Definition bvhtree_from_editmesh_looptri
    (data : bool) (em : BMEditMesh) (epsilon : float) (tree_type axis : Z)
  : M (option BVHTreeFromEditMesh * BVHTreeP) :=
  bvhtree_from_editmesh_looptri_ex data em [] (-1) epsilon tree_type axis.

(** [{looptri, looptri_num}]: the span of the first [looptri_num] triangles. *)
Definition bvhtree_from_mesh_looptri_ex
    (data : bool) (vert_positions : option (list V3)) (mloop : option (list MLoop))
    (looptri : list MLoopTri) (looptri_mask : BitVector) (looptri_num_active : Z)
    (epsilon : float) (tree_type axis : Z)
  : M (option BVHTreeFromMesh * BVHTreeP) :=
  t <- bvhtree_from_mesh_looptri_create_tree
         epsilon tree_type axis vert_positions mloop looptri looptri_mask looptri_num_active ;;
  bvhtree_balance t false ;;
  if data then
    d <- bvhtree_from_mesh_setup_data
           t BVHTREE_FROM_LOOPTRI vert_positions None None mloop looptri ;;
    ret (Some d, t)
  else ret (None, t).

(** ** Active subsets *)

(** The loop of [loose_verts_map_get] over the edges. *)
Fixpoint loose_verts_loop (edges : list MEdge) (loose_verts_mask : BitVector)
    (num_linked_verts : Z) : res (BitVector * Z) :=
  match edges with
  | [] => Ok (loose_verts_mask, num_linked_verts)
  | edge :: rest =>
      b1 ← at_index loose_verts_mask (e_v1 edge);
      let '(loose_verts_mask, num_linked_verts) :=
        if b1 : bool
        then (<[e_v1 edge := false]> loose_verts_mask, (num_linked_verts + 1)%Z)
        else (loose_verts_mask, num_linked_verts) in
      b2 ← at_index loose_verts_mask (e_v2 edge);
      let '(loose_verts_mask, num_linked_verts) :=
        if b2 : bool
        then (<[e_v2 edge := false]> loose_verts_mask, (num_linked_verts + 1)%Z)
        else (loose_verts_mask, num_linked_verts) in
      loose_verts_loop rest loose_verts_mask num_linked_verts
  end.

(** [loose_verts_map_get]: the mask and [*r_loose_vert_num].  A bit vector
    has no negative size. *)
Definition loose_verts_map_get (edges : list MEdge) (verts_num : Z)
  : res (BitVector * Z) :=
  if (verts_num <? 0)%Z then Err AssertFail
  else
    r ← loose_verts_loop edges (replicate (Z.to_nat verts_num) true) 0%Z;
    mret (r.1, (verts_num - r.2)%Z).

Definition loose_edges_map_get (mesh : Mesh) : BitVector * Z :=
  (is_loose_bits (loose_edges mesh), count (loose_edges mesh)).

(** The inner loop of [looptri_no_hidden_map_get]: [triangles_num] bits
    are set from [looptri_index] on. *)
Fixpoint looptri_set_run (triangles_num : nat) (looptri_mask : BitVector)
    (looptri_index looptri_no_hidden_len : Z) : res (BitVector * Z * Z) :=
  match triangles_num with
  | O => Ok (looptri_mask, looptri_index, looptri_no_hidden_len)
  | S n =>
      if (0 <=? looptri_index)%Z && (looptri_index <? Z.of_nat (length looptri_mask))%Z
      then looptri_set_run n (<[Z.to_nat looptri_index := true]> looptri_mask)
                           (looptri_index + 1)%Z (looptri_no_hidden_len + 1)%Z
      else Err OutOfBounds
  end.

(** The loop over the polygons, [i] being the index of the first of
    [polys]. *)
Fixpoint looptri_no_hidden_loop (polys : list MPoly) (i : nat) (hide_poly : VArray bool)
    (looptri_mask : BitVector) (looptri_index looptri_no_hidden_len : Z)
  : res (BitVector * Z) :=
  match polys with
  | [] => Ok (looptri_mask, looptri_no_hidden_len)
  | p :: rest =>
      let triangles_num := ME_POLY_TRI_TOT p in
      hidden ← VArray_get hide_poly i;
      if hidden : bool then
        looptri_no_hidden_loop rest (S i) hide_poly looptri_mask
                               (looptri_index + triangles_num)%Z looptri_no_hidden_len
      else if (triangles_num <? 0)%Z then Err AssertFail   (* [IndexRange] of a negative size *)
      else
        r ← looptri_set_run (Z.to_nat triangles_num) looptri_mask
                            looptri_index looptri_no_hidden_len;
        looptri_no_hidden_loop rest (S i) hide_poly r.1.1 r.1.2 r.2
  end.

(** [looptri_no_hidden_map_get]: the mask and [*r_looptri_active_len], which
    is left as it was when the empty mask is returned. *)
Definition looptri_no_hidden_map_get (polys : list MPoly) (hide_poly : VArray bool)
    (looptri_len : Z) (r_looptri_active_len : Z) : res (BitVector * Z) :=
  all_visible ← (if VArray_is_single hide_poly then
                   single ← VArray_get_internal_single hide_poly;
                   mret (negb single)
                 else mret false);
  if all_visible : bool then Ok ([], r_looptri_active_len)
  else if (looptri_len <? 0)%Z then Err AssertFail
  else
    looptri_no_hidden_loop polys 0 hide_poly
                           (replicate (Z.to_nat looptri_len) false) 0%Z 0%Z.

(** ** Acquisition *)

Definition fm_set_tree (t : BVHTreeP) (d : BVHTreeFromMesh) : BVHTreeFromMesh :=
  {| fm_tree := t; fm_nearest_callback := fm_nearest_callback d;
     fm_raycast_callback := fm_raycast_callback d;
     fm_vert_positions := fm_vert_positions d; fm_edge := fm_edge d;
     fm_face := fm_face d; fm_loop := fm_loop d; fm_looptri := fm_looptri d;
     fm_cached := fm_cached d |}.

Definition fm_set_cached (c : bool) (d : BVHTreeFromMesh) : BVHTreeFromMesh :=
  {| fm_tree := fm_tree d; fm_nearest_callback := fm_nearest_callback d;
     fm_raycast_callback := fm_raycast_callback d;
     fm_vert_positions := fm_vert_positions d; fm_edge := fm_edge d;
     fm_face := fm_face d; fm_loop := fm_loop d; fm_looptri := fm_looptri d;
     fm_cached := c |}.

Definition fem_set_tree (t : BVHTreeP) (d : BVHTreeFromEditMesh) : BVHTreeFromEditMesh :=
  {| fem_tree := t; fem_nearest_callback := fem_nearest_callback d;
     fem_raycast_callback := fem_raycast_callback d; fem_em := fem_em d;
     fem_cached := fem_cached d |}.

Definition fem_set_cached (c : bool) (d : BVHTreeFromEditMesh) : BVHTreeFromEditMesh :=
  {| fem_tree := fem_tree d; fem_nearest_callback := fem_nearest_callback d;
     fem_raycast_callback := fem_raycast_callback d; fem_em := fem_em d;
     fem_cached := c |}.

(** [BKE_bvhtree_from_mesh_get]: the bundle [*data] and the tree returned. *)
Definition BKE_bvhtree_from_mesh_get
    (mesh : Mesh) (bvh_cache_type : BVHCacheType) (tree_type : Z)
  : M (BVHTreeFromMesh * BVHTreeP) :=
  let looptris :=
    match bvh_cache_type with
    | BVHTREE_FROM_LOOPTRI | BVHTREE_FROM_LOOPTRI_NO_HIDDEN => looptris mesh
    | _ => []
    end in
  let positions := span_data (vert_positions mesh) in
  let edges := edges mesh in
  let loops := loops mesh in
  (* Setup BVHTreeFromMesh *)
  data <- bvhtree_from_mesh_setup_data
            None bvh_cache_type positions (span_data edges) (mface mesh)
            (span_data loops) looptris ;;
  r <- bvhcache_find bvh_cache_type (fm_tree data) true ;;
  let lock_started := r.2 in
  let data := fm_set_cached r.1.1 (fm_set_tree r.1.2 data) in
  if fm_cached data then
    BLI_assert (negb lock_started) ;;
    (* NOTE: [data->tree] can be nullptr. *)
    ret (data, fm_tree data)
  else
    (* Create BVHTree. *)
    t <- match bvh_cache_type with
         | BVHTREE_FROM_LOOSEVERTS =>
             m <- lift (loose_verts_map_get edges (totvert mesh)) ;;
             bvhtree_from_mesh_verts_create_tree
               F32.zero tree_type 6 positions (totvert mesh) m.1 m.2
         | BVHTREE_FROM_VERTS =>
             bvhtree_from_mesh_verts_create_tree
               F32.zero tree_type 6 positions (totvert mesh) [] (-1)
         | BVHTREE_FROM_LOOSEEDGES =>
             let m := loose_edges_map_get mesh in
             bvhtree_from_mesh_edges_create_tree
               positions (span_data edges) (totedge mesh) m.1 m.2 F32.zero tree_type 6
         | BVHTREE_FROM_EDGES =>
             bvhtree_from_mesh_edges_create_tree
               positions (span_data edges) (totedge mesh) [] (-1) F32.zero tree_type 6
         | BVHTREE_FROM_FACES =>
             BLI_assert (negb ((totface mesh =? 0)%Z && negb (totpoly mesh =? 0)%Z)) ;;
             bvhtree_from_mesh_faces_create_tree
               F32.zero tree_type 6 positions (mface mesh) (totface mesh) [] (-1)
         | BVHTREE_FROM_LOOPTRI_NO_HIDDEN =>
             m <- lift (looptri_no_hidden_map_get
                          (polys mesh) (lookup_hide_poly mesh)
                          (Z.of_nat (length looptris)) (-1)) ;;
             bvhtree_from_mesh_looptri_create_tree
               F32.zero tree_type 6 positions (span_data loops) looptris m.1 m.2
         | BVHTREE_FROM_LOOPTRI =>
             bvhtree_from_mesh_looptri_create_tree
               F32.zero tree_type 6 positions (span_data loops) looptris [] (-1)
         | BVHTREE_FROM_EM_VERTS | BVHTREE_FROM_EM_EDGES | BVHTREE_FROM_EM_LOOPTRI
         | BVHTREE_MAX_ITEM =>
             BLI_assert false ;;
             ret (fm_tree data)
         end ;;
    let data := fm_set_tree t data in
    bvhtree_balance (fm_tree data) lock_started ;;
    (* Save on cache for later use *)
    BLI_assert (negb (fm_cached data)) ;;
    let data := fm_set_cached true data in
    bvhcache_insert (fm_tree data) bvh_cache_type ;;
    bvhcache_unlock lock_started ;;
    ret (data, fm_tree data).

(** [BKE_bvhtree_from_editmesh_get]: [bvh_cache_p] tells whether the caller
    passed a cache pointer; without one the tree is built for the caller
    alone. *)
Definition BKE_bvhtree_from_editmesh_get
    (em : BMEditMesh) (tree_type : Z) (bvh_cache_type : BVHCacheType)
    (bvh_cache_p : bool)
  : M (BVHTreeFromEditMesh * BVHTreeP) :=
  data <- bvhtree_from_editmesh_setup_data None bvh_cache_type em ;;
  r <- (if bvh_cache_p then bvhcache_find bvh_cache_type (fem_tree data) true
        else ret (fem_cached data, fem_tree data, false)) ;;
  let lock_started := r.2 in
  let data := fem_set_cached r.1.1 (fem_set_tree r.1.2 data) in
  if bvh_cache_p && fem_cached data then
    BLI_assert (negb lock_started) ;;
    ret (data, fem_tree data)
  else
    t <- match bvh_cache_type with
         | BVHTREE_FROM_EM_VERTS =>
             bvhtree_from_editmesh_verts_create_tree F32.zero tree_type 6 em [] (-1)
         | BVHTREE_FROM_EM_EDGES =>
             bvhtree_from_editmesh_edges_create_tree F32.zero tree_type 6 em [] (-1)
         | BVHTREE_FROM_EM_LOOPTRI =>
             bvhtree_from_editmesh_looptri_create_tree F32.zero tree_type 6 em [] (-1)
         | BVHTREE_FROM_VERTS | BVHTREE_FROM_EDGES | BVHTREE_FROM_FACES
         | BVHTREE_FROM_LOOPTRI | BVHTREE_FROM_LOOPTRI_NO_HIDDEN
         | BVHTREE_FROM_LOOSEVERTS | BVHTREE_FROM_LOOSEEDGES | BVHTREE_MAX_ITEM =>
             BLI_assert false ;;
             ret (fem_tree data)
         end ;;
    let data := fem_set_tree t data in
    bvhtree_balance (fem_tree data) lock_started ;;
    if bvh_cache_p then
      (* Save on cache for later use *)
      BLI_assert (negb (fem_cached data)) ;;
      let data := fem_set_cached true data in
      bvhcache_insert (fem_tree data) bvh_cache_type ;;
      bvhcache_unlock lock_started ;;
      ret (data, fem_tree data)
    else ret (data, fem_tree data).

(** ** Release *)

(** [free_bvhtree_from_editmesh]: the bundle afterwards. *)
Definition free_bvhtree_from_editmesh (data : BVHTreeFromEditMesh)
  : M BVHTreeFromEditMesh :=
  if negb (is_null (fem_tree data)) then
    (if negb (fem_cached data) then BLI_bvhtree_free (fem_tree data) else ret tt) ;;
    ret BVHTreeFromEditMesh_zero
  else ret data.

(** [free_bvhtree_from_mesh]: the bundle afterwards. *)
Definition free_bvhtree_from_mesh (data : BVHTreeFromMesh) : M BVHTreeFromMesh :=
  (if negb (is_null (fm_tree data)) && negb (fm_cached data)
   then BLI_bvhtree_free (fm_tree data) else ret tt) ;;
  ret BVHTreeFromMesh_zero.

(** ** The operations on a cache, as a caller can issue them

    Everything the file offers that reads or writes the slot table, short of
    destroying it. *)
Inductive cache_op : Type :=
  | Op_find (type : BVHCacheType) (r_tree : BVHTreeP) (do_lock : bool)
  | Op_unlock (lock_started : bool)
  | Op_has_tree (t : BVHTreeP)
  | Op_insert (t : BVHTreeP) (type : BVHCacheType)
  | Op_mesh_get (mesh : Mesh) (type : BVHCacheType) (tree_type : Z)
  | Op_editmesh_get (em : BMEditMesh) (tree_type : Z) (type : BVHCacheType)
                    (bvh_cache_p : bool)
  | Op_free_from_mesh (data : BVHTreeFromMesh)
  | Op_free_from_editmesh (data : BVHTreeFromEditMesh).

Definition run_op (op : cache_op) : M unit :=
  match op with
  | Op_find type r_tree do_lock => bvhcache_find type r_tree do_lock ;; ret tt
  | Op_unlock lock_started => bvhcache_unlock lock_started
  | Op_has_tree t =>
      c <- gets bvh_cache ;;
      let _ := bvhcache_has_tree c t in ret tt
  | Op_insert t type => bvhcache_insert t type
  | Op_mesh_get mesh type tree_type =>
      BKE_bvhtree_from_mesh_get mesh type tree_type ;; ret tt
  | Op_editmesh_get em tree_type type bvh_cache_p =>
      BKE_bvhtree_from_editmesh_get em tree_type type bvh_cache_p ;; ret tt
  | Op_free_from_mesh data => free_bvhtree_from_mesh data ;; ret tt
  | Op_free_from_editmesh data => free_bvhtree_from_editmesh data ;; ret tt
  end.

(** The states a run of operations goes through, the first one included;
    the run stops at the first operation that fails. *)
Fixpoint run_trace (ops : list cache_op) (st : State) : list State :=
  st :: match ops with
        | [] => []
        | op :: ops' =>
            match run_op op st with
            | Ok (_, st') => run_trace ops' st'
            | Err _ => []
            end
        end.

(** Slot [type] of the cache of [st] is filled. *)
Definition slot_filled (type : BVHCacheType) (st : State) : bool :=
  match bvh_cache st with
  | Some c =>
      match items c !! BVHCacheType_index type with
      | Some item => is_filled item
      | None => false
      end
  | None => false
  end.

(** The number of steps of a run at which slot [type] goes from empty to
    filled. *)
Fixpoint fill_transitions (type : BVHCacheType) (trace : list State) : nat :=
  match trace with
  | st :: ((st' :: _) as rest) =>
      (if negb (slot_filled type st) && slot_filled type st' then 1 else 0)
      + fill_transitions type rest
  | _ => 0
  end.

(** Modelled from the spec: [destroy_cache(surface)] releases every tree of
    the cache and the cache itself.  The release is [bvhcache_free]; the
    reset of the pointer is the owner's, outside this file. *)
Definition destroy_cache : M unit :=
  c <- gets bvh_cache ;;
  match c with
  | Some c => bvhcache_free c ;; modify (set_bvh_cache None)
  | None => ret tt
  end.

(** How one step of the code can change the cache pointer and the slot
    table: the lazy creation, the mutex, and the filling of an empty slot. *)
Inductive cache_change : option BVHCache -> option BVHCache -> Prop :=
  | change_init : cache_change None (Some bvhcache_init)
  | change_mutex c b : cache_change (Some c) (Some (set_mutex b c))
  | change_fill c i it t :
      items c !! i = Some it -> is_filled it = false ->
      cache_change (Some c) (Some (set_item i {| is_filled := true; tree := t |} c)).

Definition cache_evolves (st st' : State) : Prop :=
  rtc cache_change (bvh_cache st) (bvh_cache st').

(** Slot [type] holds exactly [item]. *)
Definition slot_is (type : BVHCacheType) (item : BVHCacheItem) (st : State) : Prop :=
  exists c, bvh_cache st = Some c /\ items c !! BVHCacheType_index type = Some item.

(** Every successful run of [m] relates the state before to the state
    after. *)
Definition preserves (R : relation State) {A} (m : M A) : Prop :=
  forall st a st', m st = Ok (a, st') -> R st st'.

(** The cache pointer, the slot table and the mutexes are as before. *)
Definition cache_untouched (st st' : State) : Prop :=
  bvh_cache st' = bvh_cache st /\ eval_mutex st' = eval_mutex st.

(** A slot table as [bvhcache_init] and [bvhcache_insert] leave it: all the
    slots are there, and a slot that was never filled has no tree. *)
Definition cache_wf (c : BVHCache) : Prop :=
  length (items c) = BVHTREE_MAX_ITEM_num /\
  forall i it, items c !! i = Some it -> is_filled it = false -> tree it = None.

(** ** A small mesh and a fresh state, for examples *)

Definition v3 (x y z : Z) : V3 :=
  let f (n : Z) : float :=
    match n with
    | Zpos p => F32.of_pos p
    | _ => F32.zero
    end in
  (f x, f y, f z).

(** A strip of six vertices chained by five edges, and two triangles. *)
Definition strip_mesh : Mesh :=
  {| vert_positions := [v3 0 0 0; v3 1 0 0; v3 2 0 0; v3 3 0 0; v3 4 0 0; v3 5 0 0];
     edges := [ {| e_v1 := 0; e_v2 := 1 |}; {| e_v1 := 1; e_v2 := 2 |};
                {| e_v1 := 2; e_v2 := 3 |}; {| e_v1 := 3; e_v2 := 4 |};
                {| e_v1 := 4; e_v2 := 5 |} ];
     loops := [ {| l_v := 0; l_e := 0 |}; {| l_v := 1; l_e := 1 |}; {| l_v := 2; l_e := 2 |};
                {| l_v := 3; l_e := 3 |}; {| l_v := 4; l_e := 4 |}; {| l_v := 5; l_e := 0 |} ];
     polys := [ {| loopstart := 0; totloop := 3 |}; {| loopstart := 3; totloop := 3 |} ];
     looptris := [ {| tri := (0, 1, 2); poly := 0 |}; {| tri := (3, 4, 5); poly := 1 |} ];
     mface := None;
     totvert := 6; totedge := 5; totface := 0; totpoly := 2;
     hide_poly_attribute := None;
     loose_edges := {| is_loose_bits := [false; true; false; true; false]; count := 2 |} |}.

(** No hierarchy yet, no cache yet, no allocation about to fail. *)
Definition fresh_state : State :=
  {| heap := ∅; alloc_failures := []; n_new := 0; n_insert := 0;
     bvh_cache := None; eval_mutex := false |}.

(** ** The update rule of the ray-cast callbacks, for stating it *)

Section HitRule.
Context `{BLI_math}.

(** The distance a callback computes for a triangle, [best] being
    [hit->dist] at that moment. *)
Definition ray_tri_distance (ray : BVHTreeRay) (best : float) (t0 t1 t2 : V3) : float :=
  if F32.eqb (radius ray) F32.zero
  then bvhtree_ray_tri_intersection ray best t0 t1 t2
  else bvhtree_sphereray_tri_intersection ray (radius ray) best t0 t1 t2.

(** The hit record once overwritten for triangle [index] at distance
    [dist]. *)
Definition hit_overwritten (index : nat) (ray : BVHTreeRay) (t0 t1 t2 : V3)
    (dist : float) : BVHTreeRayHit :=
  {| hit_index := Z.of_nat index;
     hit_dist := dist;
     hit_co := madd_v3_v3v3fl (origin ray) (direction ray) dist;
     hit_no := normal_tri_v3 t0 t1 t2 |}.

(** [dist] is non-negative and strictly less than the current best. *)
Definition closer (dist : float) (hit : BVHTreeRayHit) : Prop :=
  SFleb F32.zero dist = true /\ SFltb dist (hit_dist hit) = true.

(** [hit'] is [hit] after the callback has looked at one triangle. *)
Definition hit_rule (index : nat) (ray : BVHTreeRay) (t0 t1 t2 : V3)
    (hit hit' : BVHTreeRayHit) : Prop :=
  let dist := ray_tri_distance ray (hit_dist hit) t0 t1 t2 in
  (closer dist hit -> hit' = hit_overwritten index ray t0 t1 t2 dist)
  /\ (~ closer dist hit -> hit' = hit).
End HitRule.

(** A stand-in for the geometry, for examples: every ray meets every
    triangle at distance 1, and every sweep at half its length. *)
Definition unit_hit_math : BLI_math :=
  {| isect_ray_tri := fun _ _ _ _ => Some (F32.of_pos 1);
     isect_sweeping_sphere_tri_v3 := fun _ _ _ _ _ _ =>
       Some (S754_finite false 8388608 (-24));
     madd_v3_v3v3fl := fun a _ _ => a;
     normal_tri_v3 := fun _ _ _ => (F32.zero, F32.zero, F32.of_pos 1) |}.

(** ** Active subsets, for stating what the masks are *)

(** The vertices some edge has as an endpoint. *)
Definition edge_touched (edges : list MEdge) : gset nat :=
  list_to_set (edges ≫= fun e => [e_v1 e; e_v2 e]).

(** The number of bits of a mask that are set. *)
Definition active_bits (mask : BitVector) : nat :=
  length (filter (fun b => b = true) mask).

(** Candidate [i] is active under [mask]: an empty mask takes every
    candidate. *)
Definition active (mask : BitVector) (i : nat) : bool :=
  match mask with
  | [] => true
  | _ => default false (mask !! i)
  end.

(** The state of the loop of [loose_verts_map_get] once the endpoints in
    [T] have been visited. *)
Definition loose_inv (verts_num : nat) (mask : BitVector) (n : Z) (T : gset nat) : Prop :=
  length mask = verts_num
  /\ (forall i, i < verts_num -> mask !! i = Some (bool_decide (i ∉ T)))
  /\ n = Z.of_nat (size T)
  /\ active_bits mask + size T = verts_num.

Definition VArray_size {A} (v : VArray A) : nat :=
  match v with
  | VArray_Single _ n => n
  | VArray_Span l => length l
  end.

(** The elements of a virtual array, one per index. *)
Definition VArray_to_list {A} (v : VArray A) : list A :=
  match v with
  | VArray_Single x n => replicate n x
  | VArray_Span l => l
  end.

(** The bits of the triangles of [polys], polygon after polygon in
    tessellation order: the triangles of a polygon are set when the
    polygon is not hidden. *)
Fixpoint no_hidden_bits (polys : list MPoly) (hidden : list bool) : list bool :=
  match polys, hidden with
  | p :: ps, h :: hs =>
      replicate (Z.to_nat (ME_POLY_TRI_TOT p)) (negb h) ++ no_hidden_bits ps hs
  | _, _ => []
  end.

(** C7 as stated: a visibility lookup that is false everywhere gives no
    mask, whichever way the attribute is stored. *)
Definition no_mask_when_nothing_hidden : Prop :=
  forall polys hide_poly looptri_len r,
    (forall i, i < length polys -> VArray_get hide_poly i = Ok false) ->
    exists n, looptri_no_hidden_map_get polys hide_poly looptri_len r = Ok ([], n).

(** ** The builders, as one family *)

Inductive builder : Type :=
  | Build_editmesh_verts (em : BMEditMesh)
  | Build_mesh_verts (positions : option (list V3)) (verts_num : Z)
  | Build_editmesh_edges (em : BMEditMesh)
  | Build_mesh_edges (positions : option (list V3)) (edge : option (list MEdge))
                     (edge_num : Z)
  | Build_mesh_faces (positions : option (list V3)) (face : option (list MFace))
                     (faces_num : Z)
  | Build_editmesh_looptri (em : BMEditMesh)
  | Build_mesh_looptri (positions : option (list V3)) (mloop : option (list MLoop))
                       (looptris : list MLoopTri).

Definition run_builder (b : builder) (epsilon : float) (tree_type axis : Z)
    (mask : BitVector) (num_active : Z) : M BVHTreeP :=
  match b with
  | Build_editmesh_verts em =>
      bvhtree_from_editmesh_verts_create_tree epsilon tree_type axis em mask num_active
  | Build_mesh_verts positions verts_num =>
      bvhtree_from_mesh_verts_create_tree
        epsilon tree_type axis positions verts_num mask num_active
  | Build_editmesh_edges em =>
      bvhtree_from_editmesh_edges_create_tree epsilon tree_type axis em mask num_active
  | Build_mesh_edges positions edge edge_num =>
      bvhtree_from_mesh_edges_create_tree
        positions edge edge_num mask num_active epsilon tree_type axis
  | Build_mesh_faces positions face faces_num =>
      bvhtree_from_mesh_faces_create_tree
        epsilon tree_type axis positions face faces_num mask num_active
  | Build_editmesh_looptri em =>
      bvhtree_from_editmesh_looptri_create_tree epsilon tree_type axis em mask num_active
  | Build_mesh_looptri positions mloop looptris =>
      bvhtree_from_mesh_looptri_create_tree
        epsilon tree_type axis positions mloop looptris mask num_active
  end.

(** The number of candidates a builder goes through. *)
Definition candidates (b : builder) : Z :=
  match b with
  | Build_editmesh_verts em => bm_totvert (bm em)
  | Build_mesh_verts _ verts_num => verts_num
  | Build_editmesh_edges em => bm_totedge (bm em)
  | Build_mesh_edges _ _ edge_num => edge_num
  | Build_mesh_faces _ _ faces_num => faces_num
  | Build_editmesh_looptri em => em_tottri em
  | Build_mesh_looptri _ _ looptris => Z.of_nat (length looptris)
  end.

(** The two builders that skip their loop when an array is missing are given
    their arrays. *)
Definition arrays_present (b : builder) : Prop :=
  match b with
  | Build_mesh_faces positions face _ => is_null positions = false /\ is_null face = false
  | Build_mesh_looptri positions _ _ => is_null positions = false
  | _ => True
  end.

(** The active count a builder resolves: the count that comes with the mask,
    or the number of candidates when there is no mask. *)
Definition resolved_active (b : builder) (mask : BitVector) (num_active : Z) : Z :=
  if BitSpan_is_empty mask then candidates b else num_active.

(** The indices of the primitives of a hierarchy, in insertion order. *)
Definition inserted_indices (tr : BVHTree) : list Z := (bt_leaves tr).*1.

(** What one turn of a builder's loop does to the hierarchy at [t]:
    candidate [i] is inserted, under its own index, when it is active. *)
Definition inserts_at (t : nat) (mask : BitVector) (i : nat) (st st' : State) : Prop :=
  n_insert st' = n_insert st + (if active mask i then 1 else 0)
  /\ forall tr, heap st !! t = Some tr ->
       exists tr',
         heap st' !! t = Some tr'
         /\ inserted_indices tr'
            = inserted_indices tr ++ (if active mask i then [Z.of_nat i] else []).

(** An edit mesh with nothing in it. *)
Definition empty_editmesh : BMEditMesh :=
  {| bm := {| vtable := []; etable := [] |}; em_looptris := [] |}.

(** ** What a builder does to the heap, for stating it *)

(** Two hierarchies with the same parameters and the same balancing state;
    the primitives may differ. *)
Definition same_config (tr tr' : BVHTree) : Prop :=
  bt_maxsize tr' = bt_maxsize tr /\ bt_epsilon tr' = bt_epsilon tr
  /\ bt_tree_type tr' = bt_tree_type tr /\ bt_axis tr' = bt_axis tr
  /\ bt_balanced tr' = bt_balanced tr.

(** Between [st] and [st'] nothing but the primitives of the hierarchy at
    [t] has changed, the insertion counter apart. *)
Definition tree_kept (t : nat) (st st' : State) : Prop :=
  cache_untouched st st' /\ n_new st' = n_new st
  /\ alloc_failures st' = alloc_failures st
  /\ (forall a, a <> t -> heap st' !! a = heap st !! a)
  /\ (forall tr, heap st !! t = Some tr ->
        exists tr', heap st' !! t = Some tr' /\ same_config tr tr').

(** The builders that end on [BLI_assert(BLI_bvhtree_get_len(tree) == ...)]:
    all but the one of the edges of a mesh. *)
Definition has_closing_assert (b : builder) : bool :=
  match b with
  | Build_mesh_edges _ _ _ => false
  | _ => true
  end.

(** The cache the pointer designates, or the one the lazy creation makes. *)
Definition cache_or_init (st : State) : BVHCache :=
  default bvhcache_init (bvh_cache st).

(** What a builder that returns the hierarchy at [t] has done: [t] was not
    live, the other hierarchies are as they were, one allocation was made
    and succeeded, and the hierarchy at [t] has the parameters asked for, is
    not balanced and, where the builder ends on its assertion, has as many
    primitives as the active count resolved. *)
Definition built (b : builder) (epsilon : float) (tree_type axis : Z)
    (mask : BitVector) (num_active : Z) (st : State) (t : nat) (st' : State) : Prop :=
  heap st !! t = None
  /\ (forall a, a <> t -> heap st' !! a = heap st !! a)
  /\ n_new st' = S (n_new st)
  /\ alloc_failures st' = tail (alloc_failures st)
  /\ head (alloc_failures st) <> Some true
  /\ cache_untouched st st'
  /\ exists tr,
       heap st' !! t = Some tr
       /\ same_config (empty_tree (resolved_active b mask num_active)
                                  epsilon (char_of_int tree_type) (char_of_int axis)) tr
       /\ (has_closing_assert b = true ->
           Z.of_nat (length (bt_leaves tr)) = resolved_active b mask num_active).

(** What a builder that returns null has done: nothing, or one allocation
    that failed. *)
Definition not_built (st st' : State) : Prop :=
  st' = st
  \/ (head (alloc_failures st) = Some true
      /\ st' = set_counts (tail (alloc_failures st)) (S (n_new st)) (n_insert st) st).

(** The [switch] of [BKE_bvhtree_from_mesh_get] that builds the tree of a
    variant, [data_tree] being [data->tree] at that point. *)
Definition mesh_build (mesh : Mesh) (bvh_cache_type : BVHCacheType) (tree_type : Z)
    (data_tree : BVHTreeP) : M BVHTreeP :=
  let looptris :=
    match bvh_cache_type with
    | BVHTREE_FROM_LOOPTRI | BVHTREE_FROM_LOOPTRI_NO_HIDDEN => looptris mesh
    | _ => []
    end in
  let positions := span_data (vert_positions mesh) in
  let edges := edges mesh in
  let loops := loops mesh in
  match bvh_cache_type with
  | BVHTREE_FROM_LOOSEVERTS =>
      m <- lift (loose_verts_map_get edges (totvert mesh)) ;;
      bvhtree_from_mesh_verts_create_tree
        F32.zero tree_type 6 positions (totvert mesh) m.1 m.2
  | BVHTREE_FROM_VERTS =>
      bvhtree_from_mesh_verts_create_tree
        F32.zero tree_type 6 positions (totvert mesh) [] (-1)
  | BVHTREE_FROM_LOOSEEDGES =>
      let m := loose_edges_map_get mesh in
      bvhtree_from_mesh_edges_create_tree
        positions (span_data edges) (totedge mesh) m.1 m.2 F32.zero tree_type 6
  | BVHTREE_FROM_EDGES =>
      bvhtree_from_mesh_edges_create_tree
        positions (span_data edges) (totedge mesh) [] (-1) F32.zero tree_type 6
  | BVHTREE_FROM_FACES =>
      BLI_assert (negb ((totface mesh =? 0)%Z && negb (totpoly mesh =? 0)%Z)) ;;
      bvhtree_from_mesh_faces_create_tree
        F32.zero tree_type 6 positions (mface mesh) (totface mesh) [] (-1)
  | BVHTREE_FROM_LOOPTRI_NO_HIDDEN =>
      m <- lift (looptri_no_hidden_map_get
                   (polys mesh) (lookup_hide_poly mesh)
                   (Z.of_nat (length looptris)) (-1)) ;;
      bvhtree_from_mesh_looptri_create_tree
        F32.zero tree_type 6 positions (span_data loops) looptris m.1 m.2
  | BVHTREE_FROM_LOOPTRI =>
      bvhtree_from_mesh_looptri_create_tree
        F32.zero tree_type 6 positions (span_data loops) looptris [] (-1)
  | BVHTREE_FROM_EM_VERTS | BVHTREE_FROM_EM_EDGES | BVHTREE_FROM_EM_LOOPTRI
  | BVHTREE_MAX_ITEM =>
      BLI_assert false ;;
      ret data_tree
  end.

(** The [switch] of [BKE_bvhtree_from_editmesh_get]. *)
Definition editmesh_build (em : BMEditMesh) (bvh_cache_type : BVHCacheType)
    (tree_type : Z) (data_tree : BVHTreeP) : M BVHTreeP :=
  match bvh_cache_type with
  | BVHTREE_FROM_EM_VERTS =>
      bvhtree_from_editmesh_verts_create_tree F32.zero tree_type 6 em [] (-1)
  | BVHTREE_FROM_EM_EDGES =>
      bvhtree_from_editmesh_edges_create_tree F32.zero tree_type 6 em [] (-1)
  | BVHTREE_FROM_EM_LOOPTRI =>
      bvhtree_from_editmesh_looptri_create_tree F32.zero tree_type 6 em [] (-1)
  | BVHTREE_FROM_VERTS | BVHTREE_FROM_EDGES | BVHTREE_FROM_FACES
  | BVHTREE_FROM_LOOPTRI | BVHTREE_FROM_LOOPTRI_NO_HIDDEN
  | BVHTREE_FROM_LOOSEVERTS | BVHTREE_FROM_LOOSEEDGES | BVHTREE_MAX_ITEM =>
      BLI_assert false ;;
      ret data_tree
  end.

(** The state once the tree [t], built and balanced in [st3], has been put
    in slot [type] of the cache [c0] and the mutex released. *)
Definition cached_in (type : BVHCacheType) (t : BVHTreeP) (c0 : BVHCache) (st3 : State)
  : State :=
  set_bvh_cache
    (Some (set_item (BVHCacheType_index type) {| is_filled := true; tree := t |} c0)) st3.

(** The state in which the tree of a missing variant is built: the cache
    exists and its mutex is held. *)
Definition locked_for_build (st : State) : State :=
  set_bvh_cache (Some (set_mutex true (cache_or_init st))) st.

(** A state in which the next allocation of a hierarchy fails and the one
    after succeeds. *)
Definition failing_state : State :=
  {| heap := ∅; alloc_failures := [true]; n_new := 0; n_insert := 0;
     bvh_cache := None; eval_mutex := false |}.

(** The loop triangles of the polygons of [mesh] that are not hidden, as
    the polygons and the hidden flags give them: triangle [i] is one of
    them when the bit of its polygon's run is set. *)
Definition visible_looptris (mesh : Mesh) : list nat :=
  filter (fun i => no_hidden_bits (polys mesh) (VArray_to_list (lookup_hide_poly mesh)) !! i
                   = Some true)
         (seq 0 (length (looptris mesh))).

(** A mesh with a hidden quad and a visible triangle. *)
Definition hidden_quad_mesh : Mesh :=
  {| vert_positions := [v3 0 0 0; v3 1 0 0; v3 1 1 0; v3 0 1 0; v3 2 0 0; v3 2 1 0];
     edges := [];
     loops := [ {| l_v := 0; l_e := 0 |}; {| l_v := 1; l_e := 0 |}; {| l_v := 2; l_e := 0 |};
                {| l_v := 3; l_e := 0 |}; {| l_v := 1; l_e := 0 |}; {| l_v := 4; l_e := 0 |};
                {| l_v := 5; l_e := 0 |} ];
     polys := [ {| loopstart := 0; totloop := 4 |}; {| loopstart := 4; totloop := 3 |} ];
     looptris := [ {| tri := (0, 1, 2); poly := 0 |}; {| tri := (0, 2, 3); poly := 0 |};
                   {| tri := (4, 5, 6); poly := 1 |} ];
     mface := None;
     totvert := 6; totedge := 0; totface := 0; totpoly := 2;
     hide_poly_attribute := Some [true; false];
     loose_edges := {| is_loose_bits := []; count := 0 |} |}.

(** The number of elements of the edit mesh that a variant indexes; the
    variants of a mesh index none of it. *)
Definition editmesh_elements (em : BMEditMesh) (type : BVHCacheType) : Z :=
  match type with
  | BVHTREE_FROM_EM_VERTS => bm_totvert (bm em)
  | BVHTREE_FROM_EM_EDGES => bm_totedge (bm em)
  | BVHTREE_FROM_EM_LOOPTRI => em_tottri em
  | _ => 0
  end.

(** An edit mesh of one triangle. *)
Definition triangle_editmesh : BMEditMesh :=
  let a := {| co := v3 0 0 0 |} in
  let b := {| co := v3 1 0 0 |} in
  let c := {| co := v3 0 1 0 |} in
  {| bm := {| vtable := [a; b; c];
              etable := [ {| bm_v1 := a; bm_v2 := b |}; {| bm_v1 := b; bm_v2 := c |};
                          {| bm_v1 := c; bm_v2 := a |} ] |};
     em_looptris := [ ({| bl_v := a |}, {| bl_v := b |}, {| bl_v := c |}) ] |}.

(** ** The nearest-point callbacks, and the ray-cast callbacks of points and
    edges *)

(** [BVHTreeNearest] of [BLI_kdopbvh.h]: the fields the callbacks use. *)
Record BVHTreeNearest : Type := {
  near_index : Z;
  near_co : V3;
  near_no : V3;
  near_dist_sq : float;
}.

(** The vector routines of [BLI_math] these callbacks call; as for the
    intersection routines, the callbacks are stated for any implementation
    of them.  [isect_line_line_v3] gives the two points it writes when it
    returns non-zero. *)
Class BLI_math_vector : Type := {
  closest_on_tri_to_point_v3 : V3 -> V3 -> V3 -> V3 -> V3;
  closest_to_line_segment_v3 : V3 -> V3 -> V3 -> V3;
  len_squared_v3v3 : V3 -> V3 -> float;
  len_v3v3 : V3 -> V3 -> float;
  add_v3_v3v3 : V3 -> V3 -> V3;
  sub_v3_v3v3 : V3 -> V3 -> V3;
  normalize_v3 : V3 -> V3;
  dot_v3v3v3 : V3 -> V3 -> V3 -> float;
  equals_v3v3 : V3 -> V3 -> bool;
  isect_line_line_v3 : V3 -> V3 -> V3 -> V3 -> option (V3 * V3);
  line_point_factor_v3 : V3 -> V3 -> V3 -> float;
  square_f : float -> float;
}.

Section PointCallbacks.
Context `{BLI_math} `{BLI_math_vector}.

(** The body the nearest-point callbacks over triangles share. *)
Definition nearest_tri_step (index : nat) (co_ : V3) (t0 t1 t2 : V3)
    (nearest : BVHTreeNearest) : BVHTreeNearest :=
  let nearest_tmp := closest_on_tri_to_point_v3 co_ t0 t1 t2 in
  let dist_sq := len_squared_v3v3 co_ nearest_tmp in
  if F32.ltb dist_sq (near_dist_sq nearest) then
    {| near_index := Z.of_nat index;
       near_dist_sq := dist_sq;
       near_co := nearest_tmp;
       near_no := normal_tri_v3 t0 t1 t2 |}
  else nearest.

(** [mesh_faces_nearest_point]: the [do ... while (t2)] loop as in
    [mesh_faces_spherecast]. *)
Definition mesh_faces_nearest_point
    (data : BVHTreeFromMesh) (index : nat) (co_ : V3) (nearest : BVHTreeNearest)
  : res BVHTreeNearest :=
  c ← mesh_faces_corners data index;
  let '(t0, t1, t2, t3) := c in
  let nearest := nearest_tri_step index co_ t0 t1 t2 nearest in
  match t3 with
  | Some t3 => mret (nearest_tri_step index co_ t0 t2 t3 nearest)
  | None => mret nearest
  end.

(** [mesh_looptri_nearest_point]. *)
Definition mesh_looptri_nearest_point
    (data : BVHTreeFromMesh) (index : nat) (co_ : V3) (nearest : BVHTreeNearest)
  : res BVHTreeNearest :=
  vtri_co ← mesh_looptri_vtri_co data index;
  let '(t0, t1, t2) := vtri_co in
  mret (nearest_tri_step index co_ t0 t1 t2 nearest).

(** [editmesh_looptri_nearest_point]. *)
Definition editmesh_looptri_nearest_point
    (data : BVHTreeFromEditMesh) (index : nat) (co_ : V3) (nearest : BVHTreeNearest)
  : res BVHTreeNearest :=
  c ← editmesh_looptri_corners data index;
  let '(t0, t1, t2) := c in
  mret (nearest_tri_step index co_ t0 t1 t2 nearest).

(** The ends of edge [index]. *)
Definition mesh_edge_ends (data : BVHTreeFromMesh) (index : nat) : res (V3 * V3) :=
  edge ← at_ptr (fm_edge data) index;
  t0 ← at_ptr (fm_vert_positions data) (e_v1 edge);
  t1 ← at_ptr (fm_vert_positions data) (e_v2 edge);
  mret (t0, t1).

(** [mesh_edges_nearest_point]. *)
Definition mesh_edges_nearest_point
    (data : BVHTreeFromMesh) (index : nat) (co_ : V3) (nearest : BVHTreeNearest)
  : res BVHTreeNearest :=
  ends ← mesh_edge_ends data index;
  let '(t0, t1) := ends in
  let nearest_tmp := closest_to_line_segment_v3 co_ t0 t1 in
  let dist_sq := len_squared_v3v3 nearest_tmp co_ in
  if F32.ltb dist_sq (near_dist_sq nearest) then
    mret {| near_index := Z.of_nat index;
            near_dist_sq := dist_sq;
            near_co := nearest_tmp;
            near_no := normalize_v3 (sub_v3_v3v3 t0 t1) |}
  else mret nearest.

(** [mesh_verts_spherecast_do]: the normal of the hit is not written. *)
Definition mesh_verts_spherecast_do
    (index : nat) (v : V3) (ray : BVHTreeRay) (hit : BVHTreeRayHit) : BVHTreeRayHit :=
  let r1 := origin ray in
  let r2 := add_v3_v3v3 r1 (direction ray) in
  let i1 := closest_to_line_segment_v3 v r1 r2 in
  (* No hit if closest point is 'behind' the origin of the ray, or too far
     away from it. *)
  if F32.geb (dot_v3v3v3 r1 i1 r2) F32.zero && F32.ltb (len_v3v3 r1 i1) (hit_dist hit) then
    {| hit_index := Z.of_nat index;
       hit_dist := len_v3v3 r1 i1;
       hit_co := i1;
       hit_no := hit_no hit |}
  else hit.

(** [editmesh_verts_spherecast]: [BM_vert_at_index] reads the vertex
    table. *)
Definition editmesh_verts_spherecast
    (data : BVHTreeFromEditMesh) (index : nat) (ray : BVHTreeRay) (hit : BVHTreeRayHit)
  : res BVHTreeRayHit :=
  match fem_em data with
  | None => Err NullDeref
  | Some em =>
      eve ← at_index (vtable (bm em)) index;
      mret (mesh_verts_spherecast_do index (co eve) ray hit)
  end.

(** [mesh_verts_spherecast]. *)
Definition mesh_verts_spherecast
    (data : BVHTreeFromMesh) (index : nat) (ray : BVHTreeRay) (hit : BVHTreeRayHit)
  : res BVHTreeRayHit :=
  v ← at_ptr (fm_vert_positions data) index;
  mret (mesh_verts_spherecast_do index v ray hit).

(** [mesh_edges_spherecast]. *)
Definition mesh_edges_spherecast
    (data : BVHTreeFromMesh) (index : nat) (ray : BVHTreeRay) (hit : BVHTreeRayHit)
  : res BVHTreeRayHit :=
  ends ← mesh_edge_ends data index;
  let '(v1, v2) := ends in
  let radius_sq := square_f (radius ray) in
  (* In case we get a zero-length edge, handle it as a point! *)
  if equals_v3v3 v1 v2 then mret (mesh_verts_spherecast_do index v1 ray hit)
  else
    let r1 := origin ray in
    let r2 := add_v3_v3v3 r1 (direction ray) in
    match isect_line_line_v3 v1 v2 r1 r2 with
    | Some (i1, i2) =>
        (* No hit if intersection point is 'behind' the origin of the ray,
           or too far away from it. *)
        if F32.geb (dot_v3v3v3 r1 i2 r2) F32.zero && F32.ltb (len_v3v3 r1 i2) (hit_dist hit)
        then
          let dist := len_v3v3 r1 i2 in
          let e_fac := line_point_factor_v3 i1 v1 v2 in
          let i1 := if F32.ltb e_fac F32.zero then v1
                    else if F32.ltb (F32.of_pos 1) e_fac then v2
                    else i1 in
          (* Ensure ray is really close enough from edge! *)
          if F32.leb (len_squared_v3v3 i1 i2) radius_sq then
            mret {| hit_index := Z.of_nat index;
                    hit_dist := dist;
                    hit_co := i2;
                    hit_no := hit_no hit |}
          else mret hit
        else mret hit
    | None => mret hit
    end.

(** The nearest record once overwritten for element [index]. *)
Definition nearest_overwritten (index : nat) (p no : V3) (dist_sq : float)
  : BVHTreeNearest :=
  {| near_index := Z.of_nat index; near_dist_sq := dist_sq;
     near_co := p; near_no := no |}.

(** [nearest'] is [nearest] after a callback has found the point [p] of
    element [index] closest to [co_], at squared distance [dist_sq]. *)
Definition nearest_rule (index : nat) (p no : V3) (dist_sq : float)
    (nearest nearest' : BVHTreeNearest) : Prop :=
  (SFltb dist_sq (near_dist_sq nearest) = true
   -> nearest' = nearest_overwritten index p no dist_sq)
  /\ (SFltb dist_sq (near_dist_sq nearest) <> true -> nearest' = nearest).

(** The rule for a triangle. *)
Definition nearest_tri_rule (index : nat) (co_ : V3) (t0 t1 t2 : V3)
    (nearest nearest' : BVHTreeNearest) : Prop :=
  let p := closest_on_tri_to_point_v3 co_ t0 t1 t2 in
  nearest_rule index p (normal_tri_v3 t0 t1 t2) (len_squared_v3v3 co_ p) nearest nearest'.
End PointCallbacks.

(** A stand-in for the vector routines, for examples: every closest point
    is the query point moved to the first corner, at distance 1. *)
Definition unit_vector_math : BLI_math_vector :=
  {| closest_on_tri_to_point_v3 := fun _ t0 _ _ => t0;
     closest_to_line_segment_v3 := fun _ l1 _ => l1;
     len_squared_v3v3 := fun _ _ => F32.of_pos 1;
     len_v3v3 := fun _ _ => F32.of_pos 1;
     add_v3_v3v3 := fun a _ => a;
     sub_v3_v3v3 := fun a _ => a;
     normalize_v3 := fun a => a;
     dot_v3v3v3 := fun _ _ _ => F32.of_pos 1;
     equals_v3v3 := fun _ _ => false;
     isect_line_line_v3 := fun v1 _ r1 _ => Some (v1, r1);
     line_point_factor_v3 := fun _ _ _ => F32.zero;
     square_f := fun x => F32.mul x x |}.

(** The bound [d'] is [d], or strictly below it. *)
Definition tightened (d d' : float) : Prop := d' = d \/ SFltb d' d = true.

Section PointHit.
Context `{BLI_math_vector}.

(** What the ray-cast callbacks of points and edges can do to a hit
    record: nothing, or record element [index] at a distance strictly below
    the bound, which is the distance from the origin of the ray to the
    point recorded; the normal stays as it was. *)
Definition point_hit (index : nat) (ray : BVHTreeRay) (hit hit' : BVHTreeRayHit) : Prop :=
  hit' = hit
  \/ (hit_index hit' = Z.of_nat index
      /\ hit_no hit' = hit_no hit
      /\ hit_dist hit' = len_v3v3 (origin ray) (hit_co hit')
      /\ SFltb (hit_dist hit') (hit_dist hit) = true).

End PointHit.

(** ** Point clouds *)

(** Modelled from the spec: a [PointCloud] has [totpoint] points and may
    store the attribute ["position"] on them; [lookup_or_default] gives the
    stored values, or the default [float3(0)] for every point. *)
Record PointCloud : Type := {
  totpoint : Z;
  position_attribute : option (list V3);
}.

Definition pointcloud_positions (pointcloud : PointCloud) : list V3 :=
  match position_attribute pointcloud with
  | Some l => l
  | None => replicate (Z.to_nat (totpoint pointcloud)) (F32.zero, F32.zero, F32.zero)
  end.

(** What [data->coords] points to once the function has returned. *)
Inductive CoordsPtr : Type :=
  | Coords_null
  | Coords_attribute (l : list V3)   (* the array of the stored attribute *)
  | Coords_dangling.                 (* a buffer that has been destroyed *)

(** Modelled from the spec: the [VArraySpan] named [positions] points into
    the array of the attribute when the attribute is stored; for the
    default of an attribute that is not stored it owns a buffer filled with
    that value, and the buffer is destroyed with [positions] when the
    function returns.  [positions.data()] is what is left in
    [data->coords]. *)
Definition pointcloud_coords (pointcloud : PointCloud) : CoordsPtr :=
  match position_attribute pointcloud with
  | Some [] => Coords_null
  | Some l => Coords_attribute l
  | None => Coords_dangling
  end.

Record BVHTreeFromPointCloud : Type := {
  pc_tree : BVHTreeP;
  pc_nearest_callback : option BVHTree_NearestPointCallback;
  pc_coords : CoordsPtr;
}.

Definition BVHTreeFromPointCloud_zero : BVHTreeFromPointCloud :=
  {| pc_tree := None; pc_nearest_callback := None; pc_coords := Coords_null |}.

(** [BKE_bvhtree_from_pointcloud_get]: the bundle [*data] afterwards and the
    tree returned.  The bundle is left as it was when the allocation
    fails. *)
Definition BKE_bvhtree_from_pointcloud_get
    (data : BVHTreeFromPointCloud) (pointcloud : PointCloud) (tree_type : Z)
  : M (BVHTreeFromPointCloud * BVHTreeP) :=
  t <- BLI_bvhtree_new (totpoint pointcloud) F32.zero tree_type 6 ;;
  match t with
  | None => ret (data, None)
  | Some tree =>
      let positions := pointcloud_positions pointcloud in
      for_range (Z.of_nat (length positions)) (fun i =>
        p <- index positions i ;;
        BLI_bvhtree_insert tree (Z.of_nat i) [p]) ;;
      len <- BLI_bvhtree_get_len tree ;;
      BLI_assert (len =? totpoint pointcloud)%Z ;;
      bvhtree_balance (Some tree) false ;;
      ret ({| pc_coords := pointcloud_coords pointcloud;
              pc_tree := Some tree;
              pc_nearest_callback := None |}, Some tree)
  end.

(** [free_bvhtree_from_pointcloud]: the bundle afterwards. *)
Definition free_bvhtree_from_pointcloud (data : BVHTreeFromPointCloud)
  : M BVHTreeFromPointCloud :=
  (if negb (is_null (pc_tree data)) then BLI_bvhtree_free (pc_tree data) else ret tt) ;;
  ret BVHTreeFromPointCloud_zero.

(** The primitives of a point cloud: point [i] under the index [i]. *)
Definition point_leaves (first : nat) (positions : list V3) : list (Z * list V3) :=
  zip_with (fun i p => (Z.of_nat i, [p])) (seq first (length positions)) positions.

Definition add_leaves (ls : list (Z * list V3)) (tr : BVHTree) : BVHTree :=
  {| bt_maxsize := bt_maxsize tr; bt_epsilon := bt_epsilon tr;
     bt_tree_type := bt_tree_type tr; bt_axis := bt_axis tr;
     bt_leaves := bt_leaves tr ++ ls; bt_balanced := bt_balanced tr |}.

(** A cloud of three points. *)
Definition three_points : PointCloud :=
  {| totpoint := 3; position_attribute := Some [v3 0 0 0; v3 1 0 0; v3 0 1 0] |}.

(** What a caller of an [_ex] builder is handed in [st'], starting from
    [st]: the cache and the mutexes as they were, and either no tree and
    the heap as it was, or a balanced tree at an address that was not live,
    the rest of the heap as it was. *)
Definition handed_over (st : State) (t : BVHTreeP) (st' : State) : Prop :=
  cache_untouched st st'
  /\ match t with
     | Some a =>
         heap st !! a = None
         /\ (exists tr, heap st' !! a = Some tr /\ bt_balanced tr = true)
         /\ delete a (heap st') = heap st
     | None => heap st' = heap st
     end.

(** The bundle of a mesh is the caller's to release: it carries the tree,
    is not marked cached, and [free_bvhtree_from_mesh] on it gives back the
    heap of [st]. *)
Definition mesh_bundle_owned (st : State) (d : option BVHTreeFromMesh) (t : BVHTreeP)
    (st' : State) : Prop :=
  forall d0, d = Some d0 ->
    fm_tree d0 = t /\ fm_cached d0 = false
    /\ exists st'', free_bvhtree_from_mesh d0 st' = Ok (BVHTreeFromMesh_zero, st'')
                    /\ heap st'' = heap st.

(** The same for the bundle of an edit mesh, which
    [free_bvhtree_from_editmesh] leaves as it is when it has no tree. *)
Definition editmesh_bundle_owned (st : State) (d : option BVHTreeFromEditMesh)
    (t : BVHTreeP) (st' : State) : Prop :=
  forall d0, d = Some d0 ->
    fem_tree d0 = t /\ fem_cached d0 = false
    /\ exists d1 st'', free_bvhtree_from_editmesh d0 st' = Ok (d1, st'')
                       /\ heap st'' = heap st.

(** The points of candidate [i] of a builder, as its arrays give them: the
    position of a vertex, the two ends of an edge, the three or four
    corners of a face (a fourth vertex index of zero stands for a
    triangle), the three corners of a loop triangle. *)
Definition corners (b : builder) (i : nat) : option (list V3) :=
  match b with
  | Build_editmesh_verts em =>
      eve ← vtable (bm em) !! i; Some [co eve]
  | Build_mesh_verts positions _ =>
      ps ← positions; p ← ps !! i; Some [p]
  | Build_editmesh_edges em =>
      eed ← etable (bm em) !! i; Some [co (bm_v1 eed); co (bm_v2 eed)]
  | Build_mesh_edges positions edge _ =>
      ps ← positions; es ← edge; e ← es !! i;
      co0 ← ps !! e_v1 e; co1 ← ps !! e_v2 e; Some [co0; co1]
  | Build_mesh_faces positions face _ =>
      ps ← positions; fs ← face; f ← fs !! i;
      co0 ← ps !! f_v1 f; co1 ← ps !! f_v2 f; co2 ← ps !! f_v3 f;
      if decide (f_v4 f = 0) then Some [co0; co1; co2]
      else co3 ← ps !! f_v4 f; Some [co0; co1; co2; co3]
  | Build_editmesh_looptri em =>
      ltri ← em_looptris em !! i;
      Some [co (bl_v ltri.1.1); co (bl_v ltri.1.2); co (bl_v ltri.2)]
  | Build_mesh_looptri positions mloop looptris =>
      ps ← positions; ls ← mloop; lt ← looptris !! i;
      l0 ← ls !! (tri lt).1.1; l1 ← ls !! (tri lt).1.2; l2 ← ls !! (tri lt).2;
      co0 ← ps !! l_v l0; co1 ← ps !! l_v l1; co2 ← ps !! l_v l2;
      Some [co0; co1; co2]
  end.

(** A primitive of the hierarchy of a builder: an active candidate, under
    its own index, with its own points. *)
Definition corner_leaf (b : builder) (mask : BitVector) (leaf : Z * list V3) : Prop :=
  exists i, leaf.1 = Z.of_nat i /\ active mask i = true /\ corners b i = Some leaf.2.

(** The hierarchy at [t] is live and all its primitives satisfy [P]. *)
Definition leaves_all (t : nat) (P : Z * list V3 -> Prop) (st : State) : Prop :=
  exists tr, heap st !! t = Some tr /\ Forall P (bt_leaves tr).

(** The builder [BKE_bvhtree_from_mesh_get] runs for a variant of a mesh. *)
Definition mesh_builder (mesh : Mesh) (type : BVHCacheType) : builder :=
  let positions := span_data (vert_positions mesh) in
  match type with
  | BVHTREE_FROM_EDGES | BVHTREE_FROM_LOOSEEDGES =>
      Build_mesh_edges positions (span_data (edges mesh)) (totedge mesh)
  | BVHTREE_FROM_FACES =>
      Build_mesh_faces positions (mface mesh) (totface mesh)
  | BVHTREE_FROM_LOOPTRI | BVHTREE_FROM_LOOPTRI_NO_HIDDEN =>
      Build_mesh_looptri positions (span_data (loops mesh)) (looptris mesh)
  | _ => Build_mesh_verts positions (totvert mesh)
  end.

(** The points of primitive [index] as the callbacks of the bundle of a
    variant fetch them from the arrays of the bundle: the vertex of
    [mesh_verts_spherecast], the ends of the edge, the corners of the face
    or of the loop triangle. *)
Definition bundle_corners (type : BVHCacheType) (data : BVHTreeFromMesh) (index : nat)
  : res (list V3) :=
  match type with
  | BVHTREE_FROM_VERTS | BVHTREE_FROM_LOOSEVERTS =>
      v ← at_ptr (fm_vert_positions data) index; mret [v]
  | BVHTREE_FROM_EDGES | BVHTREE_FROM_LOOSEEDGES =>
      ends ← mesh_edge_ends data index; mret [ends.1; ends.2]
  | BVHTREE_FROM_FACES =>
      c ← mesh_faces_corners data index;
      mret ([c.1.1.1; c.1.1.2; c.1.2] ++ option_list c.2)
  | BVHTREE_FROM_LOOPTRI | BVHTREE_FROM_LOOPTRI_NO_HIDDEN =>
      c ← mesh_looptri_vtri_co data index; mret [c.1.1; c.1.2; c.2]
  | _ => Err AssertFail
  end.

(** The same for the bundle of an edit mesh: the vertex of
    [editmesh_verts_spherecast], the corners of the loop triangle; the
    bundle of the edges has no callback. *)
Definition editmesh_bundle_corners (type : BVHCacheType) (data : BVHTreeFromEditMesh)
    (index : nat) : res (list V3) :=
  match type with
  | BVHTREE_FROM_EM_VERTS =>
      match fem_em data with
      | None => Err NullDeref
      | Some em => eve ← at_index (vtable (bm em)) index; mret [co eve]
      end
  | BVHTREE_FROM_EM_LOOPTRI =>
      c ← editmesh_looptri_corners data index; mret [c.1.1; c.1.2; c.2]
  | _ => Err AssertFail
  end.

(** The builder [BKE_bvhtree_from_editmesh_get] runs for a variant. *)
Definition editmesh_builder (em : BMEditMesh) (type : BVHCacheType) : builder :=
  match type with
  | BVHTREE_FROM_EM_VERTS => Build_editmesh_verts em
  | BVHTREE_FROM_EM_EDGES => Build_editmesh_edges em
  | _ => Build_editmesh_looptri em
  end.

(** The cache holds no pointer to a hierarchy that is not live. *)
Definition no_dangling_slot (st : State) : Prop :=
  forall c i it b,
    bvh_cache st = Some c -> items c !! i = Some it -> tree it = Some b ->
    is_Some (heap st !! b).

(** The mask and the active count [BKE_bvhtree_from_mesh_get] derives for a
    variant: none for the variants that take every candidate. *)
Definition variant_mask (mesh : Mesh) (type : BVHCacheType) : res (BitVector * Z) :=
  match type with
  | BVHTREE_FROM_LOOSEVERTS => loose_verts_map_get (edges mesh) (totvert mesh)
  | BVHTREE_FROM_LOOSEEDGES => Ok (loose_edges_map_get mesh)
  | BVHTREE_FROM_LOOPTRI_NO_HIDDEN =>
      looptri_no_hidden_map_get (polys mesh) (lookup_hide_poly mesh)
                                (Z.of_nat (length (looptris mesh))) (-1)
  | _ => Ok ([], (-1)%Z)
  end.

Section Misses.
Context `{BLI_math}.

End Misses.


(** The inputs a builder is meant for: the arrays it reads are there, the
    number of candidates is not negative, every candidate the mask selects
    has its points in the arrays, and a mask that is given has a bit for
    every candidate and comes with a count within the candidates, the
    number of its selected candidates where the builder checks the number
    of primitives at its end. *)
Definition builder_inputs_ok (b : builder) (mask : BitVector) (num_active : Z) : Prop :=
  let kept := filter (fun i => active mask i = true) (seq 0 (Z.to_nat (candidates b))) in
  arrays_present b
  /\ (0 <= candidates b)%Z
  /\ (mask <> [] ->
        Z.to_nat (candidates b) <= length mask
        /\ (0 <= num_active <= candidates b)%Z
        /\ (has_closing_assert b = true -> num_active = Z.of_nat (length kept)))
  /\ Forall (fun i => is_Some (corners b i)) kept.

(** * Properties *)

(** ** The monad *)

Lemma bind_Ok {A B} (m : M A) (k : A -> M B) st r :
  bind m k st = Ok r <-> exists a st1, m st = Ok (a, st1) /\ k a st1 = Ok r.
Proof.
  unfold bind. split.
  - destruct (m st) as [[a st1]|e]; [eauto | discriminate].
  - intros (a & st1 & -> & Hk). exact Hk.
Qed.

Lemma bind_Ok_intro {A B} (m : M A) (k : A -> M B) st a st1 :
  m st = Ok (a, st1) -> bind m k st = k a st1.
Proof. unfold bind. by intros ->. Qed.

Lemma BLI_assert_Ok b st r : BLI_assert b st = Ok r -> b = true /\ r = (tt, st).
Proof. destruct b; simpl; [|discriminate]. unfold ret. by intros [= <-]. Qed.

Lemma index_Ok {A} (a : list A) i st x st' :
  index a i st = Ok (x, st') -> a !! i = Some x /\ st' = st.
Proof.
  unfold index. destruct (a !! i); simpl; [|discriminate].
  unfold ret. by intros [= -> ->].
Qed.

Lemma index_ptr_Ok {A} (p : option (list A)) i st x st' :
  index_ptr p i st = Ok (x, st') -> exists a, p = Some a /\ a !! i = Some x /\ st' = st.
Proof.
  destruct p as [a|]; simpl; [|discriminate].
  intros [? ?]%index_Ok. eauto.
Qed.

Lemma lift_Ok {A} (r : res A) st x st' :
  lift r st = Ok (x, st') -> r = Ok x /\ st' = st.
Proof. unfold lift. destruct r; [|discriminate]. by intros [= -> ->]. Qed.

(** Inversion of a successful run, one combinator at a time. *)
Ltac inv_M1 :=
  match goal with
  | H : bind _ _ _ = Ok _ |- _ =>
      apply bind_Ok in H; destruct H as (? & ? & ? & H)
  | H : ret _ _ = Ok _ |- _ => unfold ret in H; injection H; clear H; intros; subst
  | H : gets _ _ = Ok _ |- _ => unfold gets in H; injection H; clear H; intros; subst
  | H : modify _ _ = Ok _ |- _ => unfold modify in H; injection H; clear H; intros; subst
  | H : fail _ _ = Ok _ |- _ => discriminate H
  | H : Err _ = Ok _ |- _ => discriminate H
  | H : BLI_assert _ _ = Ok _ |- _ =>
      apply BLI_assert_Ok in H; destruct H as [? ?]; subst
  | H : index _ _ _ = Ok _ |- _ => apply index_Ok in H; destruct H as [? ?]; subst
  | H : index_ptr _ _ _ = Ok _ |- _ =>
      apply index_ptr_Ok in H; destruct H as (? & ? & ? & ?); subst
  | H : lift _ _ = Ok _ |- _ => apply lift_Ok in H; destruct H as [? ?]; subst
  | H : Ok _ = Ok _ |- _ => injection H; clear H; intros; subst
  | H : (_, _) = (_, _) |- _ => injection H; clear H; intros; subst
  end.
Ltac inv_M := repeat inv_M1.

(** ** Relations every successful run keeps *)

Section Preserves.
Context (R : relation State) `{!PreOrder R}.

#[local] Abbreviation preserves := (preserves R).

Lemma preserves_ret {A} (a : A) : preserves (ret a).
Proof. intros st b st' ?. inv_M. reflexivity. Qed.

Lemma preserves_fail {A} e : preserves (@fail A e).
Proof. intros st b st' ?. inv_M. Qed.

Lemma preserves_gets {A} (f : State -> A) : preserves (gets f).
Proof. intros st b st' ?. inv_M. reflexivity. Qed.

Lemma preserves_bind {A B} (m : M A) (k : A -> M B) :
  preserves m -> (forall a, preserves (k a)) -> preserves (bind m k).
Proof.
  intros Hm Hk st b st' H. inv_M.
  etrans; [by eapply Hm | by eapply Hk].
Qed.

Lemma preserves_assert b : preserves (BLI_assert b).
Proof. intros st a st' ?. inv_M. reflexivity. Qed.

Lemma preserves_index {A} (a : list A) i : preserves (index a i).
Proof. intros st x st' ?. inv_M. reflexivity. Qed.

Lemma preserves_index_ptr {A} (p : option (list A)) i : preserves (index_ptr p i).
Proof. intros st x st' ?. inv_M. reflexivity. Qed.

Lemma preserves_lift {A} (r : res A) : preserves (lift r).
Proof. intros st x st' ?. inv_M. reflexivity. Qed.

Lemma preserves_for_each {A} (l : list A) body :
  (forall x, preserves (body x)) -> preserves (for_each l body).
Proof.
  intros Hb. induction l as [|x l IH]; simpl.
  - apply preserves_ret.
  - apply preserves_bind; [apply Hb | intros _; apply IH].
Qed.

Lemma preserves_for_range n body :
  (forall i, preserves (body i)) -> preserves (for_range n body).
Proof. intros. by apply preserves_for_each. Qed.

Lemma preserves_modify f : (forall st, R st (f st)) -> preserves (modify f).
Proof. intros Hf st a st' ?. inv_M. apply Hf. Qed.
End Preserves.

(** One structural step in a proof that a run keeps a relation. *)
Ltac pres1 :=
  lazymatch goal with
  | |- PreOrder _ => apply _
  | |- preserves _ (bind _ _) => apply preserves_bind; [apply _ | | intros ?]
  | |- preserves _ (ret _) => apply preserves_ret; apply _
  | |- preserves _ (fail _) => apply preserves_fail
  | |- preserves _ (gets _) => apply preserves_gets; apply _
  | |- preserves _ (BLI_assert _) => apply preserves_assert; apply _
  | |- preserves _ (index _ _) => apply preserves_index; apply _
  | |- preserves _ (index_ptr _ _) => apply preserves_index_ptr; apply _
  | |- preserves _ (lift _) => apply preserves_lift; apply _
  | |- preserves _ (for_range _ _) => apply preserves_for_range; [apply _ | intros ?]
  | |- preserves _ (for_each _ _) => apply preserves_for_each; [apply _ | intros ?]
  | |- preserves _ (if ?b then _ else _) => destruct b
  | |- preserves _ (match ?x with _ => _ end) => destruct x
  | |- preserves _ (let _ := _ in _) => cbv zeta
  | |- preserves _ (modify _) => apply preserves_modify; intros ?; done
  | |- preserves _ _ => solve [auto with pres]
  end.
Ltac pres := repeat pres1.

Create HintDb pres.

(** ** The cache only ever evolves *)

#[global] Instance cache_evolves_preorder : PreOrder cache_evolves.
Proof.
  split.
  - intros st. apply rtc_refl.
  - intros st1 st2 st3. apply rtc_trans.
Qed.

Lemma cache_evolves_same st st' : bvh_cache st' = bvh_cache st -> cache_evolves st st'.
Proof. unfold cache_evolves. intros ->. apply rtc_refl. Qed.

Lemma cache_evolves_step st st' :
  cache_change (bvh_cache st) (bvh_cache st') -> cache_evolves st st'.
Proof. apply rtc_once. Qed.

Lemma the_cache_Ok st c st' :
  the_cache st = Ok (c, st') -> bvh_cache st = Some c /\ st' = st.
Proof.
  unfold the_cache. intros H. inv_M.
  destruct (bvh_cache _) eqn:E; inv_M. done.
Qed.

Ltac inv_cache :=
  repeat first
    [ inv_M1
    | match goal with
      | H : the_cache _ = Ok _ |- _ =>
          apply the_cache_Ok in H; destruct H as [? ?]; subst
      | H : cache_item _ _ _ = Ok _ |- _ => unfold cache_item in H
      end ].

Lemma lock_cache_evolves : preserves cache_evolves BLI_mutex_lock_cache.
Proof.
  intros st [] st' H. unfold BLI_mutex_lock_cache in H. inv_cache.
  destruct (mutex _); inv_cache.
  apply cache_evolves_step. simpl.
  match goal with E : bvh_cache _ = _ |- _ => rewrite E end. constructor.
Qed.

Lemma unlock_cache_evolves : preserves cache_evolves BLI_mutex_unlock_cache.
Proof.
  intros st [] st' H. unfold BLI_mutex_unlock_cache in H. inv_cache.
  apply cache_evolves_step. simpl.
  match goal with E : bvh_cache _ = _ |- _ => rewrite E end. constructor.
Qed.

Lemma bvhcache_unlock_evolves b : preserves cache_evolves (bvhcache_unlock b).
Proof.
  destruct b; simpl; [apply unlock_cache_evolves | pres1].
Qed.

Lemma find_nolock_same type r st res st' :
  bvhcache_find_nolock type r st = Ok (res, st') -> st' = st.
Proof.
  unfold bvhcache_find_nolock. intros H. inv_cache.
  destruct (bvh_cache _); inv_cache; [|done].
  destruct (is_filled _); by inv_cache.
Qed.

Lemma find_nolock_evolves type r : preserves cache_evolves (bvhcache_find_nolock type r).
Proof. intros st a st' ->%find_nolock_same. reflexivity. Qed.

Lemma find_locked_tail_evolves type r :
  preserves cache_evolves
    (bvh_cache <- the_cache ;;
     item <- cache_item bvh_cache type ;;
     if is_filled item then ret (true, tree item, false)
     else
       BLI_mutex_lock_cache ;;
       r <- bvhcache_find_nolock type r ;;
       let in_cache := r.1 in
       if in_cache then
         BLI_mutex_unlock_cache ;;
         ret (in_cache, r.2, false)
       else ret (false, r.2, true)).
Proof.
  intros st a st' H. inv_cache.
  destruct (is_filled _); inv_cache; [reflexivity|].
  match goal with H : BLI_mutex_lock_cache _ = _ |- _ =>
    apply lock_cache_evolves in H end.
  match goal with H : bvhcache_find_nolock _ _ _ = _ |- _ =>
    apply find_nolock_same in H; subst end.
  cbv zeta in H. destruct (_.1); inv_cache; [|done].
  match goal with H : BLI_mutex_unlock_cache _ = _ |- _ =>
    apply unlock_cache_evolves in H end.
  by etrans.
Qed.

Lemma bvhcache_find_evolves type r do_lock :
  preserves cache_evolves (bvhcache_find type r do_lock).
Proof.
  unfold bvhcache_find. destruct do_lock; simpl.
  - intros st a st' H. apply bind_Ok in H as (c & st1 & Hc & H).
    apply bind_Ok in H as ([] & st2 & Hinit & H).
    apply find_locked_tail_evolves in H.
    etrans; [|exact H]. clear H. inv_M.
    destruct (bvh_cache st1) eqn:E; inv_M; [reflexivity|].
    destruct (eval_mutex _); inv_M. simpl in *. rewrite E in *. inv_M.
    apply cache_evolves_step. simpl. rewrite E. constructor.
  - pres1; [apply find_nolock_evolves | pres1].
Qed.

Lemma bvhcache_insert_evolves t type : preserves cache_evolves (bvhcache_insert t type).
Proof.
  intros st [] st' H. unfold bvhcache_insert in H. inv_cache.
  apply cache_evolves_step. simpl.
  match goal with E : bvh_cache _ = _ |- _ => rewrite E end.
  econstructor; [done|]. by destruct (is_filled _).
Qed.

(** ** What the hierarchy operations and the builders leave alone *)

#[global] Instance cache_untouched_preorder : PreOrder cache_untouched.
Proof.
  split.
  - by intros st.
  - intros st1 st2 st3 [? ?] [? ?]. split; congruence.
Qed.

Lemma preserves_weaken (R R' : relation State) {A} (m : M A) :
  (forall st st', R st st' -> R' st st') -> preserves R m -> preserves R' m.
Proof. intros HR Hm st a st' H. eapply HR, Hm, H. Qed.

Lemma cache_untouched_evolves st st' : cache_untouched st st' -> cache_evolves st st'.
Proof. intros [? _]. by apply cache_evolves_same. Qed.

Lemma BLI_bvhtree_new_untouched maxsize epsilon tree_type axis :
  preserves cache_untouched (BLI_bvhtree_new maxsize epsilon tree_type axis).
Proof. unfold BLI_bvhtree_new. pres. Qed.

Lemma the_tree_untouched t : preserves cache_untouched (the_tree t).
Proof. unfold the_tree. pres. Qed.
#[global] Hint Resolve BLI_bvhtree_new_untouched the_tree_untouched : pres.

Lemma BLI_bvhtree_insert_untouched t i co :
  preserves cache_untouched (BLI_bvhtree_insert t i co).
Proof. unfold BLI_bvhtree_insert. pres. Qed.

Lemma BLI_bvhtree_get_len_untouched t : preserves cache_untouched (BLI_bvhtree_get_len t).
Proof. unfold BLI_bvhtree_get_len. pres. Qed.

Lemma BLI_bvhtree_free_untouched t : preserves cache_untouched (BLI_bvhtree_free t).
Proof. unfold BLI_bvhtree_free. pres. Qed.

Lemma BLI_bvhtree_balance_untouched t : preserves cache_untouched (BLI_bvhtree_balance t).
Proof. unfold BLI_bvhtree_balance. pres. Qed.
#[global] Hint Resolve BLI_bvhtree_insert_untouched BLI_bvhtree_get_len_untouched
  BLI_bvhtree_free_untouched BLI_bvhtree_balance_untouched : pres.

Lemma bvhtree_balance_untouched t isolate :
  preserves cache_untouched (bvhtree_balance t isolate).
Proof. unfold bvhtree_balance, bvhtree_balance_isolated. pres. Qed.

Lemma mask_skips_untouched mask i : preserves cache_untouched (mask_skips mask i).
Proof. unfold mask_skips. pres. Qed.

Lemma mesh_setup_data_untouched t type positions edge face loop looptris :
  preserves cache_untouched
    (bvhtree_from_mesh_setup_data t type positions edge face loop looptris).
Proof. unfold bvhtree_from_mesh_setup_data. pres. Qed.

Lemma editmesh_setup_data_untouched t type em :
  preserves cache_untouched (bvhtree_from_editmesh_setup_data t type em).
Proof. unfold bvhtree_from_editmesh_setup_data. pres. Qed.
#[global] Hint Resolve bvhtree_balance_untouched mask_skips_untouched
  mesh_setup_data_untouched editmesh_setup_data_untouched : pres.

Lemma editmesh_verts_create_tree_untouched epsilon tree_type axis em mask n :
  preserves cache_untouched
    (bvhtree_from_editmesh_verts_create_tree epsilon tree_type axis em mask n).
Proof. unfold bvhtree_from_editmesh_verts_create_tree. pres. Qed.

Lemma mesh_verts_create_tree_untouched epsilon tree_type axis positions num mask n :
  preserves cache_untouched
    (bvhtree_from_mesh_verts_create_tree epsilon tree_type axis positions num mask n).
Proof. unfold bvhtree_from_mesh_verts_create_tree. pres. Qed.

Lemma editmesh_edges_create_tree_untouched epsilon tree_type axis em mask n :
  preserves cache_untouched
    (bvhtree_from_editmesh_edges_create_tree epsilon tree_type axis em mask n).
Proof. unfold bvhtree_from_editmesh_edges_create_tree. pres. Qed.

Lemma mesh_edges_create_tree_untouched positions edge num mask n epsilon tree_type axis :
  preserves cache_untouched
    (bvhtree_from_mesh_edges_create_tree positions edge num mask n epsilon tree_type axis).
Proof. unfold bvhtree_from_mesh_edges_create_tree. pres. Qed.

Lemma mesh_faces_create_tree_untouched epsilon tree_type axis positions face num mask n :
  preserves cache_untouched
    (bvhtree_from_mesh_faces_create_tree epsilon tree_type axis positions face num mask n).
Proof. unfold bvhtree_from_mesh_faces_create_tree. pres. Qed.

Lemma editmesh_looptri_create_tree_untouched epsilon tree_type axis em mask n :
  preserves cache_untouched
    (bvhtree_from_editmesh_looptri_create_tree epsilon tree_type axis em mask n).
Proof. unfold bvhtree_from_editmesh_looptri_create_tree. pres. Qed.

Lemma mesh_looptri_create_tree_untouched epsilon tree_type axis positions mloop lts mask n :
  preserves cache_untouched
    (bvhtree_from_mesh_looptri_create_tree epsilon tree_type axis positions mloop lts mask n).
Proof. unfold bvhtree_from_mesh_looptri_create_tree. pres. Qed.
#[global] Hint Resolve editmesh_verts_create_tree_untouched mesh_verts_create_tree_untouched
  editmesh_edges_create_tree_untouched mesh_edges_create_tree_untouched
  mesh_faces_create_tree_untouched editmesh_looptri_create_tree_untouched
  mesh_looptri_create_tree_untouched : pres.

Lemma free_bvhtree_from_mesh_untouched data :
  preserves cache_untouched (free_bvhtree_from_mesh data).
Proof. unfold free_bvhtree_from_mesh. pres. Qed.

Lemma free_bvhtree_from_editmesh_untouched data :
  preserves cache_untouched (free_bvhtree_from_editmesh data).
Proof. unfold free_bvhtree_from_editmesh. pres. Qed.

Lemma untouched_evolves_pres {A} (m : M A) :
  preserves cache_untouched m -> preserves cache_evolves m.
Proof. apply preserves_weaken, cache_untouched_evolves. Qed.
#[global] Hint Resolve bvhcache_find_evolves bvhcache_insert_evolves
  bvhcache_unlock_evolves free_bvhtree_from_mesh_untouched
  free_bvhtree_from_editmesh_untouched untouched_evolves_pres : pres.

Lemma BKE_bvhtree_from_mesh_get_evolves mesh type tree_type :
  preserves cache_evolves (BKE_bvhtree_from_mesh_get mesh type tree_type).
Proof. unfold BKE_bvhtree_from_mesh_get. pres. Qed.

Lemma BKE_bvhtree_from_editmesh_get_evolves em tree_type type bvh_cache_p :
  preserves cache_evolves (BKE_bvhtree_from_editmesh_get em tree_type type bvh_cache_p).
Proof. unfold BKE_bvhtree_from_editmesh_get. pres. Qed.
#[global] Hint Resolve BKE_bvhtree_from_mesh_get_evolves
  BKE_bvhtree_from_editmesh_get_evolves : pres.

Lemma run_op_evolves op : preserves cache_evolves (run_op op).
Proof. destruct op; simpl; pres. Qed.

(** ** What an evolution of the cache keeps *)

Lemma cache_change_keeps_filled oc oc' c i it :
  cache_change oc oc' -> oc = Some c ->
  items c !! i = Some it -> is_filled it = true ->
  exists c', oc' = Some c' /\ items c' !! i = Some it.
Proof.
  intros Hch Hc Hi Hf. destruct Hch as [|c0 b|c0 j it0 t Hj Hf0]; simplify_eq.
  - eexists. split; [done|]. done.
  - eexists. split; [done|]. simpl.
    destruct (decide (i = j)) as [->|Hne].
    + congruence.
    + by rewrite list_lookup_insert_ne.
Qed.

Lemma cache_rtc_keeps_filled oc oc' :
  rtc cache_change oc oc' ->
  forall c i it, oc = Some c -> items c !! i = Some it -> is_filled it = true ->
  exists c', oc' = Some c' /\ items c' !! i = Some it.
Proof.
  induction 1 as [oc|oc1 oc2 oc3 Hstep _ IH]; intros c i it Hc Hi Hf.
  - eauto.
  - destruct (cache_change_keeps_filled _ _ _ _ _ Hstep Hc Hi Hf) as (c2 & -> & Hi2).
    by eapply IH.
Qed.

Lemma evolves_keeps_slot type it st st' :
  cache_evolves st st' -> is_filled it = true ->
  slot_is type it st -> slot_is type it st'.
Proof.
  intros Hev Hf (c & Hc & Hi).
  by eapply (cache_rtc_keeps_filled _ _ Hev).
Qed.

Lemma slot_filled_is type st :
  slot_filled type st = true <-> exists it, is_filled it = true /\ slot_is type it st.
Proof.
  unfold slot_filled, slot_is. split.
  - destruct (bvh_cache st) as [c|]; [|done].
    destruct (items c !! _) as [it|] eqn:E; [|done]. eauto.
  - intros (it & Hf & c & -> & ->). done.
Qed.

Lemma evolves_keeps_filled type st st' :
  cache_evolves st st' -> slot_filled type st = true -> slot_filled type st' = true.
Proof.
  rewrite !slot_filled_is. intros Hev (it & Hf & Hs).
  exists it. split; [done|]. by eapply evolves_keeps_slot.
Qed.

Lemma bvhcache_init_wf : cache_wf bvhcache_init.
Proof.
  split; [done|]. intros i it Hi _. unfold bvhcache_init, items in Hi.
  apply lookup_replicate in Hi as [-> _]. done.
Qed.

Lemma cache_change_wf oc oc' :
  cache_change oc oc' ->
  (forall c, oc = Some c -> cache_wf c) -> forall c', oc' = Some c' -> cache_wf c'.
Proof.
  intros Hch Hwf c' Hc'. destruct Hch as [|c0 b|c0 j it0 t Hj Hf0]; simplify_eq.
  - apply bvhcache_init_wf.
  - destruct (Hwf c0 eq_refl) as [Hlen Hnull]. by split.
  - destruct (Hwf c0 eq_refl) as [Hlen Hnull]. split; simpl.
    + by rewrite length_insert.
    + intros i it Hi Hf. destruct (decide (i = j)) as [->|Hne].
      * rewrite list_lookup_insert_eq in Hi; [|by eapply lookup_lt_Some].
        by simplify_eq.
      * rewrite list_lookup_insert_ne in Hi; [|done]. by eapply Hnull.
Qed.

Lemma cache_rtc_wf oc oc' :
  rtc cache_change oc oc' ->
  (forall c, oc = Some c -> cache_wf c) -> forall c', oc' = Some c' -> cache_wf c'.
Proof.
  induction 1 as [oc|oc1 oc2 oc3 Hstep _ IH]; [done|].
  intros Hwf. apply IH. by eapply cache_change_wf.
Qed.

(** ** Runs of operations *)

Lemma run_trace_evolves ops st st' :
  st' ∈ run_trace ops st -> cache_evolves st st'.
Proof.
  revert st. induction ops as [|op ops IH]; intros st; simpl.
  - intros ->%list_elem_of_singleton. reflexivity.
  - intros [->|Hin]%elem_of_cons; [reflexivity|].
    destruct (run_op op st) as [[[] st1]|e] eqn:E; [|by apply elem_of_nil in Hin].
    etrans; [by eapply run_op_evolves | by apply IH].
Qed.

Lemma fill_transitions_filled type ops st :
  slot_filled type st = true -> fill_transitions type (run_trace ops st) = 0.
Proof.
  revert st. induction ops as [|op ops IH]; intros st Hf; [done|].
  simpl. destruct (run_op op st) as [[[] st1]|e] eqn:E; [|done].
  assert (slot_filled type st1 = true) as Hf1
    by (eapply evolves_keeps_filled; [by eapply run_op_evolves | done]).
  specialize (IH st1 Hf1). destruct ops; simpl in *; rewrite Hf; simpl; [done|].
  exact IH.
Qed.

Lemma fill_transitions_cons type st1 ops st2 :
  fill_transitions type (st1 :: run_trace ops st2)
  = (if negb (slot_filled type st1) && slot_filled type st2 then 1 else 0)
    + fill_transitions type (run_trace ops st2).
Proof. by destruct ops. Qed.

Lemma fill_transitions_le_1 type ops st :
  fill_transitions type (run_trace ops st) <= 1.
Proof.
  revert st. induction ops as [|op ops IH]; intros st; [simpl; lia|].
  cbn [run_trace]. destruct (run_op op st) as [[[] st1]|e] eqn:E; [|simpl; lia].
  rewrite fill_transitions_cons.
  destruct (slot_filled type st1) eqn:Hf1.
  - rewrite fill_transitions_filled by done. destruct (negb _); simpl; lia.
  - rewrite andb_false_r. apply IH.
Qed.

(** ** The primitives of the slot table *)

Lemma bvhcache_insert_filled t type st :
  slot_filled type st = true -> bvhcache_insert t type st = Err AssertFail.
Proof.
  unfold slot_filled, bvhcache_insert, the_cache, cache_item, index, bind, gets.
  destruct (bvh_cache st) as [c|]; [|done]. simpl.
  destruct (items c !! _) as [it|]; [|done]. simpl. by intros ->.
Qed.

Lemma bvhcache_insert_Ok t type st st' :
  bvhcache_insert t type st = Ok (tt, st') ->
  slot_filled type st = false /\
  slot_is type {| is_filled := true; tree := t |} st'.
Proof.
  intros H. unfold bvhcache_insert in H. inv_cache.
  match goal with E : bvh_cache _ = Some ?c, E' : items ?c !! _ = Some ?it |- _ =>
    rename E into Hc; rename E' into Hi end.
  split.
  - unfold slot_filled. rewrite Hc, Hi. by destruct (is_filled _).
  - eexists. split; [done|]. simpl.
    apply list_lookup_insert_eq. by eapply lookup_lt_Some.
Qed.

Lemma bvhcache_find_nolock_hit type r t st :
  slot_is type {| is_filled := true; tree := t |} st ->
  bvhcache_find_nolock type r st = Ok ((true, t), st).
Proof.
  intros (c & Hc & Hi).
  unfold bvhcache_find_nolock, cache_item, index, bind, gets.
  rewrite Hc. simpl. by rewrite Hi.
Qed.

Lemma bvhcache_find_hit type r do_lock t st :
  slot_is type {| is_filled := true; tree := t |} st ->
  bvhcache_find type r do_lock st = Ok ((true, t, false), st).
Proof.
  intros Hs. unfold bvhcache_find. destruct do_lock; simpl.
  - destruct Hs as (c & Hc & Hi).
    unfold the_cache, cache_item, index, bind, gets, ret.
    repeat (rewrite Hc; simpl). by rewrite Hi.
  - by rewrite (bind_Ok_intro _ _ _ _ _ (bvhcache_find_nolock_hit _ _ _ _ Hs)).
Qed.

Lemma destroy_cache_Ok st st' :
  destroy_cache st = Ok (tt, st') -> bvh_cache st' = None.
Proof.
  unfold destroy_cache. intros H.
  apply bind_Ok in H as (c & st1 & Hg & H). unfold gets in Hg.
  injection Hg as <- <-.
  destruct (bvh_cache st) eqn:E; inv_M; done.
Qed.

(** ** C3: a slot is filled at most once *)

(** C3.  [bvhcache_insert] asserts that the target slot is empty and then
    stores the handle and marks the slot filled; along any run of the
    operations of the file a filled slot stays filled, so that a slot goes
    from empty to filled at most once; only destroying the cache empties
    it. *)
Theorem slot_filled_at_most_once :
  (forall t type st,
      slot_filled type st = true -> bvhcache_insert t type st = Err AssertFail)
  /\ (forall t type st st',
         bvhcache_insert t type st = Ok (tt, st') ->
         slot_filled type st = false /\
         slot_is type {| is_filled := true; tree := t |} st')
  /\ (forall op type st r st',
         run_op op st = Ok (r, st') ->
         slot_filled type st = true -> slot_filled type st' = true)
  /\ (forall type ops st, fill_transitions type (run_trace ops st) <= 1)
  /\ (forall type st st', destroy_cache st = Ok (tt, st') -> slot_filled type st' = false).
Proof.
  split; [exact bvhcache_insert_filled|].
  split; [exact bvhcache_insert_Ok|].
  split; [|split].
  - intros op type st r st' Hrun. apply evolves_keeps_filled.
    by eapply run_op_evolves.
  - intros type ops st. apply fill_transitions_le_1.
  - intros type st st' Hnone%destroy_cache_Ok.
    unfold slot_filled. by rewrite Hnone.
Qed.

(** ** C10: [bvhcache_has_tree] looks at the tree fields only *)

Lemma has_tree_loop_spec its t :
  has_tree_loop its t = true <-> exists i it, its !! i = Some it /\ tree it = t.
Proof.
  induction its as [|it0 its IH]; simpl.
  - split; [done|]. by intros (i & it & ? & _).
  - destruct (decide (tree it0 = t)) as [Heq|Hne].
    + split; [|done]. intros _. by exists 0, it0.
    + rewrite IH. split.
      * intros (i & it & Hi & Ht). by exists (S i), it.
      * intros ([|i] & it & Hi & Ht); simpl in Hi; [by simplify_eq|eauto].
Qed.

Lemma bvhcache_has_tree_spec c t :
  bvhcache_has_tree (Some c) t = true <->
  exists i it, i < BVHTREE_MAX_ITEM_num /\ items c !! i = Some it /\ tree it = t.
Proof.
  unfold bvhcache_has_tree. rewrite has_tree_loop_spec. split.
  - intros (i & it & Hi & Ht). apply lookup_take_Some in Hi as [Hi Hlt]. eauto.
  - intros (i & it & Hlt & Hi & Ht). exists i, it.
    split; [|done]. by rewrite lookup_take_lt.
Qed.

(** C10.  [bvhcache_has_tree] answers false for a null cache; for a cache it
    answers true exactly when some slot's [tree] field is the queried
    pointer, whatever the slot's [is_filled]; hence, on every cache the
    operations of the file can produce from a mesh without one, a query for
    the null tree answers true as soon as some slot is unfilled or filled
    with an absent tree. *)
Theorem has_tree_ignores_filled_flag :
  (forall t, bvhcache_has_tree None t = false)
  /\ (forall c t,
         bvhcache_has_tree (Some c) t = true <->
         exists i it, i < BVHTREE_MAX_ITEM_num /\ items c !! i = Some it /\ tree it = t)
  /\ (forall ops st0 st c,
         bvh_cache st0 = None -> st ∈ run_trace ops st0 -> bvh_cache st = Some c ->
         (exists i it, items c !! i = Some it /\ (is_filled it = false \/ tree it = None)) ->
         bvhcache_has_tree (Some c) None = true).
Proof.
  split; [done|]. split; [exact bvhcache_has_tree_spec|].
  intros ops st0 st c Hnone Hin Hc (i & it & Hi & Hslot).
  assert (cache_wf c) as [Hlen Hnull].
  { eapply (cache_rtc_wf (bvh_cache st0) (bvh_cache st)); [|by rewrite Hnone|done].
    by apply run_trace_evolves in Hin. }
  apply bvhcache_has_tree_spec. exists i, it.
  split; [|split; [done|]].
  - rewrite <- Hlen. by eapply lookup_lt_Some.
  - destruct Hslot as [Hf|Ht]; [by eapply Hnull | done].
Qed.

(** ** C4: an absent index is a cached result *)

(** The bundle [BKE_bvhtree_from_mesh_get] hands out for a variant of a
    mesh. *)
Lemma mesh_setup_data_pure t type positions edge face loop looptris st data st' :
  bvhtree_from_mesh_setup_data t type positions edge face loop looptris st = Ok (data, st') ->
  st' = st /\
  forall st2,
    bvhtree_from_mesh_setup_data t type positions edge face loop looptris st2 = Ok (data, st2).
Proof.
  unfold bvhtree_from_mesh_setup_data. destruct type; intros H; inv_M; done.
Qed.

Lemma editmesh_setup_data_pure t type em st data st' :
  bvhtree_from_editmesh_setup_data t type em st = Ok (data, st') ->
  st' = st /\
  forall st2, bvhtree_from_editmesh_setup_data t type em st2 = Ok (data, st2).
Proof.
  unfold bvhtree_from_editmesh_setup_data. destruct type; intros H; inv_M; done.
Qed.

Lemma item_eta it : it = {| is_filled := is_filled it; tree := tree it |}.
Proof. by destruct it. Qed.

Lemma bvhcache_find_nolock_Ok type r st found t st' :
  bvhcache_find_nolock type r st = Ok ((found, t), st') ->
  st' = st /\
  if found then slot_is type {| is_filled := true; tree := t |} st else t = r.
Proof.
  intros H. pose proof (find_nolock_same _ _ _ _ _ H) as ->. split; [done|].
  unfold bvhcache_find_nolock in H.
  apply bind_Ok in H as (c & st1 & Hg & H). unfold gets in Hg. injection Hg as <- <-.
  destruct (bvh_cache st) as [c|] eqn:Hc; [|by inv_M].
  apply bind_Ok in H as (it & st1 & Hi & H). unfold cache_item in Hi.
  apply index_Ok in Hi as [Hi ->].
  destruct (is_filled it) eqn:Hf; inv_M; [|done].
  exists c. split; [done|]. by rewrite Hi, (item_eta it), Hf.
Qed.

Lemma bvhcache_find_Ok type r do_lock st found t locked st' :
  bvhcache_find type r do_lock st = Ok ((found, t, locked), st') ->
  if found then slot_is type {| is_filled := true; tree := t |} st' /\ locked = false
  else t = r.
Proof.
  unfold bvhcache_find. destruct do_lock; simpl; intros H.
  - apply bind_Ok in H as (c0 & st1 & _ & H).
    apply bind_Ok in H as ([] & st2 & _ & H).
    apply bind_Ok in H as (c & st3 & [Hc ->]%the_cache_Ok & H).
    apply bind_Ok in H as (it & st3 & Hi & H). unfold cache_item in Hi.
    apply index_Ok in Hi as [Hi ->].
    destruct (is_filled it) eqn:Hf.
    + inv_M. split; [|done]. exists c. split; [done|].
      by rewrite Hi, (item_eta it), Hf.
    + apply bind_Ok in H as ([] & st3 & Hlock & H).
      apply bind_Ok in H as ([in_cache t'] & st4 & Hfind & H).
      apply bvhcache_find_nolock_Ok in Hfind as [-> Hfind].
      cbv zeta in H. simpl in H. destruct in_cache.
      * apply bind_Ok in H as ([] & st4 & Hunlock & H). inv_M.
        split; [|done].
        eapply evolves_keeps_slot; [by eapply unlock_cache_evolves|done|done].
      * by inv_M.
  - apply bind_Ok in H as ([found' t'] & st1 & Hfind & H). inv_M.
    apply bvhcache_find_nolock_Ok in Hfind as [-> Hfind].
    simpl in *. destruct found; [done|done].
Qed.

(** What a successful [BKE_bvhtree_from_mesh_get] establishes: the slot of
    the variant holds the tree returned, and the bundle is the one set up
    for the variant, with that tree, marked cached. *)
Lemma BKE_bvhtree_from_mesh_get_Ok mesh type tree_type st data t st' :
  BKE_bvhtree_from_mesh_get mesh type tree_type st = Ok ((data, t), st') ->
  slot_is type {| is_filled := true; tree := t |} st' /\
  exists data0,
    (forall st2,
        bvhtree_from_mesh_setup_data
          None type (span_data (vert_positions mesh)) (span_data (edges mesh))
          (mface mesh) (span_data (loops mesh))
          match type with
          | BVHTREE_FROM_LOOPTRI | BVHTREE_FROM_LOOPTRI_NO_HIDDEN => looptris mesh
          | _ => []
          end st2 = Ok (data0, st2)) /\
    data = fm_set_cached true (fm_set_tree t data0).
Proof.
  unfold BKE_bvhtree_from_mesh_get. cbv zeta. intros H.
  apply bind_Ok in H as (data0 & st1 & Hsetup & H).
  apply mesh_setup_data_pure in Hsetup as [-> Hsetup].
  apply bind_Ok in H as ([[found t0] locked] & st1 & Hfind & H).
  apply bvhcache_find_Ok in Hfind. simpl in H.
  destruct found.
  - destruct Hfind as [Hslot ->]. inv_M. simpl. split; [done|]. eauto.
  - apply bind_Ok in H as (t1 & st2 & _ & H).
    apply bind_Ok in H as ([] & st3 & _ & H).
    apply bind_Ok in H as ([] & st4 & _ & H).
    apply bind_Ok in H as ([] & st5 & Hins & H).
    apply bind_Ok in H as ([] & st6 & Hunlock & H). inv_M. simpl.
    apply bvhcache_insert_Ok in Hins as [_ Hslot].
    split; [|eauto].
    eapply evolves_keeps_slot; [by eapply bvhcache_unlock_evolves|done|done].
Qed.

(** On a filled slot the acquisition is a pure lookup. *)
Lemma BKE_bvhtree_from_mesh_get_hit mesh type tree_type st data0 t :
  bvhtree_from_mesh_setup_data
    None type (span_data (vert_positions mesh)) (span_data (edges mesh))
    (mface mesh) (span_data (loops mesh))
    match type with
    | BVHTREE_FROM_LOOPTRI | BVHTREE_FROM_LOOPTRI_NO_HIDDEN => looptris mesh
    | _ => []
    end st = Ok (data0, st) ->
  slot_is type {| is_filled := true; tree := t |} st ->
  BKE_bvhtree_from_mesh_get mesh type tree_type st
  = Ok ((fm_set_cached true (fm_set_tree t data0), t), st).
Proof.
  intros Hsetup Hslot. unfold BKE_bvhtree_from_mesh_get. cbv zeta.
  rewrite (bind_Ok_intro _ _ _ _ _ Hsetup).
  rewrite (bind_Ok_intro _ _ _ _ _ (bvhcache_find_hit _ _ _ _ _ Hslot)).
  done.
Qed.

(** C4.  Once [bvhcache_insert] has stored the null tree in a slot, every
    later [bvhcache_find] on that variant, after any run of operations, is a
    hit that returns the null tree and changes nothing: the hit is decided
    by [is_filled]; and an acquisition of the variant returns the null tree
    without building anything. *)
Theorem absent_index_is_cached type st st' :
  bvhcache_insert None type st = Ok (tt, st') ->
  forall ops st'', st'' ∈ run_trace ops st' ->
    (forall r do_lock,
        bvhcache_find type r do_lock st'' = Ok ((true, None, false), st''))
    /\ (forall mesh tree_type data t st3,
           BKE_bvhtree_from_mesh_get mesh type tree_type st'' = Ok ((data, t), st3) ->
           t = None /\ st3 = st'').
Proof.
  intros [_ Hslot]%bvhcache_insert_Ok ops st'' Hin.
  assert (slot_is type {| is_filled := true; tree := None |} st'') as Hslot''.
  { eapply evolves_keeps_slot; [by apply run_trace_evolves in Hin|done|done]. }
  split.
  - intros r do_lock. by apply bvhcache_find_hit.
  - intros mesh tree_type data t st3 H.
    pose proof H as (_ & data0 & Hsetup & _)%BKE_bvhtree_from_mesh_get_Ok.
    rewrite (BKE_bvhtree_from_mesh_get_hit _ _ _ _ _ _ (Hsetup st'') Hslot'') in H.
    by inv_M.
Qed.

Lemma absent_index_is_cached_witness :
  exists st',
    bvhcache_insert None BVHTREE_FROM_VERTS
      (set_bvh_cache (Some bvhcache_init) fresh_state) = Ok (tt, st') /\
    bvhcache_find BVHTREE_FROM_VERTS (Some 7) true st' = Ok ((true, None, false), st').
Proof.
  destruct (bvhcache_insert None BVHTREE_FROM_VERTS
              (set_bvh_cache (Some bvhcache_init) fresh_state))
    as [[[] st']|e] eqn:E.
  - exists st'. split; [reflexivity|].
    apply (absent_index_is_cached _ _ _ E [] st').
    simpl. apply list_elem_of_singleton. reflexivity.
  - vm_compute in E. discriminate E.
Defined.

(** ** C1: acquiring twice *)

(** C1.  After a successful [BKE_bvhtree_from_mesh_get], a second call for
    the same mesh and variant finds the slot filled, returns the same tree
    and the same bundle, and leaves the state as it is: no hierarchy is
    allocated and nothing is inserted. *)
Theorem acquire_twice_hits_cache mesh type tree_type st data t st' :
  BKE_bvhtree_from_mesh_get mesh type tree_type st = Ok ((data, t), st') ->
  bvhcache_find type None true st' = Ok ((true, t, false), st')
  /\ exists st'',
       BKE_bvhtree_from_mesh_get mesh type tree_type st' = Ok ((data, t), st'')
       /\ n_insert st'' = n_insert st' /\ n_new st'' = n_new st'
       /\ st'' = st'.
Proof.
  intros (Hslot & data0 & Hsetup & ->)%BKE_bvhtree_from_mesh_get_Ok.
  split; [by apply bvhcache_find_hit|].
  exists st'. split; [|done].
  by apply BKE_bvhtree_from_mesh_get_hit.
Qed.

Lemma acquire_twice_hits_cache_witness :
  exists data st',
    BKE_bvhtree_from_mesh_get strip_mesh BVHTREE_FROM_LOOSEEDGES 4 fresh_state
    = Ok ((data, Some 0), st')
    /\ n_insert st' = 2
    /\ BKE_bvhtree_from_mesh_get strip_mesh BVHTREE_FROM_LOOSEEDGES 4 st'
       = Ok ((data, Some 0), st').
Proof.
  destruct (BKE_bvhtree_from_mesh_get strip_mesh BVHTREE_FROM_LOOSEEDGES 4 fresh_state)
    as [[[data t] st']|e] eqn:E.
  - assert (t = Some 0 /\ n_insert st' = 2) as [-> Hn].
    { vm_compute in E. injection E as _ <- <-. split; reflexivity. }
    exists data, st'. split; [reflexivity|]. split; [exact Hn|].
    destruct (acquire_twice_hits_cache _ _ _ _ _ _ _ E) as (_ & st'' & H2 & _ & _ & ->).
    exact H2.
  - vm_compute in E. discriminate E.
Defined.

(** ** C5: releasing a bundle *)

Lemma free_bvhtree_from_mesh_spec data st :
  exists st',
    free_bvhtree_from_mesh data st = Ok (BVHTreeFromMesh_zero, st')
    /\ cache_untouched st st'
    /\ heap st' = if fm_cached data then heap st
                  else match fm_tree data with
                       | Some a => delete a (heap st)
                       | None => heap st
                       end.
Proof.
  unfold free_bvhtree_from_mesh.
  destruct data as [[a|] ? ? ? ? ? ? ? []]; simpl; eexists; (split; [reflexivity|]); done.
Qed.

Lemma free_bvhtree_from_editmesh_spec data st :
  exists st',
    free_bvhtree_from_editmesh data st
    = Ok (if is_null (fem_tree data) then data else BVHTreeFromEditMesh_zero, st')
    /\ cache_untouched st st'
    /\ heap st' = if fem_cached data then heap st
                  else match fem_tree data with
                       | Some a => delete a (heap st)
                       | None => heap st
                       end.
Proof.
  unfold free_bvhtree_from_editmesh.
  destruct data as [[a|] ? ? ? []]; simpl; eexists; (split; [reflexivity|]); done.
Qed.

(** C5.  Releasing a bundle frees its tree exactly when the bundle is not
    marked cached: [free_bvhtree_from_mesh] and [free_bvhtree_from_editmesh]
    leave the heap as it is for a cached bundle and remove the tree of an
    uncached one, and never touch the cache.  So after an acquisition and
    the release of its bundle, the same acquisition still returns the tree
    built before, with the heap unchanged. *)
Theorem release_frees_iff_not_cached :
  (forall data st, exists st',
      free_bvhtree_from_mesh data st = Ok (BVHTreeFromMesh_zero, st')
      /\ cache_untouched st st'
      /\ heap st' = if fm_cached data then heap st
                    else match fm_tree data with
                         | Some a => delete a (heap st)
                         | None => heap st
                         end)
  /\ (forall data st, exists st',
         free_bvhtree_from_editmesh data st
         = Ok (if is_null (fem_tree data) then data else BVHTreeFromEditMesh_zero, st')
         /\ cache_untouched st st'
         /\ heap st' = if fem_cached data then heap st
                       else match fem_tree data with
                            | Some a => delete a (heap st)
                            | None => heap st
                            end)
  /\ (forall mesh type tree_type st data t st1,
         BKE_bvhtree_from_mesh_get mesh type tree_type st = Ok ((data, t), st1) ->
         fm_cached data = true
         /\ free_bvhtree_from_mesh data st1 = Ok (BVHTreeFromMesh_zero, st1)
         /\ BKE_bvhtree_from_mesh_get mesh type tree_type st1 = Ok ((data, t), st1)).
Proof.
  split; [exact free_bvhtree_from_mesh_spec|].
  split; [exact free_bvhtree_from_editmesh_spec|].
  intros mesh type tree_type st data t st1 H.
  pose proof H as (Hslot & data0 & Hsetup & ->)%BKE_bvhtree_from_mesh_get_Ok.
  split; [done|]. split.
  - unfold free_bvhtree_from_mesh. simpl. by rewrite andb_false_r.
  - by apply BKE_bvhtree_from_mesh_get_hit.
Qed.

Lemma release_frees_iff_not_cached_witness :
  exists data st1,
    BKE_bvhtree_from_mesh_get strip_mesh BVHTREE_FROM_EDGES 4 fresh_state
    = Ok ((data, Some 0), st1)
    /\ fm_cached data = true
    /\ free_bvhtree_from_mesh data st1 = Ok (BVHTreeFromMesh_zero, st1)
    /\ BKE_bvhtree_from_mesh_get strip_mesh BVHTREE_FROM_EDGES 4 st1
       = Ok ((data, Some 0), st1).
Proof.
  destruct (BKE_bvhtree_from_mesh_get strip_mesh BVHTREE_FROM_EDGES 4 fresh_state)
    as [[[data t] st1]|e] eqn:E.
  - assert (t = Some 0) as ->.
    { vm_compute in E. injection E as _ <- _. reflexivity. }
    exists data, st1. split; [reflexivity|].
    exact (proj2 (proj2 release_frees_iff_not_cached) _ _ _ _ _ _ _ E).
  - vm_compute in E. discriminate E.
Defined.

(** An uncached bundle, built for the caller alone, is freed by its
    release. *)
Example release_uncached_frees :
  let em := {| bm := {| vtable := [ {| co := v3 0 0 0 |}; {| co := v3 1 0 0 |} ];
                        etable := [] |};
               em_looptris := [] |} in
  match BKE_bvhtree_from_editmesh_get em 4 BVHTREE_FROM_EM_VERTS false fresh_state with
  | Ok ((data, t), st1) =>
      t = Some 0 /\ fem_cached data = false /\ is_Some (heap st1 !! 0) /\
      match free_bvhtree_from_editmesh data st1 with
      | Ok (_, st2) => heap st2 !! 0 = None
      | Err _ => False
      end
  | Err _ => False
  end.
Proof. vm_compute. repeat split. by eexists. Qed.

(** ** C6: the ray-cast callbacks over triangles *)

Section RayCast.
Context `{BLI_math}.

Lemma closer_test dist hit :
  F32.geb dist F32.zero && F32.ltb dist (hit_dist hit) = true <-> closer dist hit.
Proof. unfold closer, F32.geb, F32.ltb. by rewrite andb_true_iff. Qed.

Lemma hit_rule_intro index ray t0 t1 t2 hit :
  hit_rule index ray t0 t1 t2 hit
    (let dist := ray_tri_distance ray (hit_dist hit) t0 t1 t2 in
     if F32.geb dist F32.zero && F32.ltb dist (hit_dist hit)
     then hit_overwritten index ray t0 t1 t2 dist else hit).
Proof.
  unfold hit_rule. cbv zeta.
  destruct (F32.geb _ _ && F32.ltb _ _) eqn:E.
  - split; [done|]. intros Hn. by apply closer_test in E.
  - split; [|done]. intros Hc%closer_test. congruence.
Qed.

Lemma mesh_looptri_spherecast_rule data index ray hit hit' :
  mesh_looptri_spherecast data index ray hit = Ok hit' ->
  exists t0 t1 t2,
    mesh_looptri_vtri_co data index = Ok (t0, t1, t2)
    /\ hit_rule index ray t0 t1 t2 hit hit'.
Proof.
  unfold mesh_looptri_spherecast.
  destruct (mesh_looptri_vtri_co data index) as [[[t0 t1] t2]|e]; simpl; [|done].
  intros Hr. exists t0, t1, t2. split; [done|].
  pose proof (hit_rule_intro index ray t0 t1 t2 hit) as Hrule.
  cbv zeta in Hrule. fold (ray_tri_distance ray (hit_dist hit) t0 t1 t2) in Hr.
  fold (hit_overwritten index ray t0 t1 t2
          (ray_tri_distance ray (hit_dist hit) t0 t1 t2)) in Hr.
  destruct (F32.geb _ _ && F32.ltb _ _); injection Hr as <-; exact Hrule.
Qed.

Lemma editmesh_looptri_spherecast_rule data index ray hit hit' :
  editmesh_looptri_spherecast data index ray hit = Ok hit' ->
  exists t0 t1 t2,
    editmesh_looptri_corners data index = Ok (t0, t1, t2)
    /\ hit_rule index ray t0 t1 t2 hit hit'.
Proof.
  unfold editmesh_looptri_spherecast.
  destruct (editmesh_looptri_corners data index) as [[[t0 t1] t2]|e]; simpl; [|done].
  intros Hr. exists t0, t1, t2. split; [done|].
  pose proof (hit_rule_intro index ray t0 t1 t2 hit) as Hrule.
  cbv zeta in Hrule. fold (ray_tri_distance ray (hit_dist hit) t0 t1 t2) in Hr.
  fold (hit_overwritten index ray t0 t1 t2
          (ray_tri_distance ray (hit_dist hit) t0 t1 t2)) in Hr.
  destruct (F32.geb _ _ && F32.ltb _ _); injection Hr as <-; exact Hrule.
Qed.

Lemma mesh_faces_spherecast_rule data index ray hit hit' :
  mesh_faces_spherecast data index ray hit = Ok hit' ->
  exists t0 t1 t2 t3 hit1,
    mesh_faces_corners data index = Ok (t0, t1, t2, t3)
    /\ hit_rule index ray t0 t1 t2 hit hit1
    /\ match t3 with
       | Some t3 => hit_rule index ray t0 t2 t3 hit1 hit'
       | None => hit' = hit1
       end.
Proof.
  unfold mesh_faces_spherecast.
  destruct (mesh_faces_corners data index) as [[[[t0 t1] t2] t3]|e]; simpl; [|done].
  intros Hr. exists t0, t1, t2, t3. eexists.
  split; [done|]. split; [apply hit_rule_intro|].
  destruct t3 as [t3|]; injection Hr as <-; [|done].
  apply hit_rule_intro.
Qed.
End RayCast.


(** The callbacks return whenever the corners of the triangle can be
    fetched. *)
Lemma spherecast_total `{BLI_math} :
  (forall data index ray hit c,
      mesh_faces_corners data index = Ok c ->
      exists hit', mesh_faces_spherecast data index ray hit = Ok hit')
  /\ (forall data index ray hit c,
         mesh_looptri_vtri_co data index = Ok c ->
         exists hit', mesh_looptri_spherecast data index ray hit = Ok hit')
  /\ (forall data index ray hit c,
         editmesh_looptri_corners data index = Ok c ->
         exists hit', editmesh_looptri_spherecast data index ray hit = Ok hit').
Proof.
  repeat split; intros data index ray hit c Hc.
  - unfold mesh_faces_spherecast. rewrite Hc. simpl.
    destruct c as [[[t0 t1] t2] [t3|]]; eauto.
  - unfold mesh_looptri_spherecast. rewrite Hc. simpl.
    destruct c as [[t0 t1] t2]. destruct (_ && _); eauto.
  - unfold editmesh_looptri_spherecast. rewrite Hc. simpl.
    destruct c as [[t0 t1] t2]. destruct (_ && _); eauto.
Qed.


(** ** C8: loose vertices *)

Lemma active_bits_cons b mask :
  active_bits (b :: mask) = (if b then 1 else 0) + active_bits mask.
Proof.
  unfold active_bits. rewrite filter_cons.
  destruct b; by case_decide.
Qed.

Lemma active_bits_replicate_true n : active_bits (replicate n true) = n.
Proof. induction n as [|n IH]; [done|]. simpl. rewrite active_bits_cons. lia. Qed.

Lemma active_bits_replicate_false n : active_bits (replicate n false) = 0.
Proof. induction n as [|n IH]; [done|]. simpl. by rewrite active_bits_cons. Qed.

Lemma active_bits_app m1 m2 : active_bits (m1 ++ m2) = active_bits m1 + active_bits m2.
Proof. unfold active_bits. by rewrite filter_app, length_app. Qed.

Lemma active_bits_reset mask v :
  mask !! v = Some true -> S (active_bits (<[v := false]> mask)) = active_bits mask.
Proof.
  revert v. induction mask as [|b mask IH]; intros [|v]; simpl; try done.
  - intros [= ->]. by rewrite !active_bits_cons.
  - intros Hv. rewrite !active_bits_cons. rewrite <- (IH v Hv). lia.
Qed.

Lemma loose_inv_visit verts_num mask n T v :
  loose_inv verts_num mask n T -> v < verts_num ->
  exists b,
    at_index mask v = Ok b
    /\ loose_inv verts_num
         (if b then <[v := false]> mask else mask)
         (if b then n + 1 else n)%Z
         (T ∪ {[v]}).
Proof.
  intros (Hlen & Hbits & Hn & Hcount) Hv.
  exists (bool_decide (v ∉ T)). unfold at_index. rewrite (Hbits v Hv). split; [done|].
  case_bool_decide as HvT.
  - assert (size (T ∪ {[v]}) = size T + 1) as Hsize.
    { rewrite size_union; [by rewrite size_singleton|].
      apply disjoint_singleton_r. exact HvT. }
    split; [by rewrite length_insert|]. split; [|split].
    + intros i Hi. destruct (decide (i = v)) as [->|Hne].
      * rewrite list_lookup_insert_eq by lia. f_equal. symmetry.
        apply bool_decide_eq_false. set_solver.
      * rewrite list_lookup_insert_ne by done. rewrite (Hbits i Hi). f_equal.
        apply bool_decide_ext. set_solver.
    + lia.
    + rewrite Hsize.
      pose proof (active_bits_reset mask v) as Hr.
      rewrite (Hbits v Hv) in Hr. rewrite bool_decide_eq_true_2 in Hr by done.
      specialize (Hr eq_refl). lia.
  - assert (T ∪ {[v]} = T) as -> by set_solver.
    done.
Qed.

Lemma loose_verts_loop_spec verts_num edges :
  forall mask n T,
    loose_inv verts_num mask n T ->
    (forall e, e ∈ edges -> e_v1 e < verts_num /\ e_v2 e < verts_num) ->
    exists mask' n',
      loose_verts_loop edges mask n = Ok (mask', n')
      /\ loose_inv verts_num mask' n' (T ∪ edge_touched edges).
Proof.
  induction edges as [|e edges IH]; intros mask n T Hinv Hin.
  - exists mask, n. split; [done|].
    unfold edge_touched. simpl. by rewrite union_empty_r_L.
  - destruct (Hin e) as [Hv1 Hv2]; [by left|].
    destruct (loose_inv_visit _ _ _ _ _ Hinv Hv1) as (b1 & Hb1 & Hinv1).
    destruct (loose_inv_visit _ _ _ _ _ Hinv1 Hv2) as (b2 & Hb2 & Hinv2).
    destruct (IH _ _ _ Hinv2) as (mask' & n' & Hloop & Hinv').
    { intros e' He'. apply Hin. by right. }
    exists mask', n'. split.
    + simpl. rewrite Hb1. simpl. destruct b1; rewrite Hb2; simpl;
        destruct b2; exact Hloop.
    + assert (T ∪ edge_touched (e :: edges)
              = T ∪ {[e_v1 e]} ∪ {[e_v2 e]} ∪ edge_touched edges) as ->; [|done].
      unfold edge_touched. simpl. set_solver.
Qed.

(** C8.  On edges whose endpoints are vertices of the mesh,
    [loose_verts_map_get] returns a mask with one bit per vertex, set
    exactly for the vertices that no edge has as an endpoint, and a count
    that is the number of vertices minus the number of distinct endpoints;
    the count is the number of bits set. *)
Theorem loose_verts_map_get_spec edges verts_num :
  (0 <= verts_num)%Z ->
  (forall e, e ∈ edges ->
     (Z.of_nat (e_v1 e) < verts_num)%Z /\ (Z.of_nat (e_v2 e) < verts_num)%Z) ->
  exists mask,
    loose_verts_map_get edges verts_num
    = Ok (mask, (verts_num - Z.of_nat (size (edge_touched edges)))%Z)
    /\ length mask = Z.to_nat verts_num
    /\ (forall i, i < Z.to_nat verts_num ->
          mask !! i = Some (bool_decide (i ∉ edge_touched edges)))
    /\ Z.of_nat (active_bits mask)
       = (verts_num - Z.of_nat (size (edge_touched edges)))%Z.
Proof.
  intros Hpos Hin.
  destruct (loose_verts_loop_spec (Z.to_nat verts_num) edges
              (replicate (Z.to_nat verts_num) true) 0%Z ∅)
    as (mask & n & Hloop & Hlen & Hbits & Hn & Hcount).
  - split; [by rewrite length_replicate|]. split; [|split].
    + intros i Hi. rewrite lookup_replicate_2 by done. done.
    + by rewrite size_empty.
    + rewrite active_bits_replicate_true, size_empty. lia.
  - intros e He. destruct (Hin e He). lia.
  - rewrite union_empty_l_L in *.
    exists mask. unfold loose_verts_map_get.
    destruct (verts_num <? 0)%Z eqn:Hneg; [lia|].
    rewrite Hloop. simpl. subst n.
    split; [done|]. split; [done|]. split; [done|]. lia.
Qed.

Lemma loose_verts_map_get_spec_witness :
  let edges := [ {| e_v1 := 0; e_v2 := 1 |}; {| e_v1 := 1; e_v2 := 3 |} ] in
  exists mask,
    loose_verts_map_get edges 5
    = Ok (mask, (5 - Z.of_nat (size (edge_touched edges)))%Z)
    /\ length mask = Z.to_nat 5
    /\ (forall i, i < Z.to_nat 5 ->
          mask !! i = Some (bool_decide (i ∉ edge_touched edges)))
    /\ Z.of_nat (active_bits mask) = (5 - Z.of_nat (size (edge_touched edges)))%Z.
Proof.
  intros edges. apply (loose_verts_map_get_spec edges 5).
  - lia.
  - intros e He. apply list_elem_of_In in He. simpl in He.
    destruct He as [<-|[<-|[]]]; simpl; lia.
Defined.

(** The mask and the count on that input: vertices 2 and 4 are loose. *)
Example loose_verts_map_get_example :
  loose_verts_map_get [ {| e_v1 := 0; e_v2 := 1 |}; {| e_v1 := 1; e_v2 := 3 |} ] 5
  = Ok ([false; false; true; false; true], 2%Z).
Proof. reflexivity. Qed.

(** ** C7: the triangles of the polygons that are not hidden *)

Lemma VArray_get_to_list {A} (v : VArray A) i :
  VArray_get v i = at_index (VArray_to_list v) i.
Proof.
  destruct v as [x n|l]; simpl; [|done]. unfold at_index.
  case_decide.
  - by rewrite lookup_replicate_2.
  - by rewrite (proj1 (lookup_replicate_None n x i)) by lia.
Qed.

Lemma looptri_set_run_spec n :
  forall done k cnt,
    n <= k ->
    looptri_set_run n (done ++ replicate k false) (Z.of_nat (length done)) cnt
    = Ok (done ++ replicate n true ++ replicate (k - n) false,
          Z.of_nat (length done + n), (cnt + Z.of_nat n)%Z).
Proof.
  induction n as [|n IH]; intros done k cnt Hk.
  - simpl. repeat f_equal; lia.
  - cbn [looptri_set_run]. rewrite length_app, length_replicate.
    destruct (_ && _) eqn:Hrange.
    2:{ apply andb_false_iff in Hrange as [?%Z.leb_gt|?%Z.ltb_ge]; lia. }
    rewrite Nat2Z.id. destruct k as [|k]; [lia|].
    assert (<[length done := true]> (done ++ replicate (S k) false)
            = (done ++ [true]) ++ replicate k false) as ->.
    { rewrite insert_app_r_alt by lia. rewrite Nat.sub_diag. simpl.
      by rewrite <- app_assoc. }
    assert (Z.of_nat (length done) + 1 = Z.of_nat (length (done ++ [true])))%Z as ->.
    { rewrite length_app. simpl. lia. }
    rewrite IH by lia. rewrite <- app_assoc. simpl.
    rewrite length_app. simpl. f_equal. rewrite !pair_equal_spec.
    split; [split|]; [done|lia|lia].
Qed.

Lemma no_hidden_bits_length_cons p ps h hs :
  length (no_hidden_bits (p :: ps) (h :: hs))
  = Z.to_nat (ME_POLY_TRI_TOT p) + length (no_hidden_bits ps hs).
Proof. simpl. by rewrite length_app, length_replicate. Qed.

Lemma looptri_no_hidden_loop_spec hide_poly polys :
  forall i done k cnt,
    (forall p, p ∈ polys -> (0 <= ME_POLY_TRI_TOT p)%Z) ->
    i + length polys <= length (VArray_to_list hide_poly) ->
    let bits := no_hidden_bits polys (drop i (VArray_to_list hide_poly)) in
    length bits <= k ->
    looptri_no_hidden_loop polys i hide_poly (done ++ replicate k false)
                           (Z.of_nat (length done)) cnt
    = Ok (done ++ bits ++ replicate (k - length bits) false,
          (cnt + Z.of_nat (active_bits bits))%Z).
Proof.
  induction polys as [|p ps IH]; intros i done k cnt Hpos Hlen bits Hk.
  - simpl in *. subst bits. simpl. rewrite Nat.sub_0_r.
    f_equal. rewrite pair_equal_spec. split; [done|].
    unfold active_bits. simpl. lia.
  - simpl in Hlen.
    destruct (drop i (VArray_to_list hide_poly)) as [|h hs] eqn:Hdrop.
    { apply (f_equal length) in Hdrop. rewrite length_drop in Hdrop. simpl in Hdrop. lia. }
    assert (VArray_to_list hide_poly !! i = Some h) as Hi.
    { rewrite <- (Nat.add_0_r i), <- lookup_drop, Hdrop. done. }
    assert (drop (S i) (VArray_to_list hide_poly) = hs) as Hdrop'.
    { replace (S i) with (i + 1) by lia. by rewrite <- drop_drop, Hdrop. }
    assert (0 <= ME_POLY_TRI_TOT p)%Z as Hp by (apply Hpos; by left).
    subst bits. rewrite no_hidden_bits_length_cons in Hk.
    cbn [looptri_no_hidden_loop]. rewrite VArray_get_to_list. unfold at_index.
    rewrite Hi. simpl. set (n := Z.to_nat (ME_POLY_TRI_TOT p)) in *.
    destruct h; simpl.
    + (* hidden: the run is skipped *)
      replace (done ++ replicate k false)
        with ((done ++ replicate n false) ++ replicate (k - n) false).
      2:{ rewrite <- app_assoc. f_equal. rewrite <- replicate_add. f_equal. lia. }
      replace (Z.of_nat (length done) + ME_POLY_TRI_TOT p)%Z
        with (Z.of_nat (length (done ++ replicate n false))).
      2:{ rewrite length_app, length_replicate. lia. }
      rewrite IH; rewrite ?Hdrop'; [|set_solver|lia|lia].
      rewrite active_bits_app, active_bits_replicate_false.
      rewrite <- !app_assoc, length_app, length_replicate.
      by rewrite Nat.sub_add_distr.
    + (* visible: the run is set *)
      destruct (ME_POLY_TRI_TOT p <? 0)%Z eqn:Hneg; [lia|].
      rewrite looptri_set_run_spec by lia. simpl.
      replace (done ++ replicate n true ++ replicate (k - n) false)
        with ((done ++ replicate n true) ++ replicate (k - n) false)
        by (by rewrite <- app_assoc).
      replace (Z.of_nat (length done + n))
        with (Z.of_nat (length (done ++ replicate n true)))
        by (by rewrite length_app, length_replicate).
      rewrite IH; rewrite ?Hdrop'; [|set_solver|lia|lia].
      rewrite active_bits_app, active_bits_replicate_true.
      rewrite <- !app_assoc, length_app, length_replicate.
      rewrite Nat.sub_add_distr. f_equal. rewrite pair_equal_spec.
      split; [done|lia].
Qed.

(** ** The builders *)

Lemma the_tree_Ok t st tr st' :
  the_tree t st = Ok (tr, st') -> heap st !! t = Some tr /\ st' = st.
Proof.
  unfold the_tree. intros H.
  apply bind_Ok in H as (h & st1 & Hg & H). unfold gets in Hg. injection Hg as <- <-.
  destruct (heap st !! t); by inv_M.
Qed.

Lemma BLI_bvhtree_insert_Ok t i co st st' :
  BLI_bvhtree_insert t i co st = Ok (tt, st') ->
  n_insert st' = S (n_insert st)
  /\ forall tr, heap st !! t = Some tr -> heap st' !! t = Some (add_leaf i co tr).
Proof.
  unfold BLI_bvhtree_insert. intros H.
  apply bind_Ok in H as (tr & st1 & [Htr ->]%the_tree_Ok & H). inv_M. simpl.
  split; [done|]. intros tr' Htr'. rewrite lookup_insert_eq. congruence.
Qed.

Lemma BLI_bvhtree_get_len_Ok t st n st' :
  BLI_bvhtree_get_len t st = Ok (n, st') -> st' = st.
Proof.
  unfold BLI_bvhtree_get_len. intros H.
  apply bind_Ok in H as (tr & st1 & [Htr ->]%the_tree_Ok & H). by inv_M.
Qed.

Lemma BLI_bvhtree_new_Ok maxsize epsilon tree_type axis st t st' :
  BLI_bvhtree_new maxsize epsilon tree_type axis st = Ok (Some t, st') ->
  heap st' !! t = Some (empty_tree maxsize epsilon (char_of_int tree_type)
                                   (char_of_int axis))
  /\ heap st !! t = None
  /\ n_insert st' = n_insert st /\ n_new st' = S (n_new st).
Proof.
  unfold BLI_bvhtree_new. intros H. inv_M.
  destruct (alloc_failures _) as [|[] ?]; inv_M; simpl; try done.
  all: rewrite lookup_insert_eq; split; [done|]; split; [|done].
  all: apply not_elem_of_dom, is_fresh.
Qed.

Lemma mask_skips_Ok mask i st skip st' :
  mask_skips mask i st = Ok (skip, st') -> st' = st /\ skip = negb (active mask i).
Proof.
  unfold mask_skips, active. destruct mask as [|b mask]; simpl; intros H; inv_M; [done|].
  split; [done|]. match goal with E : _ !! _ = Some _ |- _ => by rewrite E end.
Qed.

Lemma inserts_at_skip t mask i st :
  active mask i = false -> inserts_at t mask i st st.
Proof.
  intros Ha. unfold inserts_at. rewrite Ha. split; [lia|].
  intros tr Htr. exists tr. by rewrite app_nil_r.
Qed.

Lemma inserts_at_insert t mask i co st st' :
  active mask i = true ->
  BLI_bvhtree_insert t (Z.of_nat i) co st = Ok (tt, st') ->
  inserts_at t mask i st st'.
Proof.
  intros Ha [Hn Hheap]%BLI_bvhtree_insert_Ok. unfold inserts_at. rewrite Ha.
  split; [lia|]. intros tr Htr. exists (add_leaf (Z.of_nat i) co tr).
  split; [by apply Hheap|]. unfold inserted_indices. simpl. by rewrite fmap_app.
Qed.

(** The loop of a builder, given what each turn does. *)
Lemma for_each_inserts t mask body l :
  (forall i st st', body i st = Ok (tt, st') -> inserts_at t mask i st st') ->
  forall st st' tr,
    for_each l body st = Ok (tt, st') -> heap st !! t = Some tr ->
    n_insert st' = n_insert st + length (filter (fun i => active mask i = true) l)
    /\ exists tr',
         heap st' !! t = Some tr'
         /\ inserted_indices tr'
            = inserted_indices tr ++ (Z.of_nat <$> filter (fun i => active mask i = true) l).
Proof.
  intros Hbody. induction l as [|i l IH]; intros st st' tr H Htr.
  - simpl in H. inv_M. split; [simpl; lia|]. exists tr. by rewrite app_nil_r.
  - simpl in H. apply bind_Ok in H as ([] & st1 & Hi & H).
    destruct (Hbody _ _ _ Hi) as [Hn (tr1 & Htr1 & Hidx1)%(fun f => f tr Htr)].
    destruct (IH _ _ _ H Htr1) as [Hn' (tr' & Htr' & Hidx')].
    rewrite filter_cons. destruct (active mask i); simpl in *.
    + split; [lia|].
      exists tr'. split; [done|]. rewrite Hidx', Hidx1, <- app_assoc. done.
    + split; [lia|].
      exists tr'. split; [done|]. by rewrite Hidx', Hidx1, app_nil_r.
Qed.

Lemma resolve_active_Ok mask num_active total st r st' :
  (if negb (BitSpan_is_empty mask) then
     BLI_assert (IN_RANGE_INCL num_active 0 total) ;; ret num_active
   else ret total) st = Ok (r, st') ->
  st' = st
  /\ r = (if BitSpan_is_empty mask then total else num_active)
  /\ (BitSpan_is_empty mask = false -> IN_RANGE_INCL num_active 0 total = true).
Proof. destruct (BitSpan_is_empty mask); simpl; intros H; inv_M; done. Qed.

(** A turn of a loop that tests the mask and then reads the arrays and
    inserts. *)
Ltac turn_inserts :=
  let i := fresh "i" in
  let st1 := fresh "st" in
  let st2 := fresh "st" in
  let Hb := fresh "Hb" in
  let Ha := fresh "Ha" in
  intros i st1 st2 Hb;
  apply bind_Ok in Hb as (? & ? & [-> ->]%mask_skips_Ok & Hb);
  destruct (active _ i) eqn:Ha; simpl in Hb;
  [ repeat (let Hx := fresh "Hx" in
            apply bind_Ok in Hb as (? & ? & Hx & Hb);
            first [ apply index_Ok in Hx as [? ->]
                  | apply index_ptr_Ok in Hx as (? & ? & ? & ->) ]);
    try (match type of Hb with context [decide ?P] => destruct (decide P) end);
    repeat (let Hx := fresh "Hx" in
            apply bind_Ok in Hb as (? & ? & Hx & Hb);
            first [ apply index_Ok in Hx as [? ->]
                  | apply index_ptr_Ok in Hx as (? & ? & ? & ->) ]);
    (eapply inserts_at_insert; [exact Ha | exact Hb])
  | unfold ret in Hb; injection Hb as <-; by apply inserts_at_skip ].

(** After the loop: the length is read, the assertion checked, the tree
    returned. *)
Lemma builder_epilogue tree n st t st' :
  (len <- BLI_bvhtree_get_len tree ;;
   BLI_assert (len =? n)%Z ;;
   ret (Some tree)) st = Ok (Some t, st') ->
  t = tree /\ st' = st.
Proof.
  intros H. apply bind_Ok in H as (len & st1 & ->%BLI_bvhtree_get_len_Ok & H).
  by inv_M.
Qed.

Lemma builder_conclude t mask (n : Z) st st1 st2 tr0 :
  heap st1 !! t = Some tr0 -> inserted_indices tr0 = [] ->
  n_insert st1 = n_insert st ->
  (n_insert st2
   = n_insert st1 + length (filter (fun i => active mask i = true) (seq 0 (Z.to_nat n)))
   /\ exists tr',
        heap st2 !! t = Some tr'
        /\ inserted_indices tr'
           = inserted_indices tr0
             ++ (Z.of_nat <$> filter (fun i => active mask i = true) (seq 0 (Z.to_nat n)))) ->
  exists tr,
    heap st2 !! t = Some tr
    /\ inserted_indices tr
       = Z.of_nat <$> filter (fun i => active mask i = true) (seq 0 (Z.to_nat n))
    /\ n_insert st2
       = n_insert st + length (filter (fun i => active mask i = true) (seq 0 (Z.to_nat n))).
Proof.
  intros Htr0 Hidx0 Hn0 [Hn (tr & Htr & Hidx)].
  exists tr. rewrite Hidx0 in Hidx. split; [done|]. split; [done|]. lia.
Qed.

Lemma mesh_edges_builds positions edge edge_num mask num_active epsilon tree_type axis
    st t st' :
  bvhtree_from_mesh_edges_create_tree
    positions edge edge_num mask num_active epsilon tree_type axis st = Ok (Some t, st') ->
  exists tr,
    heap st' !! t = Some tr
    /\ inserted_indices tr
       = Z.of_nat <$> filter (fun i => active mask i = true) (seq 0 (Z.to_nat edge_num))
    /\ n_insert st'
       = n_insert st
         + length (filter (fun i => active mask i = true) (seq 0 (Z.to_nat edge_num))).
Proof.
  unfold bvhtree_from_mesh_edges_create_tree. intros H.
  apply bind_Ok in H as (n & st0 & (-> & _ & _)%resolve_active_Ok & H).
  destruct (n =? 0)%Z; [by inv_M|].
  apply bind_Ok in H as ([tree|] & st1 & Hnew & H); [|by inv_M].
  apply BLI_bvhtree_new_Ok in Hnew as (Htree & _ & Hn0 & _).
  apply bind_Ok in H as ([] & st2 & Hloop & H). inv_M.
  eapply builder_conclude; [exact Htree|done|exact Hn0|].
  eapply for_each_inserts; [|exact Hloop|exact Htree]. turn_inserts.
Qed.

Lemma mesh_verts_builds epsilon tree_type axis positions verts_num mask num_active
    st t st' :
  bvhtree_from_mesh_verts_create_tree
    epsilon tree_type axis positions verts_num mask num_active st = Ok (Some t, st') ->
  exists tr,
    heap st' !! t = Some tr
    /\ inserted_indices tr
       = Z.of_nat <$> filter (fun i => active mask i = true) (seq 0 (Z.to_nat verts_num))
    /\ n_insert st'
       = n_insert st
         + length (filter (fun i => active mask i = true) (seq 0 (Z.to_nat verts_num))).
Proof.
  unfold bvhtree_from_mesh_verts_create_tree. intros H.
  apply bind_Ok in H as (n & st0 & (-> & _ & _)%resolve_active_Ok & H).
  destruct (n =? 0)%Z; [by inv_M|].
  apply bind_Ok in H as ([tree|] & st1 & Hnew & H); [|by inv_M].
  apply BLI_bvhtree_new_Ok in Hnew as (Htree & _ & Hn0 & _).
  apply bind_Ok in H as ([] & st2 & Hloop & H).
  apply builder_epilogue in H as [-> ->].
  eapply builder_conclude; [exact Htree|done|exact Hn0|].
  eapply for_each_inserts; [|exact Hloop|exact Htree]. turn_inserts.
Qed.

Lemma editmesh_verts_builds epsilon tree_type axis em mask num_active st t st' :
  bvhtree_from_editmesh_verts_create_tree
    epsilon tree_type axis em mask num_active st = Ok (Some t, st') ->
  exists tr,
    heap st' !! t = Some tr
    /\ inserted_indices tr
       = Z.of_nat <$> filter (fun i => active mask i = true)
                             (seq 0 (Z.to_nat (bm_totvert (bm em))))
    /\ n_insert st'
       = n_insert st
         + length (filter (fun i => active mask i = true)
                          (seq 0 (Z.to_nat (bm_totvert (bm em))))).
Proof.
  unfold bvhtree_from_editmesh_verts_create_tree. cbv zeta. intros H.
  apply bind_Ok in H as (n & st0 & (-> & _ & _)%resolve_active_Ok & H).
  apply bind_Ok in H as ([tree|] & st1 & Hnew & H); [|by inv_M].
  apply BLI_bvhtree_new_Ok in Hnew as (Htree & _ & Hn0 & _).
  apply bind_Ok in H as ([] & st2 & Hloop & H).
  apply builder_epilogue in H as [-> ->].
  eapply builder_conclude; [exact Htree|done|exact Hn0|].
  eapply for_each_inserts; [|exact Hloop|exact Htree]. turn_inserts.
Qed.

Lemma editmesh_edges_builds epsilon tree_type axis em mask num_active st t st' :
  bvhtree_from_editmesh_edges_create_tree
    epsilon tree_type axis em mask num_active st = Ok (Some t, st') ->
  exists tr,
    heap st' !! t = Some tr
    /\ inserted_indices tr
       = Z.of_nat <$> filter (fun i => active mask i = true)
                             (seq 0 (Z.to_nat (bm_totedge (bm em))))
    /\ n_insert st'
       = n_insert st
         + length (filter (fun i => active mask i = true)
                          (seq 0 (Z.to_nat (bm_totedge (bm em))))).
Proof.
  unfold bvhtree_from_editmesh_edges_create_tree. cbv zeta. intros H.
  apply bind_Ok in H as (n & st0 & (-> & _ & _)%resolve_active_Ok & H).
  apply bind_Ok in H as ([tree|] & st1 & Hnew & H); [|by inv_M].
  apply BLI_bvhtree_new_Ok in Hnew as (Htree & _ & Hn0 & _).
  apply bind_Ok in H as ([] & st2 & Hloop & H).
  apply builder_epilogue in H as [-> ->].
  eapply builder_conclude; [exact Htree|done|exact Hn0|].
  eapply for_each_inserts; [|exact Hloop|exact Htree]. turn_inserts.
Qed.

Lemma mesh_faces_builds epsilon tree_type axis positions face faces_num mask num_active
    st t st' :
  is_null positions = false -> is_null face = false ->
  bvhtree_from_mesh_faces_create_tree
    epsilon tree_type axis positions face faces_num mask num_active st = Ok (Some t, st') ->
  exists tr,
    heap st' !! t = Some tr
    /\ inserted_indices tr
       = Z.of_nat <$> filter (fun i => active mask i = true) (seq 0 (Z.to_nat faces_num))
    /\ n_insert st'
       = n_insert st
         + length (filter (fun i => active mask i = true) (seq 0 (Z.to_nat faces_num))).
Proof.
  unfold bvhtree_from_mesh_faces_create_tree. intros Hp Hf H.
  destruct (faces_num =? 0)%Z; [by inv_M|].
  apply bind_Ok in H as (n & st0 & (-> & _ & _)%resolve_active_Ok & H).
  apply bind_Ok in H as ([tree|] & st1 & Hnew & H); [|by inv_M].
  apply BLI_bvhtree_new_Ok in Hnew as (Htree & _ & Hn0 & _).
  apply bind_Ok in H as ([] & st2 & Hloop & H).
  apply builder_epilogue in H as [-> ->].
  rewrite Hp, Hf in Hloop. simpl in Hloop.
  eapply builder_conclude; [exact Htree|done|exact Hn0|].
  eapply for_each_inserts; [|exact Hloop|exact Htree]. turn_inserts.
Qed.

Lemma mesh_looptri_builds epsilon tree_type axis positions mloop looptris mask num_active
    st t st' :
  is_null positions = false ->
  bvhtree_from_mesh_looptri_create_tree
    epsilon tree_type axis positions mloop looptris mask num_active st = Ok (Some t, st') ->
  exists tr,
    heap st' !! t = Some tr
    /\ inserted_indices tr
       = Z.of_nat <$> filter (fun i => active mask i = true)
                             (seq 0 (Z.to_nat (Z.of_nat (length looptris))))
    /\ n_insert st'
       = n_insert st
         + length (filter (fun i => active mask i = true)
                          (seq 0 (Z.to_nat (Z.of_nat (length looptris))))).
Proof.
  unfold bvhtree_from_mesh_looptri_create_tree. cbv zeta. intros Hp H.
  apply bind_Ok in H as (n & st0 & (-> & -> & Hrange)%resolve_active_Ok & H).
  destruct (_ =? 0)%Z eqn:Hz; [by inv_M|].
  apply bind_Ok in H as ([tree|] & st1 & Hnew & H); [|by inv_M].
  apply BLI_bvhtree_new_Ok in Hnew as (Htree & _ & Hn0 & _).
  apply bind_Ok in H as ([] & st2 & Hloop & H).
  apply builder_epilogue in H as [-> ->].
  rewrite Hp in Hloop. simpl in Hloop.
  case_bool_decide as Hnil; simpl in Hloop.
  - (* no triangle at all: the count cannot but be zero *)
    subst looptris. simpl in *. destruct (BitSpan_is_empty mask) eqn:Hm; [done|].
    specialize (Hrange eq_refl). unfold IN_RANGE_INCL in Hrange.
    apply Z.eqb_neq in Hz.
    destruct (_ || _) eqn:Hor; [done|].
    apply orb_false_iff in Hor as [Hlo%Z.ltb_ge Hhi].
    rewrite Z.gtb_ltb in Hhi. apply Z.ltb_ge in Hhi. lia.
  - eapply builder_conclude; [exact Htree|done|exact Hn0|].
    eapply for_each_inserts; [|exact Hloop|exact Htree]. turn_inserts.
Qed.

Lemma editmesh_looptri_builds epsilon tree_type axis em mask num_active st t st' :
  bvhtree_from_editmesh_looptri_create_tree
    epsilon tree_type axis em mask num_active st = Ok (Some t, st') ->
  exists tr,
    heap st' !! t = Some tr
    /\ inserted_indices tr
       = Z.of_nat <$> filter (fun i => active mask i = true)
                             (seq 0 (Z.to_nat (em_tottri em)))
    /\ n_insert st'
       = n_insert st
         + length (filter (fun i => active mask i = true)
                          (seq 0 (Z.to_nat (em_tottri em)))).
Proof.
  unfold bvhtree_from_editmesh_looptri_create_tree. cbv zeta. intros H.
  destruct (em_tottri em =? 0)%Z; [by inv_M|].
  apply bind_Ok in H as (n & st0 & (-> & _ & _)%resolve_active_Ok & H).
  apply bind_Ok in H as ([tree|] & st1 & Hnew & H); [|by inv_M].
  apply BLI_bvhtree_new_Ok in Hnew as (Htree & _ & Hn0 & _).
  apply bind_Ok in H as ([] & st2 & Hloop & H).
  apply builder_epilogue in H as [-> ->].
  eapply builder_conclude; [exact Htree|done|exact Hn0|].
  eapply for_each_inserts; [|exact Hloop|exact Htree].
  intros i sta stb Hb.
  apply bind_Ok in Hb as (ltri & ? & [_ ->]%index_Ok & Hb).
  apply bind_Ok in Hb as (ins & ? & Hins & Hb).
  assert (ins = active mask i /\ x = sta) as [-> ->].
  { unfold active. destruct mask as [|b mask]; simpl in Hins; inv_M; [done|].
    split; [|done]. match goal with E : _ !! _ = Some _ |- _ => by rewrite E end. }
  destruct (active mask i) eqn:Ha.
  - by eapply inserts_at_insert.
  - unfold ret in Hb. injection Hb as <-. by apply inserts_at_skip.
Qed.

(** ** C9: the primitives keep their original indices *)

(** *** The builders return a hierarchy *)

Lemma filter_active_nomask (l : list nat) :
  filter (fun i => active [] i = true) l = l.
Proof.
  induction l as [|i l IH]; [done|].
  rewrite filter_cons, IH. done.
Qed.

Lemma mask_skips_run mask i st :
  (mask <> [] -> i < length mask) ->
  mask_skips mask i st = Ok (negb (active mask i), st).
Proof.
  unfold mask_skips, active. destruct mask as [|b0 mask0]; [done|].
  intros Hi. cbn [BitSpan_is_empty negb].
  destruct (lookup_lt_is_Some_2 (b0 :: mask0) i (Hi ltac:(done))) as [x Hx].
  unfold bind, index, ret. by rewrite Hx.
Qed.

Lemma BLI_bvhtree_insert_run t i co st tr :
  heap st !! t = Some tr ->
  exists st',
    BLI_bvhtree_insert t i co st = Ok (tt, st')
    /\ heap st' !! t = Some (add_leaf i co tr).
Proof.
  intros Htr. eexists. split.
  - unfold BLI_bvhtree_insert, the_tree, bind, gets, modify, ret. by rewrite Htr.
  - simpl. by rewrite lookup_insert_eq.
Qed.

(** A loop whose turn inserts the candidate when it is active, and does
    nothing when it is not, runs to its end: the hierarchy gains one
    primitive for each active candidate. *)
Lemma masked_loop_run t mask (C : nat -> option (list V3)) (body : nat -> M unit) :
  forall l,
    (forall i co st, i ∈ l -> active mask i = true -> C i = Some co ->
       body i st = BLI_bvhtree_insert t (Z.of_nat i) co st) ->
    (forall i st, i ∈ l -> active mask i = false -> body i st = Ok (tt, st)) ->
    Forall (fun i => is_Some (C i)) (filter (fun i => active mask i = true) l) ->
    forall st tr,
      heap st !! t = Some tr ->
      exists st' tr',
        for_each l body st = Ok (tt, st')
        /\ heap st' !! t = Some tr'
        /\ length (bt_leaves tr')
           = length (bt_leaves tr) + length (filter (fun i => active mask i = true) l).
Proof.
  induction l as [|i l IH]; intros Hins Hskip Hsome st tr Htr.
  - exists st, tr. simpl. split; [done|]. split; [done|]. lia.
  - cbn [for_each].
    assert (forall j co st0, j ∈ l -> active mask j = true -> C j = Some co ->
              body j st0 = BLI_bvhtree_insert t (Z.of_nat j) co st0) as Hins'.
    { intros j co st0 Hj. apply Hins. by right. }
    assert (forall j st0, j ∈ l -> active mask j = false -> body j st0 = Ok (tt, st0))
      as Hskip'.
    { intros j st0 Hj. apply Hskip. by right. }
    destruct (active mask i) eqn:Ha.
    + rewrite filter_cons_True in Hsome |- * by done.
      apply Forall_cons in Hsome as [[co Hco] Hsome].
      destruct (BLI_bvhtree_insert_run t (Z.of_nat i) co st tr Htr) as (st1 & Hrun & Htr1).
      rewrite <- (Hins i co st ltac:(left) Ha Hco) in Hrun.
      rewrite (bind_Ok_intro _ _ _ _ _ Hrun).
      destruct (IH Hins' Hskip' Hsome st1 _ Htr1) as (st' & tr' & Hloop & Htr' & Hlen).
      exists st', tr'. split; [exact Hloop|]. split; [exact Htr'|].
      rewrite Hlen. simpl. rewrite length_app. simpl. lia.
    + rewrite filter_cons_False in Hsome |- * by (rewrite Ha; done).
      rewrite (bind_Ok_intro _ _ _ _ _ (Hskip i st ltac:(left) Ha)).
      exact (IH Hins' Hskip' Hsome st tr Htr).
Qed.

Lemma resolve_active_run mask num_active total st :
  (mask <> [] -> (0 <= num_active <= total)%Z) ->
  (if negb (BitSpan_is_empty mask) then
     BLI_assert (IN_RANGE_INCL num_active 0 total) ;; ret num_active
   else ret total) st
  = Ok ((if BitSpan_is_empty mask then total else num_active), st).
Proof.
  destruct mask as [|b0 mask0]; [done|]. intros Hr. cbn [BitSpan_is_empty negb].
  specialize (Hr ltac:(done)).
  assert (IN_RANGE_INCL num_active 0 total = true) as ->.
  { unfold IN_RANGE_INCL.
    destruct (Z.ltb_spec num_active 0); [lia|].
    destruct (Z.gtb_spec num_active total); [lia|]. done. }
  done.
Qed.

Lemma BLI_bvhtree_new_run maxsize epsilon tree_type axis st :
  head (alloc_failures st) <> Some true ->
  exists a st1 tr,
    BLI_bvhtree_new maxsize epsilon tree_type axis st = Ok (Some a, st1)
    /\ heap st1 !! a = Some tr /\ bt_leaves tr = [].
Proof.
  intros Hf. unfold BLI_bvhtree_new, bind, gets, modify, ret.
  destruct (alloc_failures st) as [|[] fs] eqn:E; [|done|].
  all: do 3 eexists; (split; [reflexivity|]); simpl.
  all: rewrite lookup_insert_eq; done.
Qed.

Lemma builder_epilogue_run tree n st tr :
  heap st !! tree = Some tr ->
  Z.of_nat (length (bt_leaves tr)) = n ->
  (len <- BLI_bvhtree_get_len tree ;;
   BLI_assert (len =? n)%Z ;;
   ret (Some tree)) st = Ok (Some tree, st).
Proof.
  intros Htr Hn.
  unfold BLI_bvhtree_get_len, the_tree, bind, gets, ret. rewrite Htr, Hn.
  by rewrite Z.eqb_refl.
Qed.

(** The allocation, the loop and the closing check, once the loop is known
    to leave [count] primitives in a hierarchy that had none. *)
Lemma new_loop_epilogue_run (loop : nat -> M unit) resolved (count : nat)
    epsilon tree_type axis st :
  head (alloc_failures st) <> Some true ->
  (forall tree st1 tr,
      heap st1 !! tree = Some tr -> bt_leaves tr = [] ->
      exists st2 tr2,
        loop tree st1 = Ok (tt, st2)
        /\ heap st2 !! tree = Some tr2 /\ length (bt_leaves tr2) = count) ->
  Z.of_nat count = resolved ->
  exists t st',
    (t <- BLI_bvhtree_new resolved epsilon tree_type axis ;;
     match t with
     | None => ret None
     | Some tree =>
         loop tree ;;
         len <- BLI_bvhtree_get_len tree ;;
         BLI_assert (len =? resolved)%Z ;;
         ret (Some tree)
     end) st = Ok (Some t, st').
Proof.
  intros Hf Hloop Hcount.
  destruct (BLI_bvhtree_new_run resolved epsilon tree_type axis st Hf)
    as (a & st1 & tr & Hnew & Htr & Hnil).
  destruct (Hloop a st1 tr Htr Hnil) as (st2 & tr2 & Hrun & Htr2 & Hlen).
  exists a, st2. rewrite (bind_Ok_intro _ _ _ _ _ Hnew).
  rewrite (bind_Ok_intro _ _ _ _ _ Hrun).
  apply (builder_epilogue_run a resolved st2 tr2 Htr2). by rewrite Hlen.
Qed.

(** The same for the builder that has no closing check. *)
Lemma new_loop_run (loop : nat -> M unit) resolved epsilon tree_type axis st :
  head (alloc_failures st) <> Some true ->
  (forall tree st1 tr,
      heap st1 !! tree = Some tr -> bt_leaves tr = [] ->
      exists st2, loop tree st1 = Ok (tt, st2)) ->
  exists t st',
    (t <- BLI_bvhtree_new resolved epsilon tree_type axis ;;
     match t with
     | None => ret None
     | Some tree => loop tree ;; ret (Some tree)
     end) st = Ok (Some t, st').
Proof.
  intros Hf Hloop.
  destruct (BLI_bvhtree_new_run resolved epsilon tree_type axis st Hf)
    as (a & st1 & tr & Hnew & Htr & Hnil).
  destruct (Hloop a st1 tr Htr Hnil) as (st2 & Hrun).
  exists a, st2. rewrite (bind_Ok_intro _ _ _ _ _ Hnew).
  by rewrite (bind_Ok_intro _ _ _ _ _ Hrun).
Qed.

Lemma masked_range_run t mask (C : nat -> option (list V3)) (body : nat -> M unit)
    (n : Z) (count : nat) st tr :
  (forall i co st0, i < Z.to_nat n -> active mask i = true -> C i = Some co ->
     body i st0 = BLI_bvhtree_insert t (Z.of_nat i) co st0) ->
  (forall i st0, i < Z.to_nat n -> active mask i = false -> body i st0 = Ok (tt, st0)) ->
  Forall (fun i => is_Some (C i))
         (filter (fun i => active mask i = true) (seq 0 (Z.to_nat n))) ->
  count = length (filter (fun i => active mask i = true) (seq 0 (Z.to_nat n))) ->
  heap st !! t = Some tr -> bt_leaves tr = [] ->
  exists st2 tr2,
    for_range n body st = Ok (tt, st2)
    /\ heap st2 !! t = Some tr2 /\ length (bt_leaves tr2) = count.
Proof.
  intros Hins Hskip Hsome -> Htr Hnil.
  destruct (masked_loop_run t mask C body (seq 0 (Z.to_nat n))) with (st := st) (tr := tr)
    as (st2 & tr2 & Hrun & Htr2 & Hlen); try done.
  - intros i co st0 Hi%elem_of_seq. apply Hins. lia.
  - intros i st0 Hi%elem_of_seq. apply Hskip. lia.
  - exists st2, tr2. split; [exact Hrun|]. split; [exact Htr2|].
    by rewrite Hlen, Hnil.
Qed.

Lemma mask_insert_run (mask : BitVector) i st :
  (mask <> [] -> i < length mask) ->
  (if negb (BitSpan_is_empty mask) then index mask i else ret true) st
  = Ok (active mask i, st).
Proof.
  unfold active. destruct mask as [|b0 mask0]; [done|].
  intros Hi. cbn [BitSpan_is_empty negb].
  destruct (lookup_lt_is_Some_2 (b0 :: mask0) i (Hi ltac:(done))) as [x Hx].
  unfold index, ret. by rewrite Hx.
Qed.

(** A turn that tests the mask, reads the arrays and inserts, on an active
    candidate whose points are in the arrays. *)
Ltac turn_runs Hbits :=
  let i := fresh "i" in
  let co := fresh "co" in
  let st0 := fresh "st" in
  let Hi := fresh "Hi" in
  let Ha := fresh "Ha" in
  let Hc := fresh "Hc" in
  intros i co st0 Hi Ha Hc; cbv beta;
  rewrite (bind_Ok_intro _ _ _ _ _ (mask_skips_run _ i st0 (Hbits i Hi))), Ha;
  cbn [negb]; simpl in Hc; simplify_option_eq;
  try (match type of Hc with context [decide ?P] => destruct (decide P) end;
       simplify_option_eq);
  unfold index_ptr, index, bind, ret;
  repeat match goal with
         | H : ?l !! ?j = Some _ |- context [?l !! ?j] => rewrite H
         end;
  try reflexivity; try by case_decide.

(** The same turn on a candidate that is not active. *)
Ltac turn_skips Hbits :=
  let i := fresh "i" in
  let st0 := fresh "st" in
  let Hi := fresh "Hi" in
  let Ha := fresh "Ha" in
  intros i st0 Hi Ha; cbv beta;
  by rewrite (bind_Ok_intro _ _ _ _ _ (mask_skips_run _ i st0 (Hbits i Hi))), Ha.

(** On the inputs they are meant for, with an active count that is not
    zero and an allocation that succeeds, the builders return a
    hierarchy. *)
Lemma run_builder_returns b epsilon tree_type axis mask num_active st :
  builder_inputs_ok b mask num_active ->
  resolved_active b mask num_active <> 0%Z ->
  head (alloc_failures st) <> Some true ->
  exists t st',
    run_builder b epsilon tree_type axis mask num_active st = Ok (Some t, st').
Proof.
  intros (Hpresent & Hnn & Hmask & Hsome) Hnz Hf.
  assert (mask <> [] -> (0 <= num_active <= candidates b)%Z) as Hrange.
  { intros Hm. by destruct (Hmask Hm) as (_ & ? & _). }
  assert (forall i, i < Z.to_nat (candidates b) -> mask <> [] -> i < length mask)
    as Hbits.
  { intros i Hi Hm. destruct (Hmask Hm) as (? & _ & _). lia. }
  assert (has_closing_assert b = true ->
          Z.of_nat (length (filter (fun i => active mask i = true)
                                   (seq 0 (Z.to_nat (candidates b)))))
          = resolved_active b mask num_active) as Hcount.
  { intros Hc. unfold resolved_active. destruct mask as [|b0 mask0].
    - rewrite filter_active_nomask, length_seq. simpl. lia.
    - destruct (Hmask ltac:(done)) as (_ & _ & ->); done. }
  assert (candidates b <> 0%Z) as Hcand.
  { unfold resolved_active in Hnz. destruct mask as [|b0 mask0]; [done|].
    simpl in Hnz. specialize (Hrange ltac:(done)). lia. }
  unfold resolved_active in Hnz, Hcount.
  destruct b as [em|positions verts_num|em|positions edge edge_num
                |positions face faces_num|em|positions mloop looptris0];
    simpl in Hpresent, Hnn, Hsome, Hnz, Hcount, Hrange, Hbits, Hcand |- *.
  - unfold bvhtree_from_editmesh_verts_create_tree.
    rewrite (bind_Ok_intro _ _ _ _ _ (resolve_active_run mask num_active _ st Hrange)).
    eapply new_loop_epilogue_run; [exact Hf | | exact (Hcount eq_refl)].
    intros tree st1 tr Htr Hnil.
    eapply (masked_range_run tree mask (corners (Build_editmesh_verts em)));
      [ | | exact Hsome | reflexivity | exact Htr | exact Hnil].
    + turn_runs Hbits.
    + turn_skips Hbits.
  - unfold bvhtree_from_mesh_verts_create_tree.
    rewrite (bind_Ok_intro _ _ _ _ _ (resolve_active_run mask num_active _ st Hrange)).
    destruct (Z.eqb_spec (if BitSpan_is_empty mask then verts_num else num_active) 0);
      [done|].
    eapply new_loop_epilogue_run; [exact Hf | | exact (Hcount eq_refl)].
    intros tree st1 tr Htr Hnil.
    eapply (masked_range_run tree mask (corners (Build_mesh_verts positions verts_num)));
      [ | | exact Hsome | reflexivity | exact Htr | exact Hnil].
    + turn_runs Hbits.
    + turn_skips Hbits.
  - unfold bvhtree_from_editmesh_edges_create_tree.
    rewrite (bind_Ok_intro _ _ _ _ _ (resolve_active_run mask num_active _ st Hrange)).
    eapply new_loop_epilogue_run; [exact Hf | | exact (Hcount eq_refl)].
    intros tree st1 tr Htr Hnil.
    eapply (masked_range_run tree mask (corners (Build_editmesh_edges em)));
      [ | | exact Hsome | reflexivity | exact Htr | exact Hnil].
    + turn_runs Hbits.
    + turn_skips Hbits.
  - unfold bvhtree_from_mesh_edges_create_tree.
    rewrite (bind_Ok_intro _ _ _ _ _ (resolve_active_run mask num_active _ st Hrange)).
    destruct (Z.eqb_spec (if BitSpan_is_empty mask then edge_num else num_active) 0);
      [done|].
    eapply new_loop_run; [exact Hf|].
    intros tree st1 tr Htr Hnil.
    edestruct (masked_range_run tree mask
                 (corners (Build_mesh_edges positions edge edge_num)))
      as (st2 & tr2 & Hrun & _);
      [ | | exact Hsome | reflexivity | exact Htr | exact Hnil | exists st2; exact Hrun].
    + turn_runs Hbits.
    + turn_skips Hbits.
  - unfold bvhtree_from_mesh_faces_create_tree.
    destruct (Z.eqb_spec faces_num 0); [done|].
    rewrite (bind_Ok_intro _ _ _ _ _ (resolve_active_run mask num_active _ st Hrange)).
    destruct Hpresent as [-> ->]. cbn [negb andb].
    eapply new_loop_epilogue_run; [exact Hf | | exact (Hcount eq_refl)].
    intros tree st1 tr Htr Hnil.
    eapply (masked_range_run tree mask
              (corners (Build_mesh_faces positions face faces_num)));
      [ | | exact Hsome | reflexivity | exact Htr | exact Hnil].
    + turn_runs Hbits.
    + turn_skips Hbits.
  - unfold bvhtree_from_editmesh_looptri_create_tree. cbv zeta.
    destruct (Z.eqb_spec (em_tottri em) 0); [done|].
    rewrite (bind_Ok_intro _ _ _ _ _ (resolve_active_run mask num_active _ st Hrange)).
    eapply new_loop_epilogue_run; [exact Hf | | exact (Hcount eq_refl)].
    intros tree st1 tr Htr Hnil.
    eapply (masked_range_run tree mask (corners (Build_editmesh_looptri em)));
      [ | | exact Hsome | reflexivity | exact Htr | exact Hnil].
    + intros i co0 st0 Hi Ha Hc. simpl in Hc. simplify_option_eq.
      match goal with
      | H : em_looptris em !! i = Some ?x |- _ =>
          assert (index (em_looptris em) i st0 = Ok (x, st0)) as Hidx
            by (unfold index; by rewrite H)
      end.
      rewrite (bind_Ok_intro _ _ _ _ _ Hidx).
      by rewrite (bind_Ok_intro _ _ _ _ _ (mask_insert_run mask i st0 (Hbits i Hi))), Ha.
    + intros i st0 Hi Ha.
      destruct (lookup_lt_is_Some_2 (em_looptris em) i) as [x Hx].
      { unfold em_tottri in Hi. lia. }
      assert (index (em_looptris em) i st0 = Ok (x, st0)) as Hidx
        by (unfold index; by rewrite Hx).
      rewrite (bind_Ok_intro _ _ _ _ _ Hidx).
      by rewrite (bind_Ok_intro _ _ _ _ _ (mask_insert_run mask i st0 (Hbits i Hi))), Ha.
  - unfold bvhtree_from_mesh_looptri_create_tree. cbv zeta.
    rewrite (bind_Ok_intro _ _ _ _ _ (resolve_active_run mask num_active _ st Hrange)).
    destruct (Z.eqb_spec (if BitSpan_is_empty mask
                          then Z.of_nat (length looptris0) else num_active) 0);
      [done|].
    rewrite Hpresent.
    assert (bool_decide (looptris0 = []) = false) as ->.
    { apply bool_decide_eq_false. intros ->. done. }
    cbn [negb andb].
    eapply new_loop_epilogue_run; [exact Hf | | exact (Hcount eq_refl)].
    intros tree st1 tr Htr Hnil.
    eapply (masked_range_run tree mask
              (corners (Build_mesh_looptri positions mloop looptris0)));
      [ | | exact Hsome | reflexivity | exact Htr | exact Hnil].
    + turn_runs Hbits.
    + turn_skips Hbits.
Qed.

(** C9.  Whatever the builder and the mask, the hierarchy a builder returns
    holds the active candidates, each inserted under its own index in the
    array of candidates, in increasing order of that index: the indices are
    never renumbered.  The number of insertions is the number of active
    candidates.  And the builders do return such a hierarchy: each of them
    does on the inputs it is meant for, when the active count is not zero
    and the allocation succeeds. *)
Theorem builders_keep_original_indices b epsilon tree_type axis mask num_active st :
  (forall t st',
      arrays_present b ->
      run_builder b epsilon tree_type axis mask num_active st = Ok (Some t, st') ->
      exists tr,
        heap st' !! t = Some tr
        /\ inserted_indices tr
           = Z.of_nat <$> filter (fun i => active mask i = true)
                                 (seq 0 (Z.to_nat (candidates b)))
        /\ n_insert st'
           = n_insert st
             + length (filter (fun i => active mask i = true)
                              (seq 0 (Z.to_nat (candidates b)))))
  /\ (builder_inputs_ok b mask num_active ->
      resolved_active b mask num_active <> 0%Z ->
      head (alloc_failures st) <> Some true ->
      exists t st' tr,
        run_builder b epsilon tree_type axis mask num_active st = Ok (Some t, st')
        /\ heap st' !! t = Some tr
        /\ inserted_indices tr
           = Z.of_nat <$> filter (fun i => active mask i = true)
                                 (seq 0 (Z.to_nat (candidates b)))
        /\ n_insert st'
           = n_insert st
             + length (filter (fun i => active mask i = true)
                              (seq 0 (Z.to_nat (candidates b))))).
Proof.
  assert (forall t st',
             arrays_present b ->
             run_builder b epsilon tree_type axis mask num_active st = Ok (Some t, st') ->
             exists tr,
               heap st' !! t = Some tr
               /\ inserted_indices tr
                  = Z.of_nat <$> filter (fun i => active mask i = true)
                                        (seq 0 (Z.to_nat (candidates b)))
               /\ n_insert st'
                  = n_insert st
                    + length (filter (fun i => active mask i = true)
                                     (seq 0 (Z.to_nat (candidates b))))) as Hkept.
  { destruct b; simpl; intros t st' Hpresent H.
    - by eapply editmesh_verts_builds.
    - by eapply mesh_verts_builds.
    - by eapply editmesh_edges_builds.
    - by eapply mesh_edges_builds.
    - destruct Hpresent. by eapply mesh_faces_builds.
    - by eapply editmesh_looptri_builds.
    - by eapply mesh_looptri_builds. }
  split; [exact Hkept|].
  intros Hok Hnz Hf.
  destruct (run_builder_returns b epsilon tree_type axis mask num_active st Hok Hnz Hf)
    as (t & st' & Hrun).
  destruct (Hkept t st' (proj1 Hok) Hrun) as (tr & Htr & Hidx & Hn).
  by exists t, st', tr.
Qed.

(** An edge index over the candidates 0 to 4 with a mask that selects 1 and
    3: two primitives, under the indices 1 and 3.  A vertex index over six
    vertices without a mask: six primitives, under the indices 0 to 5. *)
Lemma builders_keep_original_indices_witness :
  (let b := Build_mesh_edges (Some (vert_positions strip_mesh))
                             (Some (edges strip_mesh)) 5 in
   let mask := [false; true; false; true; false] in
   exists t st' tr,
     run_builder b F32.zero 4 6 mask 2 fresh_state = Ok (Some t, st')
     /\ heap st' !! t = Some tr
     /\ inserted_indices tr = [1; 3]%Z
     /\ n_insert st' = 2)
  /\ (let b := Build_mesh_verts (Some (vert_positions strip_mesh)) 6 in
      exists t st' tr,
        run_builder b F32.zero 4 6 [] 0 fresh_state = Ok (Some t, st')
        /\ heap st' !! t = Some tr
        /\ inserted_indices tr = [0; 1; 2; 3; 4; 5]%Z
        /\ n_insert st' = 6).
Proof.
  split.
  - intros b mask.
    apply (proj2 (builders_keep_original_indices b F32.zero 4 6 mask 2 fresh_state)).
    + unfold builder_inputs_ok. simpl. split; [exact I|]. split; [lia|].
      split; [intros _; split; [lia|]; split; [lia|]; discriminate|].
      repeat constructor; by eexists.
    + vm_compute. discriminate.
    + simpl. discriminate.
  - intros b.
    apply (proj2 (builders_keep_original_indices b F32.zero 4 6 [] 0 fresh_state)).
    + unfold builder_inputs_ok. simpl. split; [exact I|]. split; [lia|].
      split; [intros Hm; by destruct Hm|].
      repeat constructor; by eexists.
    + vm_compute. discriminate.
    + simpl. discriminate.
Defined.

(** ** C2: no primitive, no hierarchy *)

(** The builders of the mesh for vertices, edges and loop triangles return
    null and allocate nothing when the active count they resolve is zero. *)
Lemma mesh_builders_zero_active epsilon tree_type axis mask num_active st :
  (forall positions verts_num,
      resolved_active (Build_mesh_verts positions verts_num) mask num_active = 0%Z ->
      mask = [] \/ (0 <= verts_num)%Z ->
      bvhtree_from_mesh_verts_create_tree
        epsilon tree_type axis positions verts_num mask num_active st = Ok (None, st))
  /\ (forall positions edge edge_num,
         resolved_active (Build_mesh_edges positions edge edge_num) mask num_active = 0%Z ->
         mask = [] \/ (0 <= edge_num)%Z ->
         bvhtree_from_mesh_edges_create_tree
           positions edge edge_num mask num_active epsilon tree_type axis st = Ok (None, st))
  /\ (forall positions mloop looptris,
         resolved_active (Build_mesh_looptri positions mloop looptris) mask num_active = 0%Z ->
         bvhtree_from_mesh_looptri_create_tree
           epsilon tree_type axis positions mloop looptris mask num_active st = Ok (None, st)).
Proof.
  unfold resolved_active. repeat split.
  - intros positions verts_num Hz Hrange.
    unfold bvhtree_from_mesh_verts_create_tree.
    destruct mask as [|b mask]; simpl in *; unfold bind, ret; simpl.
    + by rewrite Hz.
    + subst num_active. destruct Hrange as [|Hrange]; [done|].
      unfold IN_RANGE_INCL. simpl.
      destruct (0 >? verts_num)%Z eqn:Hgt; [|done].
      rewrite Z.gtb_ltb in Hgt. apply Z.ltb_lt in Hgt. lia.
  - intros positions edge edge_num Hz Hrange.
    unfold bvhtree_from_mesh_edges_create_tree.
    destruct mask as [|b mask]; simpl in *; unfold bind, ret; simpl.
    + by rewrite Hz.
    + subst num_active. destruct Hrange as [|Hrange]; [done|].
      unfold IN_RANGE_INCL. simpl.
      destruct (0 >? edge_num)%Z eqn:Hgt; [|done].
      rewrite Z.gtb_ltb in Hgt. apply Z.ltb_lt in Hgt. lia.
  - intros positions mloop looptris Hz.
    unfold bvhtree_from_mesh_looptri_create_tree.
    destruct mask as [|b mask]; simpl in *; unfold bind, ret; simpl.
    + by rewrite Hz.
    + subst num_active. unfold IN_RANGE_INCL. simpl.
      destruct (0 >? Z.of_nat (length looptris))%Z eqn:Hgt; [|done].
      rewrite Z.gtb_ltb in Hgt. apply Z.ltb_lt in Hgt. lia.
Qed.

(** C2, on the code.  The builder of the vertices of an edit mesh does not
    test the active count: for an edit mesh without vertices and no mask,
    the resolved count is zero, and yet the builder calls
    [BLI_bvhtree_new] and returns the hierarchy of size zero it gets,
    where the sibling [bvhtree_from_mesh_verts_create_tree] returns null
    without allocating. *)
Theorem editmesh_verts_builder_allocates_for_zero :
  resolved_active (Build_editmesh_verts empty_editmesh) [] (-1) = 0%Z
  /\ (exists st',
         bvhtree_from_editmesh_verts_create_tree F32.zero 4 6 empty_editmesh [] (-1)
           fresh_state = Ok (Some 0, st')
         /\ heap st' !! 0 = Some (empty_tree 0 F32.zero 4 6)
         /\ n_new st' = 1)
  /\ bvhtree_from_mesh_verts_create_tree F32.zero 4 6 None 0 [] (-1) fresh_state
     = Ok (None, fresh_state).
Proof.
  split; [reflexivity|]. split; [|reflexivity].
  eexists. split; [vm_compute; reflexivity|]. split; reflexivity.
Qed.

(** In any state: on an edit mesh without vertices and no mask the builder
    calls the allocator, and returns what the allocator gives. *)
Lemma editmesh_verts_builder_zero_calls_new epsilon tree_type axis em st :
  bm_totvert (bm em) = 0%Z ->
  exists r st',
    bvhtree_from_editmesh_verts_create_tree epsilon tree_type axis em [] (-1) st
    = Ok (r, st')
    /\ BLI_bvhtree_new 0 epsilon tree_type axis st = Ok (r, st')
    /\ n_new st' = S (n_new st).
Proof.
  intros Hz. unfold bvhtree_from_editmesh_verts_create_tree. cbv zeta.
  rewrite Hz. simpl.
  destruct (BLI_bvhtree_new 0 epsilon tree_type axis st) as [[r st']|e] eqn:Hnew.
  - exists r, st'. split.
    + unfold bind at 1. unfold ret at 1. rewrite (bind_Ok_intro _ _ _ _ _ Hnew).
      destruct r as [tree|]; [|done].
      unfold for_range. simpl. unfold bind at 1. unfold ret at 1.
      apply BLI_bvhtree_new_Ok in Hnew as (Htree & _).
      unfold BLI_bvhtree_get_len, the_tree, bind, gets, ret. rewrite Htree. done.
    + split; [done|]. unfold BLI_bvhtree_new in Hnew. inv_M.
      destruct (alloc_failures _) as [|[] ?]; by inv_M.
  - unfold BLI_bvhtree_new, bind, gets, modify, ret in Hnew.
    destruct (alloc_failures st) as [|[] ?]; discriminate Hnew.
Qed.

(** The other builders that do not test the active count either: the edges
    of an edit mesh; the faces, which test the number of candidates instead. *)
Example editmesh_edges_builder_allocates_for_zero :
  exists st',
    bvhtree_from_editmesh_edges_create_tree F32.zero 4 6 empty_editmesh [] (-1) fresh_state
    = Ok (Some 0, st')
    /\ heap st' !! 0 = Some (empty_tree 0 F32.zero 4 6).
Proof. eexists. split; [vm_compute; reflexivity|reflexivity]. Qed.

Example mesh_faces_builder_allocates_for_zero :
  exists st',
    bvhtree_from_mesh_faces_create_tree F32.zero 4 6
      (Some [v3 0 0 0; v3 1 0 0; v3 0 1 0])
      (Some [ {| f_v1 := 0; f_v2 := 1; f_v3 := 2; f_v4 := 0 |} ]) 1 [false] 0 fresh_state
    = Ok (Some 0, st')
    /\ heap st' !! 0 = Some (empty_tree 0 F32.zero 4 6).
Proof. eexists. split; [vm_compute; reflexivity|reflexivity]. Qed.

(** Through the entry point: the empty edit mesh gets a tree, which is
    cached. *)
Example editmesh_get_caches_empty_tree :
  exists data st',
    BKE_bvhtree_from_editmesh_get empty_editmesh 4 BVHTREE_FROM_EM_VERTS true fresh_state
    = Ok ((data, Some 0), st')
    /\ slot_is BVHTREE_FROM_EM_VERTS {| is_filled := true; tree := Some 0 |} st'.
Proof.
  eexists _, _. split; [vm_compute; reflexivity|].
  eexists. split; reflexivity.
Qed.

(** ** C7, continued: the mask of the triangles not hidden *)

Lemma VArray_to_list_length {A} (v : VArray A) :
  length (VArray_to_list v) = VArray_size v.
Proof. destruct v; simpl; [by rewrite length_replicate | done]. Qed.

(** C7 as stated, for a lookup that is false everywhere however it is
    stored, does not hold: an attribute that is stored, with every polygon
    visible, is not a single-value array, and the mask is built. *)
Lemma no_mask_when_nothing_hidden_fails : ~ no_mask_when_nothing_hidden.
Proof.
  intros Hclaim.
  destruct (Hclaim [ {| loopstart := 0; totloop := 3 |} ] (VArray_Span [false]) 1%Z (-1)%Z)
    as [n Hn].
  - intros [|i] Hi; [reflexivity|]. simpl in Hi. lia.
  - vm_compute in Hn. discriminate Hn.
Qed.

(** C7, amended.  When the visibility lookup is a single value that is
    false (the attribute is not stored), no mask is built and the count is
    not written; the builder of the loop triangles takes the empty mask as
    every triangle active.  Otherwise the mask has, polygon after polygon in
    order, one bit per triangle of the polygon, set exactly when the polygon
    is not hidden, followed by bits that are clear, and the count reported
    is the number of bits set. *)
Theorem looptri_no_hidden_map_get_spec :
  (forall polys size looptri_len r,
      looptri_no_hidden_map_get polys (VArray_Single false size) looptri_len r
      = Ok ([], r))
  /\ (forall polys hide_poly looptri_len r,
         (forall size, hide_poly <> VArray_Single false size) ->
         (forall p, p ∈ polys -> (0 <= ME_POLY_TRI_TOT p)%Z) ->
         length polys <= VArray_size hide_poly ->
         let bits := no_hidden_bits polys (VArray_to_list hide_poly) in
         (Z.of_nat (length bits) <= looptri_len)%Z ->
         exists mask,
           looptri_no_hidden_map_get polys hide_poly looptri_len r
           = Ok (mask, Z.of_nat (active_bits mask))
           /\ mask = bits ++ replicate (Z.to_nat looptri_len - length bits) false)
  /\ (forall epsilon tree_type axis positions mloop looptris num_active st t st',
         is_null positions = false ->
         bvhtree_from_mesh_looptri_create_tree
           epsilon tree_type axis positions mloop looptris [] num_active st
         = Ok (Some t, st') ->
         exists tr,
           heap st' !! t = Some tr
           /\ inserted_indices tr = Z.of_nat <$> seq 0 (length looptris)).
Proof.
  split; [done|]. split.
  - intros polys hide_poly looptri_len r Hns Hpos Hsize bits Hlen.
    eexists. split; [|reflexivity].
    unfold looptri_no_hidden_map_get.
    assert ((if VArray_is_single hide_poly
             then VArray_get_internal_single hide_poly ≫= λ single, mret (negb single)
             else mret false) = Ok false) as ->.
    { destruct hide_poly as [[] size|l]; simpl; [done| |done]. by destruct (Hns size). }
    simpl. destruct (looptri_len <? 0)%Z eqn:Hneg; [lia|].
    pose proof (looptri_no_hidden_loop_spec hide_poly polys 0 [] (Z.to_nat looptri_len) 0%Z)
      as Hloop.
    simpl in Hloop. rewrite drop_0 in Hloop. fold bits in Hloop.
    change (Z.of_nat 0) with 0%Z in Hloop.
    rewrite Hloop; [|done|by rewrite VArray_to_list_length|lia].
    f_equal. rewrite pair_equal_spec. split; [done|].
    rewrite active_bits_app, active_bits_replicate_false. lia.
  - intros epsilon tree_type axis positions mloop looptris num_active st t st' Hp H.
    destruct (mesh_looptri_builds _ _ _ _ _ _ _ _ _ _ _ Hp H) as (tr & Htr & Hidx & _).
    exists tr. split; [done|].
    by rewrite Hidx, filter_active_nomask, Nat2Z.id.
Qed.

(** Two polygons, a hidden quad and a visible triangle, stored flags: the
    two triangles of the quad are clear, the one of the triangle is set. *)
Lemma looptri_no_hidden_map_get_spec_witness :
  let polys := [ {| loopstart := 0; totloop := 4 |}; {| loopstart := 4; totloop := 3 |} ] in
  exists mask,
    looptri_no_hidden_map_get polys (VArray_Span [true; false]) 3 (-1)
    = Ok (mask, Z.of_nat (active_bits mask))
    /\ mask = no_hidden_bits polys [true; false]
              ++ replicate (Z.to_nat 3 - length (no_hidden_bits polys [true; false])) false.
Proof.
  intros polys.
  apply (proj1 (proj2 looptri_no_hidden_map_get_spec) polys (VArray_Span [true; false]) 3%Z).
  - intros size. discriminate.
  - intros p Hp. apply list_elem_of_In in Hp. simpl in Hp.
    destruct Hp as [<-|[<-|[]]]; unfold ME_POLY_TRI_TOT; simpl; lia.
  - simpl. lia.
  - simpl. lia.
Defined.

Example looptri_no_hidden_map_get_example :
  looptri_no_hidden_map_get
    [ {| loopstart := 0; totloop := 4 |}; {| loopstart := 4; totloop := 3 |} ]
    (VArray_Span [true; false]) 3 (-1)
  = Ok ([false; false; true], 1%Z).
Proof. reflexivity. Qed.

(** ** The slot table on a fresh cache *)

Lemma slot_filled_at_most_once_witness :
  exists st',
    bvhcache_insert (Some 3) BVHTREE_FROM_VERTS
      (set_bvh_cache (Some bvhcache_init) fresh_state) = Ok (tt, st')
    /\ slot_filled BVHTREE_FROM_VERTS (set_bvh_cache (Some bvhcache_init) fresh_state) = false
    /\ slot_is BVHTREE_FROM_VERTS {| is_filled := true; tree := Some 3 |} st'
    /\ bvhcache_insert (Some 4) BVHTREE_FROM_VERTS st' = Err AssertFail.
Proof.
  destruct (bvhcache_insert (Some 3) BVHTREE_FROM_VERTS
              (set_bvh_cache (Some bvhcache_init) fresh_state))
    as [[[] st']|e] eqn:E.
  - exists st'. split; [reflexivity|].
    destruct (proj1 (proj2 slot_filled_at_most_once) _ _ _ _ E) as [Hempty Hslot].
    split; [exact Hempty|]. split; [exact Hslot|].
    apply (proj1 slot_filled_at_most_once).
    apply slot_filled_is. eexists. split; [|exact Hslot]. reflexivity.
  - vm_compute in E. discriminate E.
Defined.

Lemma has_tree_ignores_filled_flag_witness :
  exists st c,
    st ∈ run_trace [Op_find BVHTREE_FROM_VERTS None true] fresh_state
    /\ bvh_cache st = Some c
    /\ bvhcache_has_tree (Some c) None = true.
Proof.
  destruct (run_op (Op_find BVHTREE_FROM_VERTS None true) fresh_state)
    as [[[] st]|e] eqn:E; [|vm_compute in E; discriminate E].
  assert (st ∈ run_trace [Op_find BVHTREE_FROM_VERTS None true] fresh_state) as Hin.
  { cbn [run_trace]. rewrite E. apply elem_of_cons. right.
    apply list_elem_of_singleton. reflexivity. }
  destruct (bvh_cache st) as [c|] eqn:Hc.
  - exists st, c. split; [exact Hin|]. split; [exact Hc|].
    apply (proj2 (proj2 has_tree_ignores_filled_flag)
             [Op_find BVHTREE_FROM_VERTS None true] fresh_state st c eq_refl Hin Hc).
    exists 0, {| is_filled := false; tree := None |}.
    split; [|left; reflexivity].
    vm_compute in E. injection E as <-. vm_compute in Hc. injection Hc as <-.
    reflexivity.
  - vm_compute in E. injection E as <-. vm_compute in Hc. discriminate Hc.
Defined.

(** * Further properties of the code *)

(** ** The builders and the heap *)

#[global] Instance tree_kept_preorder t : PreOrder (tree_kept t).
Proof.
  split.
  - intros st. repeat split; try done. intros tr Htr. exists tr. by repeat split.
  - intros st1 st2 st3 (Hc1 & Hn1 & Hf1 & Ho1 & Ht1) (Hc2 & Hn2 & Hf2 & Ho2 & Ht2).
    split; [by etrans|]. split; [congruence|]. split; [congruence|]. split.
    + intros a Ha. rewrite Ho2, Ho1; done.
    + intros tr Htr. destruct (Ht1 tr Htr) as (tr1 & Htr1 & Hs1).
      destruct (Ht2 tr1 Htr1) as (tr2 & Htr2 & Hs2).
      exists tr2. split; [done|].
      destruct Hs1 as (? & ? & ? & ? & ?), Hs2 as (? & ? & ? & ? & ?).
      repeat split; congruence.
Qed.

Lemma BLI_bvhtree_insert_kept t i co : preserves (tree_kept t) (BLI_bvhtree_insert t i co).
Proof.
  intros st [] st' H. unfold BLI_bvhtree_insert in H.
  apply bind_Ok in H as (tr & st1 & [Htr ->]%the_tree_Ok & H). inv_M.
  split; [done|]. split; [done|]. split; [done|]. simpl. split.
  - intros a Ha. by rewrite lookup_insert_ne.
  - intros tr' Htr'. rewrite lookup_insert_eq. eexists. split; [done|].
    assert (tr' = tr) as -> by congruence. by repeat split.
Qed.

Lemma mask_skips_pres (R : relation State) `{!PreOrder R} mask i :
  preserves R (mask_skips mask i).
Proof. unfold mask_skips. pres. Qed.

(** One structural step, for the loops of the builders. *)
Ltac kept1 :=
  lazymatch goal with
  | |- preserves _ (BLI_bvhtree_insert _ _ _) => apply BLI_bvhtree_insert_kept
  | |- preserves _ (mask_skips _ _) => apply mask_skips_pres; apply _
  | _ => pres1
  end.
Ltac kept := repeat kept1.

Lemma BLI_bvhtree_new_Some maxsize epsilon tree_type axis st t st' :
  BLI_bvhtree_new maxsize epsilon tree_type axis st = Ok (Some t, st') ->
  heap st !! t = None
  /\ head (alloc_failures st) <> Some true
  /\ st' = set_heap (<[t := empty_tree maxsize epsilon (char_of_int tree_type)
                                        (char_of_int axis)]> (heap st))
             (set_counts (tail (alloc_failures st)) (S (n_new st)) (n_insert st) st).
Proof.
  unfold BLI_bvhtree_new. intros H. inv_M.
  destruct (alloc_failures _) as [|[] ?] eqn:Hf; inv_M; simpl in *; try done.
  all: split; [apply not_elem_of_dom, is_fresh|]; by split.
Qed.

Lemma BLI_bvhtree_new_None maxsize epsilon tree_type axis st st' :
  BLI_bvhtree_new maxsize epsilon tree_type axis st = Ok (None, st') ->
  head (alloc_failures st) = Some true
  /\ st' = set_counts (tail (alloc_failures st)) (S (n_new st)) (n_insert st) st.
Proof.
  unfold BLI_bvhtree_new. intros H. inv_M.
  destruct (alloc_failures _) as [|[] ?] eqn:Hf; inv_M; simpl in *; done.
Qed.

Lemma built_after_new b epsilon tree_type axis mask num_active st tree st1 st2 :
  BLI_bvhtree_new (resolved_active b mask num_active) epsilon tree_type axis st
  = Ok (Some tree, st1) ->
  tree_kept tree st1 st2 ->
  (has_closing_assert b = true ->
   exists tr, heap st2 !! tree = Some tr
              /\ Z.of_nat (length (bt_leaves tr)) = resolved_active b mask num_active) ->
  built b epsilon tree_type axis mask num_active st tree st2.
Proof.
  intros (Hfresh & Hhead & ->)%BLI_bvhtree_new_Some (Hc & Hn & Hf & Ho & Ht) Hlen.
  simpl in *. split; [done|]. split; [|split; [done|split; [done|split; [done|split]]]].
  - intros a Ha. rewrite Ho by done. by rewrite lookup_insert_ne.
  - done.
  - destruct (Ht (empty_tree (resolved_active b mask num_active) epsilon
                             (char_of_int tree_type) (char_of_int axis)))
      as (tr & Htr & Hs); [by rewrite lookup_insert_eq|].
    exists tr. split; [done|]. split; [done|].
    intros Ha. destruct (Hlen Ha) as (tr' & Htr' & Hl). congruence.
Qed.

(** The end of a builder that checks the length. *)
Lemma builder_epilogue_len tree n st r st' :
  (len <- BLI_bvhtree_get_len tree ;;
   BLI_assert (len =? n)%Z ;;
   ret (Some tree)) st = Ok (r, st') ->
  r = Some tree /\ st' = st
  /\ exists tr, heap st !! tree = Some tr /\ Z.of_nat (length (bt_leaves tr)) = n.
Proof.
  intros H. apply bind_Ok in H as (len & st1 & Hlen & H).
  unfold BLI_bvhtree_get_len in Hlen.
  apply bind_Ok in Hlen as (tr & st2 & [Htr ->]%the_tree_Ok & Hlen). inv_M.
  split; [done|]. split; [done|]. exists tr. split; [done|].
  match goal with E : (_ =? _)%Z = true |- _ => by apply Z.eqb_eq in E end.
Qed.

Lemma resolved_active_eq b mask num_active :
  (if BitSpan_is_empty mask then candidates b else num_active)
  = resolved_active b mask num_active.
Proof. done. Qed.

Lemma mesh_verts_built epsilon tree_type axis positions verts_num mask num_active st r st' :
  bvhtree_from_mesh_verts_create_tree
    epsilon tree_type axis positions verts_num mask num_active st = Ok (r, st') ->
  match r with
  | Some t => built (Build_mesh_verts positions verts_num)
                    epsilon tree_type axis mask num_active st t st'
  | None => not_built st st'
  end.
Proof.
  unfold bvhtree_from_mesh_verts_create_tree. intros H.
  apply bind_Ok in H as (n & st0 & (-> & -> & _)%resolve_active_Ok & H).
  rewrite (resolved_active_eq (Build_mesh_verts positions verts_num)) in H.
  destruct (_ =? 0)%Z; [inv_M; by left|].
  apply bind_Ok in H as ([tree|] & st1 & Hnew & H).
  2:{ inv_M. right. by apply BLI_bvhtree_new_None in Hnew. }
  apply bind_Ok in H as ([] & st2 & Hloop & H).
  apply builder_epilogue_len in H as (-> & -> & Hlen).
  eapply built_after_new; [exact Hnew| |done].
  revert Hloop. apply preserves_for_range; [apply _|]. intros i. kept.
Qed.

Lemma editmesh_verts_built epsilon tree_type axis em mask num_active st r st' :
  bvhtree_from_editmesh_verts_create_tree
    epsilon tree_type axis em mask num_active st = Ok (r, st') ->
  match r with
  | Some t => built (Build_editmesh_verts em) epsilon tree_type axis mask num_active st t st'
  | None => not_built st st'
  end.
Proof.
  unfold bvhtree_from_editmesh_verts_create_tree. cbv zeta. intros H.
  apply bind_Ok in H as (n & st0 & (-> & -> & _)%resolve_active_Ok & H).
  rewrite (resolved_active_eq (Build_editmesh_verts em)) in H.
  apply bind_Ok in H as ([tree|] & st1 & Hnew & H).
  2:{ inv_M. right. by apply BLI_bvhtree_new_None in Hnew. }
  apply bind_Ok in H as ([] & st2 & Hloop & H).
  apply builder_epilogue_len in H as (-> & -> & Hlen).
  eapply built_after_new; [exact Hnew| |done].
  revert Hloop. apply preserves_for_range; [apply _|]. intros i. kept.
Qed.

Lemma editmesh_edges_built epsilon tree_type axis em mask num_active st r st' :
  bvhtree_from_editmesh_edges_create_tree
    epsilon tree_type axis em mask num_active st = Ok (r, st') ->
  match r with
  | Some t => built (Build_editmesh_edges em) epsilon tree_type axis mask num_active st t st'
  | None => not_built st st'
  end.
Proof.
  unfold bvhtree_from_editmesh_edges_create_tree. cbv zeta. intros H.
  apply bind_Ok in H as (n & st0 & (-> & -> & _)%resolve_active_Ok & H).
  rewrite (resolved_active_eq (Build_editmesh_edges em)) in H.
  apply bind_Ok in H as ([tree|] & st1 & Hnew & H).
  2:{ inv_M. right. by apply BLI_bvhtree_new_None in Hnew. }
  apply bind_Ok in H as ([] & st2 & Hloop & H).
  apply builder_epilogue_len in H as (-> & -> & Hlen).
  eapply built_after_new; [exact Hnew| |done].
  revert Hloop. apply preserves_for_range; [apply _|]. intros i. kept.
Qed.

Lemma mesh_edges_built positions edge edge_num mask num_active epsilon tree_type axis
    st r st' :
  bvhtree_from_mesh_edges_create_tree
    positions edge edge_num mask num_active epsilon tree_type axis st = Ok (r, st') ->
  match r with
  | Some t => built (Build_mesh_edges positions edge edge_num)
                    epsilon tree_type axis mask num_active st t st'
  | None => not_built st st'
  end.
Proof.
  unfold bvhtree_from_mesh_edges_create_tree. intros H.
  apply bind_Ok in H as (n & st0 & (-> & -> & _)%resolve_active_Ok & H).
  rewrite (resolved_active_eq (Build_mesh_edges positions edge edge_num)) in H.
  destruct (_ =? 0)%Z; [inv_M; by left|].
  apply bind_Ok in H as ([tree|] & st1 & Hnew & H).
  2:{ inv_M. right. by apply BLI_bvhtree_new_None in Hnew. }
  apply bind_Ok in H as ([] & st2 & Hloop & H). inv_M.
  eapply built_after_new; [exact Hnew| |done].
  revert Hloop. apply preserves_for_range; [apply _|]. intros i. kept.
Qed.

Lemma preserves_apply (R : relation State) {A} (m : M A) st a st' :
  m st = Ok (a, st') -> preserves R m -> R st st'.
Proof. intros H Hp. by eapply Hp. Qed.

Lemma mesh_faces_built epsilon tree_type axis positions face faces_num mask num_active
    st r st' :
  bvhtree_from_mesh_faces_create_tree
    epsilon tree_type axis positions face faces_num mask num_active st = Ok (r, st') ->
  match r with
  | Some t => built (Build_mesh_faces positions face faces_num)
                    epsilon tree_type axis mask num_active st t st'
  | None => not_built st st'
  end.
Proof.
  unfold bvhtree_from_mesh_faces_create_tree. intros H.
  destruct (faces_num =? 0)%Z; [inv_M; by left|].
  apply bind_Ok in H as (n & st0 & (-> & -> & _)%resolve_active_Ok & H).
  rewrite (resolved_active_eq (Build_mesh_faces positions face faces_num)) in H.
  apply bind_Ok in H as ([tree|] & st1 & Hnew & H).
  2:{ inv_M. right. by apply BLI_bvhtree_new_None in Hnew. }
  apply bind_Ok in H as ([] & st2 & Hloop & H).
  apply builder_epilogue_len in H as (-> & -> & Hlen).
  eapply built_after_new; [exact Hnew| |done].
  eapply preserves_apply; [exact Hloop|]. kept.
Qed.

Lemma editmesh_looptri_built epsilon tree_type axis em mask num_active st r st' :
  bvhtree_from_editmesh_looptri_create_tree
    epsilon tree_type axis em mask num_active st = Ok (r, st') ->
  match r with
  | Some t => built (Build_editmesh_looptri em) epsilon tree_type axis mask num_active st t st'
  | None => not_built st st'
  end.
Proof.
  unfold bvhtree_from_editmesh_looptri_create_tree. cbv zeta. intros H.
  destruct (em_tottri em =? 0)%Z; [inv_M; by left|].
  apply bind_Ok in H as (n & st0 & (-> & -> & _)%resolve_active_Ok & H).
  rewrite (resolved_active_eq (Build_editmesh_looptri em)) in H.
  apply bind_Ok in H as ([tree|] & st1 & Hnew & H).
  2:{ inv_M. right. by apply BLI_bvhtree_new_None in Hnew. }
  apply bind_Ok in H as ([] & st2 & Hloop & H).
  apply builder_epilogue_len in H as (-> & -> & Hlen).
  eapply built_after_new; [exact Hnew| |done].
  eapply preserves_apply; [exact Hloop|]. kept.
Qed.

Lemma mesh_looptri_built epsilon tree_type axis positions mloop looptris mask num_active
    st r st' :
  bvhtree_from_mesh_looptri_create_tree
    epsilon tree_type axis positions mloop looptris mask num_active st = Ok (r, st') ->
  match r with
  | Some t => built (Build_mesh_looptri positions mloop looptris)
                    epsilon tree_type axis mask num_active st t st'
  | None => not_built st st'
  end.
Proof.
  unfold bvhtree_from_mesh_looptri_create_tree. cbv zeta. intros H.
  apply bind_Ok in H as (n & st0 & (-> & -> & _)%resolve_active_Ok & H).
  rewrite (resolved_active_eq (Build_mesh_looptri positions mloop looptris)) in H.
  destruct (_ =? 0)%Z; [inv_M; by left|].
  apply bind_Ok in H as ([tree|] & st1 & Hnew & H).
  2:{ inv_M. right. by apply BLI_bvhtree_new_None in Hnew. }
  apply bind_Ok in H as ([] & st2 & Hloop & H).
  apply builder_epilogue_len in H as (-> & -> & Hlen).
  eapply built_after_new; [exact Hnew| |done].
  eapply preserves_apply; [exact Hloop|]. kept.
Qed.

Lemma run_builder_built b epsilon tree_type axis mask num_active st r st' :
  run_builder b epsilon tree_type axis mask num_active st = Ok (r, st') ->
  match r with
  | Some t => built b epsilon tree_type axis mask num_active st t st'
  | None => not_built st st'
  end.
Proof.
  destruct b; simpl.
  - apply editmesh_verts_built.
  - apply mesh_verts_built.
  - apply editmesh_edges_built.
  - apply mesh_edges_built.
  - apply mesh_faces_built.
  - apply editmesh_looptri_built.
  - apply mesh_looptri_built.
Qed.

(** ** The slot table, in full *)

Lemma set_mutex_same c : set_mutex (mutex c) c = c.
Proof. by destruct c. Qed.

Lemma set_mutex_set_item b i it c :
  set_mutex b (set_item i it (set_mutex true c)) = set_item i it (set_mutex b c).
Proof. done. Qed.

Lemma bvhcache_init_unfilled i it :
  items bvhcache_init !! i = Some it -> it = {| is_filled := false; tree := None |}.
Proof.
  unfold bvhcache_init, items. by intros [-> _]%lookup_replicate.
Qed.

(** [bvhcache_find] with a lock requested: a hit changes nothing; a miss
    creates the cache if need be and leaves its mutex held. *)
Lemma bvhcache_find_lock_spec type r st found t locked st' :
  bvhcache_find type r true st = Ok ((found, t, locked), st') ->
  exists it,
    items (cache_or_init st) !! BVHCacheType_index type = Some it
    /\ if is_filled it
       then found = true /\ t = tree it /\ locked = false /\ st' = st
            /\ bvh_cache st = Some (cache_or_init st)
       else found = false /\ t = r /\ locked = true
            /\ mutex (cache_or_init st) = false
            /\ st' = locked_for_build st.
Proof.
  unfold bvhcache_find. simpl. intros H.
  apply bind_Ok in H as (c & st0 & Hg & H). unfold gets in Hg. injection Hg as <- <-.
  apply bind_Ok in H as ([] & st1 & Hinit & H).
  assert (bvh_cache st1 = Some (cache_or_init st)
          /\ st1 = set_bvh_cache (Some (cache_or_init st)) st
          /\ (bvh_cache st = None \/ bvh_cache st = Some (cache_or_init st)))
    as (Hc1 & Hst1 & Hwas).
  { clear H. unfold cache_or_init. destruct (bvh_cache st) as [c|] eqn:Hc; simpl.
    - unfold ret in Hinit. injection Hinit as <-.
      split; [done|]. split; [|by right]. destruct st. simpl in *. by subst.
    - apply bind_Ok in Hinit as (locked' & st2 & Hg & Hinit).
      unfold gets in Hg. injection Hg as <- <-.
      apply bind_Ok in Hinit as ([] & st2 & Hl & Hinit).
      destruct (eval_mutex st) eqn:Hm; [discriminate Hl|].
      unfold modify in Hl. injection Hl as <-.
      apply bind_Ok in Hinit as (c' & st2 & Hg & Hinit).
      unfold gets in Hg. injection Hg as <- <-. simpl in Hinit. rewrite Hc in Hinit.
      apply bind_Ok in Hinit as ([] & st2 & Hm2 & Hinit).
      unfold modify in Hm2, Hinit. injection Hm2 as <-. injection Hinit as <-.
      split; [done|]. split; [|by left]. destruct st. simpl in *. by subst. }
  apply bind_Ok in H as (c1 & st2 & [Hc1' ->]%the_cache_Ok & H).
  assert (c1 = cache_or_init st) as -> by congruence.
  apply bind_Ok in H as (it & st2 & Hi & H). unfold cache_item in Hi.
  apply index_Ok in Hi as [Hi ->].
  exists it. split; [done|].
  destruct (is_filled it) eqn:Hf.
  - inv_M. destruct Hwas as [Hnone|Hsome].
    + exfalso. unfold cache_or_init in Hi. rewrite Hnone in Hi.
      change (default bvhcache_init None) with bvhcache_init in Hi.
      apply bvhcache_init_unfilled in Hi as ->. done.
    + repeat split; try done. clear -Hsome. rewrite <- Hsome. by destruct st.
  - apply bind_Ok in H as ([] & st2 & Hlock & H).
    unfold BLI_mutex_lock_cache in Hlock.
    apply bind_Ok in Hlock as (c2 & st3 & [Hc2 ->]%the_cache_Ok & Hlock).
    assert (c2 = cache_or_init st) as -> by congruence.
    destruct (mutex (cache_or_init st)) eqn:Hm; [by inv_M|].
    unfold modify in Hlock. injection Hlock as <-.
    apply bind_Ok in H as ([in_cache t'] & st3 & Hfind & H).
    apply bvhcache_find_nolock_Ok in Hfind as [-> Hfind]. cbv zeta in H. simpl in H.
    destruct in_cache.
    + exfalso. destruct Hfind as (c & Hc & Hit). simpl in Hc. injection Hc as <-.
      simpl in Hit. rewrite Hi in Hit. injection Hit as ->. done.
    + inv_M. repeat split; done.
Qed.

Lemma bvhtree_balance_Ok t isolate st st' :
  bvhtree_balance t isolate st = Ok (tt, st') ->
  match t with
  | Some a =>
      exists tr, heap st !! a = Some tr
                 /\ st' = set_heap (<[a := set_balanced tr]> (heap st)) st
  | None => st' = st
  end.
Proof.
  unfold bvhtree_balance, bvhtree_balance_isolated, BLI_bvhtree_balance.
  destruct t as [a|]; [|by intros; inv_M].
  intros H.
  assert ((tr <- the_tree a ;; h <- gets heap ;;
           modify (set_heap (<[a := set_balanced tr]> h))) st = Ok (tt, st')) as H'
    by (by destruct isolate).
  clear H. apply bind_Ok in H' as (tr & st1 & [Htr ->]%the_tree_Ok & H'). inv_M.
  by exists tr.
Qed.

(** [BKE_bvhtree_from_mesh_get], step by step: a hit returns what the slot
    holds and changes nothing; a miss builds the tree with the mutex of the
    cache held, balances it, puts it in the slot and releases the mutex. *)
Lemma BKE_bvhtree_from_mesh_get_inv mesh type tree_type st data t st' :
  BKE_bvhtree_from_mesh_get mesh type tree_type st = Ok ((data, t), st') ->
  (st' = st /\ slot_is type {| is_filled := true; tree := t |} st)
  \/ (exists it st2 st3,
        items (cache_or_init st) !! BVHCacheType_index type = Some it
        /\ is_filled it = false
        /\ mutex (cache_or_init st) = false
        /\ mesh_build mesh type tree_type None (locked_for_build st) = Ok (t, st2)
        /\ bvhtree_balance t true st2 = Ok (tt, st3)
        /\ bvh_cache st3 = bvh_cache (locked_for_build st)
        /\ eval_mutex st3 = eval_mutex st
        /\ st' = cached_in type t (cache_or_init st) st3).
Proof.
  unfold BKE_bvhtree_from_mesh_get. cbv zeta. intros H.
  apply bind_Ok in H as (data0 & st0 & Hsetup & H).
  assert (fm_tree data0 = None) as Htree0.
  { clear H. unfold bvhtree_from_mesh_setup_data in Hsetup.
    destruct type; inv_M; done. }
  apply mesh_setup_data_pure in Hsetup as [-> Hsetup].
  apply bind_Ok in H as ([[found t0] locked] & st1 & Hfind & H).
  rewrite Htree0 in Hfind.
  apply bvhcache_find_lock_spec in Hfind as (it & Hi & Hfind). simpl in H.
  destruct (is_filled it) eqn:Hf.
  - destruct Hfind as (-> & -> & -> & -> & Hc). inv_M. left. split; [done|].
    exists (cache_or_init st). split; [done|]. by rewrite Hi, (item_eta it), Hf.
  - destruct Hfind as (-> & -> & -> & Hm & ->). right.
    apply bind_Ok in H as (t1 & st2 & Hbuild & H).
    apply bind_Ok in H as ([] & st3 & Hbal & H).
    apply bind_Ok in H as ([] & st4 & [_ [= ->]]%BLI_assert_Ok & H).
    apply bind_Ok in H as ([] & st5 & Hins & H).
    apply bind_Ok in H as ([] & st6 & Hunlock & H). simpl in *.
    unfold ret in H. injection H as <- <- <-.
    assert (cache_untouched (locked_for_build st) st3) as [Hc3 Hm3].
    { etrans.
      - eapply preserves_apply; [exact Hbuild|]. destruct type; pres.
      - eapply preserves_apply; [exact Hbal|]. pres. }
    exists it, st2, st3. split; [done|]. split; [done|]. split; [done|].
    split; [exact Hbuild|]. split; [exact Hbal|]. split; [done|]. split; [done|].
    unfold bvhcache_insert in Hins.
    apply bind_Ok in Hins as (c3 & ? & [Hc3' ->]%the_cache_Ok & Hins).
    apply bind_Ok in Hins as (it3 & ? & Hi3 & Hins). unfold cache_item in Hi3.
    apply index_Ok in Hi3 as [Hi3 ->].
    apply bind_Ok in Hins as ([] & ? & [_ [= ->]]%BLI_assert_Ok & Hins).
    unfold modify in Hins. injection Hins as <-.
    unfold BLI_mutex_unlock_cache in Hunlock.
    apply bind_Ok in Hunlock as (c5 & ? & [Hc5 ->]%the_cache_Ok & Hunlock).
    unfold modify in Hunlock. injection Hunlock as <-.
    simpl in Hc5. injection Hc5 as <-.
    rewrite Hc3 in Hc3'. simpl in Hc3'. injection Hc3' as <-.
    unfold cached_in. simpl. rewrite set_mutex_set_item, <- Hm, set_mutex_same.
    done.
Qed.

Lemma mesh_build_built mesh type tree_type data_tree st r st' :
  mesh_build mesh type tree_type data_tree st = Ok (r, st') ->
  match r with
  | Some t => exists b mask num_active,
                built b F32.zero tree_type 6 mask num_active st t st'
  | None => not_built st st'
  end.
Proof.
  unfold mesh_build. cbv zeta. intros H.
  assert (forall b mask num_active,
             run_builder b F32.zero tree_type 6 mask num_active st = Ok (r, st') ->
             match r with
             | Some t => exists b mask num_active,
                           built b F32.zero tree_type 6 mask num_active st t st'
             | None => not_built st st'
             end) as Hrun.
  { intros b mask n Hb. apply run_builder_built in Hb. destruct r; eauto. }
  destruct type; try (inv_M; done).
  - exact (Hrun (Build_mesh_verts _ _) _ _ H).
  - exact (Hrun (Build_mesh_edges _ _ _) _ _ H).
  - apply bind_Ok in H as ([] & st1 & [_ [= ->]]%BLI_assert_Ok & H).
    exact (Hrun (Build_mesh_faces _ _ _) _ _ H).
  - exact (Hrun (Build_mesh_looptri _ _ _) _ _ H).
  - apply bind_Ok in H as (m & st1 & [_ ->]%lift_Ok & H).
    exact (Hrun (Build_mesh_looptri _ _ _) _ _ H).
  - apply bind_Ok in H as (m & st1 & [_ ->]%lift_Ok & H).
    exact (Hrun (Build_mesh_verts _ _) _ _ H).
  - exact (Hrun (Build_mesh_edges _ _ _) _ _ H).
Qed.

Lemma editmesh_build_built em type tree_type data_tree st r st' :
  editmesh_build em type tree_type data_tree st = Ok (r, st') ->
  match r with
  | Some t => exists b mask num_active,
                built b F32.zero tree_type 6 mask num_active st t st'
  | None => not_built st st'
  end.
Proof.
  unfold editmesh_build. intros H.
  assert (forall b mask num_active,
             run_builder b F32.zero tree_type 6 mask num_active st = Ok (r, st') ->
             match r with
             | Some t => exists b mask num_active,
                           built b F32.zero tree_type 6 mask num_active st t st'
             | None => not_built st st'
             end) as Hrun.
  { intros b mask n Hb. apply run_builder_built in Hb. destruct r; eauto. }
  destruct type; try (inv_M; done).
  - exact (Hrun (Build_editmesh_verts _) _ _ H).
  - exact (Hrun (Build_editmesh_edges _) _ _ H).
  - exact (Hrun (Build_editmesh_looptri _) _ _ H).
Qed.

(** What the cache is after a successful acquisition from a mesh. *)
Lemma BKE_bvhtree_from_mesh_get_cache mesh type tree_type st data t st' :
  BKE_bvhtree_from_mesh_get mesh type tree_type st = Ok ((data, t), st') ->
  exists it,
    items (cache_or_init st) !! BVHCacheType_index type = Some it
    /\ bvh_cache st'
       = Some (if is_filled it then cache_or_init st
               else set_item (BVHCacheType_index type)
                             {| is_filled := true; tree := t |} (cache_or_init st))
    /\ (is_filled it = true -> tree it = t)
    /\ eval_mutex st' = eval_mutex st.
Proof.
  intros [[-> (c & Hc & Hi)]|(it & st2 & st3 & Hi & Hf & Hm & _ & _ & _ & He & ->)]
    %BKE_bvhtree_from_mesh_get_inv.
  - unfold cache_or_init. rewrite Hc. simpl. eexists. split; [exact Hi|]. done.
  - exists it. rewrite Hf. split; [done|]. split; [done|]. split; [done|]. done.
Qed.

(** ** Acquisition from a mesh: the cache afterwards *)

(** X1.  A successful [BKE_bvhtree_from_mesh_get] leaves a cache in which
    the slot of the variant holds the tree returned and every other slot is
    as it was (empty, when the cache did not exist). *)
Theorem mesh_get_fills_only_its_slot mesh type tree_type st data t st' :
  BKE_bvhtree_from_mesh_get mesh type tree_type st = Ok ((data, t), st') ->
  exists c',
    bvh_cache st' = Some c'
    /\ items c' !! BVHCacheType_index type = Some {| is_filled := true; tree := t |}
    /\ forall j, j <> BVHCacheType_index type ->
         items c' !! j = items (cache_or_init st) !! j.
Proof.
  intros (it & Hi & Hc & Ht & _)%BKE_bvhtree_from_mesh_get_cache.
  eexists. split; [exact Hc|]. destruct (is_filled it) eqn:Hf.
  - split; [|done]. by rewrite Hi, (item_eta it), Hf, Ht.
  - simpl. split.
    + apply list_lookup_insert_eq. by eapply lookup_lt_Some.
    + intros j Hj. by rewrite list_lookup_insert_ne.
Qed.

Lemma mesh_get_fills_only_its_slot_witness :
  exists data t st' c',
    BKE_bvhtree_from_mesh_get strip_mesh BVHTREE_FROM_EDGES 4 fresh_state
    = Ok ((data, t), st')
    /\ bvh_cache st' = Some c'
    /\ items c' !! 1 = Some {| is_filled := true; tree := t |}
    /\ forall j, j <> 1 -> items c' !! j = items (cache_or_init fresh_state) !! j.
Proof.
  destruct (BKE_bvhtree_from_mesh_get strip_mesh BVHTREE_FROM_EDGES 4 fresh_state)
    as [[[data t] st']|e] eqn:E.
  - destruct (mesh_get_fills_only_its_slot _ _ _ _ _ _ _ E) as (c' & Hc & Hi & Ho).
    exists data, t, st', c'. split; [reflexivity|]. split; [exact Hc|].
    split; [exact Hi|exact Ho].
  - vm_compute in E. discriminate E.
Defined.

(** X2.  A successful [BKE_bvhtree_from_mesh_get] leaves both mutexes as it
    found them: the evaluation mutex of the mesh and the mutex of the cache
    are held afterwards exactly when they were before, and the mutex of a
    cache created by the call is free. *)
Theorem mesh_get_releases_mutexes mesh type tree_type st data t st' :
  BKE_bvhtree_from_mesh_get mesh type tree_type st = Ok ((data, t), st') ->
  eval_mutex st' = eval_mutex st
  /\ exists c', bvh_cache st' = Some c'
                /\ mutex c' = match bvh_cache st with
                              | Some c => mutex c
                              | None => false
                              end.
Proof.
  intros (it & Hi & Hc & _ & He)%BKE_bvhtree_from_mesh_get_cache.
  split; [done|]. eexists. split; [exact Hc|].
  assert (mutex (cache_or_init st)
          = match bvh_cache st with Some c => mutex c | None => false end) as <-.
  { unfold cache_or_init. by destruct (bvh_cache st). }
  by destruct (is_filled it).
Qed.

Lemma mesh_get_releases_mutexes_witness :
  exists data t st' c',
    BKE_bvhtree_from_mesh_get strip_mesh BVHTREE_FROM_LOOPTRI 4 fresh_state
    = Ok ((data, t), st')
    /\ eval_mutex st' = false
    /\ bvh_cache st' = Some c' /\ mutex c' = false.
Proof.
  destruct (BKE_bvhtree_from_mesh_get strip_mesh BVHTREE_FROM_LOOPTRI 4 fresh_state)
    as [[[data t] st']|e] eqn:E.
  - destruct (mesh_get_releases_mutexes _ _ _ _ _ _ _ E) as (He & c' & Hc & Hm).
    exists data, t, st', c'. split; [reflexivity|]. split; [exact He|].
    split; [exact Hc|exact Hm].
  - vm_compute in E. discriminate E.
Defined.

(** ** Acquisition from a mesh: the tree of a miss *)

Lemma char_of_int_small x : (0 <= x < 128)%Z -> char_of_int x = x.
Proof.
  intros Hx. unfold char_of_int. rewrite Z.mod_small by lia. lia.
Qed.

Lemma slot_unfilled_not_hit type t st :
  slot_filled type st = false -> ~ slot_is type {| is_filled := true; tree := t |} st.
Proof.
  intros Hf Hs. assert (slot_filled type st = true); [|congruence].
  apply slot_filled_is. eexists. split; [|exact Hs]. done.
Qed.

(** X3.  On a miss, a non-null tree returned by [BKE_bvhtree_from_mesh_get]
    is a hierarchy that did not exist before, made by the single allocation
    of the call; it is balanced, with epsilon 0 and 6 axes, and its tree
    type is the one asked for when that is in the range 0 to 127 of a
    [char] (the allocator takes a [char], a larger [int] is narrowed); the
    hierarchies that existed are untouched. *)
Theorem mesh_get_miss_builds_balanced_tree mesh type tree_type st data a st' :
  slot_filled type st = false ->
  BKE_bvhtree_from_mesh_get mesh type tree_type st = Ok ((data, Some a), st') ->
  heap st !! a = None
  /\ (forall a', a' <> a -> heap st' !! a' = heap st !! a')
  /\ n_new st' = S (n_new st)
  /\ exists tr,
       heap st' !! a = Some tr
       /\ bt_balanced tr = true /\ bt_epsilon tr = F32.zero
       /\ bt_axis tr = 6%Z
       /\ ((0 <= tree_type < 128)%Z -> bt_tree_type tr = tree_type).
Proof.
  intros Hempty
    [[-> Hs]|(it & st2 & st3 & Hi & Hf & Hm & Hbuild & Hbal & _ & _ & ->)]
    %BKE_bvhtree_from_mesh_get_inv.
  { by apply slot_unfilled_not_hit in Hs. }
  apply mesh_build_built in Hbuild
    as (b & mask & n & Hfresh & Hother & Hnew & _ & _ & _ & tr & Htr & Hcfg & _).
  apply bvhtree_balance_Ok in Hbal as (tr' & Htr' & ->).
  assert (tr' = tr) as -> by congruence.
  simpl in *. split; [done|]. split; [|split; [done|]].
  - intros a' Ha'. rewrite lookup_insert_ne by done. by apply Hother.
  - exists (set_balanced tr). rewrite lookup_insert_eq. split; [done|].
    destruct Hcfg as (_ & He & Ht & Ha & _). simpl in *.
    split; [done|]. split; [done|]. split; [done|].
    intros Hrange. rewrite Ht. by apply char_of_int_small.
Qed.

Lemma mesh_get_miss_builds_balanced_tree_witness :
  exists data a st' tr,
    BKE_bvhtree_from_mesh_get strip_mesh BVHTREE_FROM_VERTS 4 fresh_state
    = Ok ((data, Some a), st')
    /\ heap st' !! a = Some tr /\ bt_balanced tr = true /\ n_new st' = 1
    /\ bt_tree_type tr = 4%Z.
Proof.
  destruct (BKE_bvhtree_from_mesh_get strip_mesh BVHTREE_FROM_VERTS 4 fresh_state)
    as [[[data [a|]] st']|e] eqn:E.
  - destruct (mesh_get_miss_builds_balanced_tree
                strip_mesh BVHTREE_FROM_VERTS 4 fresh_state data a st' eq_refl E)
      as (_ & _ & Hn & tr & Htr & Hb & _ & _ & Ht).
    exists data, a, st', tr. split; [reflexivity|]. split; [exact Htr|].
    split; [exact Hb|]. split; [exact Hn|]. apply Ht. lia.
  - vm_compute in E. discriminate E.
  - vm_compute in E. discriminate E.
Defined.

(** X4.  When the allocation of the hierarchy fails on a miss,
    [BKE_bvhtree_from_mesh_get] returns null, leaves the heap as it was,
    and caches the null tree: the same acquisition made again returns null
    from the cache and builds nothing, whether or not an allocation would
    succeed by then. *)
Theorem mesh_get_allocation_failure_is_cached mesh type tree_type st data t st' :
  head (alloc_failures st) = Some true ->
  slot_filled type st = false ->
  BKE_bvhtree_from_mesh_get mesh type tree_type st = Ok ((data, t), st') ->
  t = None /\ heap st' = heap st
  /\ BKE_bvhtree_from_mesh_get mesh type tree_type st' = Ok ((data, None), st').
Proof.
  intros Hfail Hempty H.
  assert (t = None /\ heap st' = heap st) as [-> Hheap].
  { pose proof H
      as [[-> Hs]|(it & st2 & st3 & Hi & Hf & Hm & Hbuild & Hbal & _ & _ & ->)]
         %BKE_bvhtree_from_mesh_get_inv.
    { by apply slot_unfilled_not_hit in Hs. }
    apply mesh_build_built in Hbuild. destruct t as [a|].
    - destruct Hbuild as (b & mask & n & _ & _ & _ & _ & Hhead & _). done.
    - apply bvhtree_balance_Ok in Hbal as ->. split; [done|].
      destruct Hbuild as [->|[_ ->]]; done. }
  split; [done|]. split; [done|].
  pose proof H as (Hslot & data0 & Hsetup & ->)%BKE_bvhtree_from_mesh_get_Ok.
  by apply BKE_bvhtree_from_mesh_get_hit.
Qed.

Lemma mesh_get_allocation_failure_is_cached_witness :
  exists data st',
    BKE_bvhtree_from_mesh_get strip_mesh BVHTREE_FROM_EDGES 4 failing_state
    = Ok ((data, None), st')
    /\ alloc_failures st' = []
    /\ BKE_bvhtree_from_mesh_get strip_mesh BVHTREE_FROM_EDGES 4 st'
       = Ok ((data, None), st').
Proof.
  destruct (BKE_bvhtree_from_mesh_get strip_mesh BVHTREE_FROM_EDGES 4 failing_state)
    as [[[data t] st']|e] eqn:E.
  - destruct (mesh_get_allocation_failure_is_cached
                strip_mesh BVHTREE_FROM_EDGES 4 failing_state data t st'
                eq_refl eq_refl E) as (-> & _ & H2).
    exists data, st'. split; [reflexivity|]. split; [|exact H2].
    vm_compute in E. injection E as _ <-. reflexivity.
  - vm_compute in E. discriminate E.
Defined.

(** ** Acquisition from a mesh: what the tree of a variant holds *)

Lemma filter_ext_in {A} (P Q : A -> Prop) `{!forall x, Decision (P x)}
    `{!forall x, Decision (Q x)} (l : list A) :
  (forall x, x ∈ l -> P x <-> Q x) -> filter P l = filter Q l.
Proof.
  induction l as [|x l IH]; intros Hpq; [done|].
  rewrite !filter_cons. rewrite IH by (intros y Hy; apply Hpq; by right).
  destruct (decide (P x)) as [Hp|Hp], (decide (Q x)) as [Hq|Hq]; try done.
  - exfalso. apply Hq, Hpq; [by left|done].
  - exfalso. apply Hp, Hpq; [by left|done].
Qed.

Lemma loose_verts_map_get_result edges verts_num :
  (0 <= verts_num)%Z ->
  (forall e, e ∈ edges -> e_v1 e < Z.to_nat verts_num /\ e_v2 e < Z.to_nat verts_num) ->
  exists mask,
    loose_verts_map_get edges verts_num
    = Ok (mask, (verts_num - Z.of_nat (size (edge_touched edges)))%Z)
    /\ length mask = Z.to_nat verts_num
    /\ forall i, i < Z.to_nat verts_num ->
         mask !! i = Some (bool_decide (i ∉ edge_touched edges)).
Proof.
  intros Hpos Hin.
  destruct (loose_verts_loop_spec (Z.to_nat verts_num) edges
              (replicate (Z.to_nat verts_num) true) 0%Z ∅)
    as (mask & n & Hloop & Hlen & Hbits & Hn & Hcount).
  - split; [by rewrite length_replicate|]. split; [|split].
    + intros i Hi. rewrite lookup_replicate_2 by done. done.
    + by rewrite size_empty.
    + rewrite active_bits_replicate_true, size_empty. lia.
  - done.
  - rewrite union_empty_l_L in *.
    exists mask. unfold loose_verts_map_get.
    destruct (verts_num <? 0)%Z eqn:Hneg; [lia|].
    rewrite Hloop. simpl. subst n. done.
Qed.

Lemma inserted_indices_balanced tr :
  inserted_indices (set_balanced tr) = inserted_indices tr.
Proof. done. Qed.

(** X5.  On a miss, the tree [BKE_bvhtree_from_mesh_get] returns for
    [BVHTREE_FROM_LOOSEVERTS] holds exactly the vertices that no edge has
    as an endpoint, each under its own index, in increasing order. *)
Theorem mesh_get_looseverts_tree mesh tree_type st data a st' :
  slot_filled BVHTREE_FROM_LOOSEVERTS st = false ->
  (0 <= totvert mesh)%Z ->
  (forall e, e ∈ edges mesh ->
     e_v1 e < Z.to_nat (totvert mesh) /\ e_v2 e < Z.to_nat (totvert mesh)) ->
  BKE_bvhtree_from_mesh_get mesh BVHTREE_FROM_LOOSEVERTS tree_type st
  = Ok ((data, Some a), st') ->
  exists tr,
    heap st' !! a = Some tr
    /\ inserted_indices tr
       = Z.of_nat <$> filter (fun i => i ∉ edge_touched (edges mesh))
                             (seq 0 (Z.to_nat (totvert mesh))).
Proof.
  intros Hempty Hpos Hedges
    [[-> Hs]|(it & st2 & st3 & Hi & Hf & Hm & Hbuild & Hbal & _ & _ & ->)]
    %BKE_bvhtree_from_mesh_get_inv.
  { by apply slot_unfilled_not_hit in Hs. }
  unfold mesh_build in Hbuild. cbv zeta in Hbuild.
  apply bind_Ok in Hbuild as ([mask n] & st1 & [Hmask ->]%lift_Ok & Hbuild).
  destruct (loose_verts_map_get_result _ _ Hpos Hedges) as (mask' & Hget & Hlen & Hbits).
  rewrite Hget in Hmask. injection Hmask as <- <-. simpl in Hbuild.
  apply mesh_verts_builds in Hbuild as (tr & Htr & Hidx & _).
  apply bvhtree_balance_Ok in Hbal as (tr' & Htr' & ->).
  assert (tr' = tr) as -> by congruence.
  exists (set_balanced tr). simpl. rewrite lookup_insert_eq. split; [done|].
  rewrite inserted_indices_balanced, Hidx. f_equal.
  apply filter_ext_in. intros i [_ Hi']%elem_of_seq. simpl in Hi'.
  unfold active. destruct mask' as [|b0 mask0] eqn:Hmk; [simpl in Hlen; lia|].
  rewrite <- Hmk in *. rewrite (Hbits i) by lia. simpl.
  by rewrite bool_decide_eq_true.
Qed.

Lemma mesh_get_looseverts_tree_witness :
  let mesh :=
    {| vert_positions := [v3 0 0 0; v3 1 0 0; v3 2 0 0; v3 3 0 0];
       edges := [ {| e_v1 := 0; e_v2 := 2 |} ];
       loops := []; polys := []; looptris := []; mface := None;
       totvert := 4; totedge := 1; totface := 0; totpoly := 0;
       hide_poly_attribute := None;
       loose_edges := {| is_loose_bits := [true]; count := 1 |} |} in
  exists data a st' tr,
    BKE_bvhtree_from_mesh_get mesh BVHTREE_FROM_LOOSEVERTS 4 fresh_state
    = Ok ((data, Some a), st')
    /\ heap st' !! a = Some tr
    /\ inserted_indices tr = [1; 3]%Z.
Proof.
  intros mesh.
  destruct (BKE_bvhtree_from_mesh_get mesh BVHTREE_FROM_LOOSEVERTS 4 fresh_state)
    as [[[data [a|]] st']|e] eqn:E.
  - destruct (mesh_get_looseverts_tree mesh 4 fresh_state data a st') as (tr & Htr & Hidx).
    + reflexivity.
    + simpl. lia.
    + intros e He. apply list_elem_of_In in He. simpl in He.
      destruct He as [<-|[]]. simpl. lia.
    + exact E.
    + exists data, a, st', tr. split; [reflexivity|]. split; [exact Htr|]. exact Hidx.
  - vm_compute in E. discriminate E.
  - vm_compute in E. discriminate E.
Defined.

Lemma no_hidden_bits_all_visible polys :
  forall n i, i < length (no_hidden_bits polys (replicate n false)) ->
    no_hidden_bits polys (replicate n false) !! i = Some true.
Proof.
  induction polys as [|p ps IH]; intros [|n] i Hi; simpl in *; try lia.
  rewrite length_app, length_replicate in Hi.
  destruct (decide (i < Z.to_nat (ME_POLY_TRI_TOT p))) as [Hlt|Hge].
  - rewrite lookup_app_l by (by rewrite length_replicate).
    by rewrite lookup_replicate_2.
  - rewrite lookup_app_r by (rewrite length_replicate; lia).
    rewrite length_replicate. apply IH. lia.
Qed.

Lemma looptri_no_hidden_map_get_stored polys l looptri_len r :
  (forall p, p ∈ polys -> (0 <= ME_POLY_TRI_TOT p)%Z) ->
  length polys <= length l ->
  (Z.of_nat (length (no_hidden_bits polys l)) <= looptri_len)%Z ->
  looptri_no_hidden_map_get polys (VArray_Span l) looptri_len r
  = Ok (no_hidden_bits polys l
          ++ replicate (Z.to_nat looptri_len - length (no_hidden_bits polys l)) false,
        Z.of_nat (active_bits (no_hidden_bits polys l))).
Proof.
  intros Hpos Hsize Hlen. unfold looptri_no_hidden_map_get. simpl.
  destruct (looptri_len <? 0)%Z eqn:Hneg; [lia|].
  pose proof (looptri_no_hidden_loop_spec (VArray_Span l) polys 0 []
                (Z.to_nat looptri_len) 0%Z) as Hloop.
  simpl in Hloop. rewrite drop_0 in Hloop.
  change (Z.of_nat 0) with 0%Z in Hloop.
  rewrite Hloop; [done|done|done|lia].
Qed.

(** X6.  On a miss, the tree [BKE_bvhtree_from_mesh_get] returns for
    [BVHTREE_FROM_LOOPTRI_NO_HIDDEN] holds exactly the loop triangles of
    the polygons that are not hidden, each under its index in the
    tessellation, whether the hidden flags are stored or not. *)
Theorem mesh_get_no_hidden_tree mesh tree_type st data a st' :
  slot_filled BVHTREE_FROM_LOOPTRI_NO_HIDDEN st = false ->
  vert_positions mesh <> [] ->
  (forall p, p ∈ polys mesh -> (0 <= ME_POLY_TRI_TOT p)%Z) ->
  length (polys mesh) <= VArray_size (lookup_hide_poly mesh) ->
  length (no_hidden_bits (polys mesh) (VArray_to_list (lookup_hide_poly mesh)))
  = length (looptris mesh) ->
  BKE_bvhtree_from_mesh_get mesh BVHTREE_FROM_LOOPTRI_NO_HIDDEN tree_type st
  = Ok ((data, Some a), st') ->
  exists tr,
    heap st' !! a = Some tr
    /\ inserted_indices tr = Z.of_nat <$> visible_looptris mesh.
Proof.
  intros Hempty Hverts Hpos Hsize Hlen
    [[-> Hs]|(it & st2 & st3 & Hi & Hf & Hm & Hbuild & Hbal & _ & _ & ->)]
    %BKE_bvhtree_from_mesh_get_inv.
  { by apply slot_unfilled_not_hit in Hs. }
  unfold mesh_build in Hbuild. cbv zeta in Hbuild.
  apply bind_Ok in Hbuild as ([mask n] & st1 & [Hmask ->]%lift_Ok & Hbuild).
  simpl in Hbuild.
  apply mesh_looptri_builds in Hbuild as (tr & Htr & Hidx & _).
  2:{ destruct (vert_positions mesh); done. }
  apply bvhtree_balance_Ok in Hbal as (tr' & Htr' & ->).
  assert (tr' = tr) as -> by congruence.
  exists (set_balanced tr). simpl. rewrite lookup_insert_eq. split; [done|].
  rewrite inserted_indices_balanced, Hidx, Nat2Z.id. f_equal.
  unfold visible_looptris. apply filter_ext_in. intros i [_ Hi']%elem_of_seq.
  simpl in Hi'. revert Hmask Hlen Hsize. unfold lookup_hide_poly.
  destruct (hide_poly_attribute mesh) as [l|]; simpl; intros Hmask Hlen Hsize.
  - rewrite looptri_no_hidden_map_get_stored in Hmask by (done || lia).
    injection Hmask as <- <-. rewrite Nat2Z.id, Hlen, Nat.sub_diag, app_nil_r.
    unfold active. destruct (no_hidden_bits (polys mesh) l) as [|b0 bs] eqn:Hbits.
    { simpl in Hlen. lia. }
    destruct ((b0 :: bs) !! i) as [[]|]; simpl; naive_solver.
  - injection Hmask as <- <-. split; [|done]. intros _.
    apply no_hidden_bits_all_visible. lia.
Qed.

Lemma mesh_get_no_hidden_tree_witness :
  exists data a st' tr,
    BKE_bvhtree_from_mesh_get hidden_quad_mesh BVHTREE_FROM_LOOPTRI_NO_HIDDEN 4 fresh_state
    = Ok ((data, Some a), st')
    /\ heap st' !! a = Some tr
    /\ inserted_indices tr = [2]%Z.
Proof.
  destruct (BKE_bvhtree_from_mesh_get hidden_quad_mesh BVHTREE_FROM_LOOPTRI_NO_HIDDEN 4
              fresh_state) as [[[data [a|]] st']|e] eqn:E.
  - destruct (mesh_get_no_hidden_tree hidden_quad_mesh 4 fresh_state data a st')
      as (tr & Htr & Hidx).
    + reflexivity.
    + discriminate.
    + intros p Hp. apply list_elem_of_In in Hp. simpl in Hp.
      destruct Hp as [<-|[<-|[]]]; vm_compute; discriminate.
    + simpl. lia.
    + reflexivity.
    + exact E.
    + exists data, a, st', tr. split; [reflexivity|]. split; [exact Htr|]. exact Hidx.
  - vm_compute in E. discriminate E.
  - vm_compute in E. discriminate E.
Defined.

(** ** The builders: what they leave alone, and what they check *)

Lemma run_builder_indices b epsilon tree_type axis mask num_active st t st' :
  arrays_present b ->
  run_builder b epsilon tree_type axis mask num_active st = Ok (Some t, st') ->
  exists tr,
    heap st' !! t = Some tr
    /\ inserted_indices tr
       = Z.of_nat <$> filter (fun i => active mask i = true)
                             (seq 0 (Z.to_nat (candidates b)))
    /\ n_insert st'
       = n_insert st
         + length (filter (fun i => active mask i = true)
                          (seq 0 (Z.to_nat (candidates b)))).
Proof.
  destruct b; simpl; intros Hpresent H.
  - by eapply editmesh_verts_builds.
  - by eapply mesh_verts_builds.
  - by eapply editmesh_edges_builds.
  - by eapply mesh_edges_builds.
  - destruct Hpresent. by eapply mesh_faces_builds.
  - by eapply editmesh_looptri_builds.
  - by eapply mesh_looptri_builds.
Qed.

(** X7.  A builder that returns leaves every hierarchy that was live as it
    was and does not touch the cache or the mutexes; it allocates at most
    once; the hierarchy it returns was not live before, and when it returns
    null the heap is as it was. *)
Theorem builder_frame b epsilon tree_type axis mask num_active st r st' :
  run_builder b epsilon tree_type axis mask num_active st = Ok (r, st') ->
  (forall a tr, heap st !! a = Some tr -> heap st' !! a = Some tr)
  /\ bvh_cache st' = bvh_cache st
  /\ eval_mutex st' = eval_mutex st
  /\ n_new st' <= S (n_new st)
  /\ match r with
     | Some t => heap st !! t = None /\ is_Some (heap st' !! t)
     | None => heap st' = heap st /\ n_insert st' = n_insert st
     end.
Proof.
  intros H%run_builder_built. destruct r as [t|].
  - destruct H as (Hfresh & Hother & Hnew & _ & _ & [Hc Hm] & tr & Htr & _).
    split; [|split; [done|split; [done|split; [lia|by rewrite Htr]]]].
    intros a tr0 Ha. rewrite Hother; [done|]. intros ->. congruence.
  - destruct H as [->|[_ ->]]; simpl; repeat split; auto.
Qed.

Lemma builder_frame_witness :
  let b := Build_mesh_edges (Some (vert_positions strip_mesh))
                            (Some (edges strip_mesh)) 5 in
  let mask := [false; true; false; true; false] in
  exists t st',
    run_builder b F32.zero 4 6 mask 2 fresh_state = Ok (Some t, st')
    /\ bvh_cache st' = None
    /\ n_new st' <= 1.
Proof.
  intros b mask.
  destruct (run_builder b F32.zero 4 6 mask 2 fresh_state) as [[[t|] st']|e] eqn:E.
  - destruct (builder_frame b F32.zero 4 6 mask 2 fresh_state (Some t) st' E)
      as (_ & Hc & _ & Hn & _).
    exists t, st'. split; [reflexivity|]. split; [exact Hc | exact Hn].
  - vm_compute in E. discriminate E.
  - vm_compute in E. discriminate E.
Defined.

(** X8.  Every builder but the one of the edges of a mesh ends on the test
    that the hierarchy holds as many primitives as the active count it
    resolved: when such a builder returns a hierarchy, the count passed
    with the mask is the number of candidates the mask selects, and the
    hierarchy is filled to the size it was allocated for. *)
Theorem builder_checks_active_count b epsilon tree_type axis mask num_active st t st' :
  arrays_present b ->
  has_closing_assert b = true ->
  run_builder b epsilon tree_type axis mask num_active st = Ok (Some t, st') ->
  resolved_active b mask num_active
  = Z.of_nat (length (filter (fun i => active mask i = true)
                             (seq 0 (Z.to_nat (candidates b)))))
  /\ exists tr,
       heap st' !! t = Some tr
       /\ bt_maxsize tr = resolved_active b mask num_active
       /\ Z.of_nat (length (inserted_indices tr)) = bt_maxsize tr.
Proof.
  intros Hpresent Hassert H.
  destruct (run_builder_indices _ _ _ _ _ _ _ _ _ Hpresent H) as (tr & Htr & Hidx & _).
  apply run_builder_built in H as (_ & _ & _ & _ & _ & _ & tr' & Htr' & Hcfg & Hlen).
  assert (tr' = tr) as -> by congruence.
  specialize (Hlen Hassert). destruct Hcfg as (Hsize & _).
  assert (length (inserted_indices tr) = length (bt_leaves tr)) as Hl
    by (unfold inserted_indices; by rewrite length_fmap).
  split.
  - rewrite <- Hlen, <- Hl, Hidx. by rewrite length_fmap.
  - exists tr. split; [done|]. split; [exact Hsize|]. rewrite Hl, Hlen. by rewrite Hsize.
Qed.

Lemma builder_checks_active_count_witness :
  let b := Build_mesh_verts (Some (vert_positions strip_mesh)) 6 in
  let mask := [true; false; false; true; false; true] in
  exists t st' tr,
    run_builder b F32.zero 4 6 mask 3 fresh_state = Ok (Some t, st')
    /\ heap st' !! t = Some tr
    /\ bt_maxsize tr = 3%Z
    /\ Z.of_nat (length (inserted_indices tr)) = bt_maxsize tr.
Proof.
  intros b mask.
  destruct (run_builder b F32.zero 4 6 mask 3 fresh_state) as [[[t|] st']|e] eqn:E.
  - destruct (builder_checks_active_count b F32.zero 4 6 mask 3 fresh_state t st' I
                eq_refl E) as (_ & tr & Htr & Hsize & Hfull).
    exists t, st', tr. split; [reflexivity|]. split; [exact Htr|].
    split; [exact Hsize | exact Hfull].
  - vm_compute in E. discriminate E.
  - vm_compute in E. discriminate E.
Defined.

(** The builder of the edges of a mesh has no such test: with a mask that
    selects two of the five candidates and a count of four it returns a
    hierarchy of size four that holds two primitives. *)
Example mesh_edges_builder_accepts_wrong_count :
  exists t st' tr,
    run_builder (Build_mesh_edges (Some (vert_positions strip_mesh))
                                  (Some (edges strip_mesh)) 5)
                F32.zero 4 6 [false; true; false; true; false] 4 fresh_state
    = Ok (Some t, st')
    /\ heap st' !! t = Some tr
    /\ bt_maxsize tr = 4%Z
    /\ inserted_indices tr = [1; 3]%Z.
Proof. vm_compute. eexists _, _, _. repeat split. Qed.

(** X9.  When the allocation of the hierarchy fails, a builder returns null:
    nothing is inserted and the heap is as it was. *)
Theorem builder_allocation_failure b epsilon tree_type axis mask num_active st r st' :
  head (alloc_failures st) = Some true ->
  run_builder b epsilon tree_type axis mask num_active st = Ok (r, st') ->
  r = None /\ heap st' = heap st /\ n_insert st' = n_insert st.
Proof.
  intros Hfail H%run_builder_built. destruct r as [t|].
  - destruct H as (_ & _ & _ & _ & Hok & _). done.
  - by destruct H as [->|[_ ->]].
Qed.

Lemma builder_allocation_failure_witness :
  exists st',
    run_builder (Build_editmesh_verts empty_editmesh) F32.zero 4 6 [] (-1) failing_state
    = Ok (None, st')
    /\ heap st' = heap failing_state.
Proof.
  destruct (run_builder (Build_editmesh_verts empty_editmesh) F32.zero 4 6 [] (-1)
              failing_state) as [[r st']|e] eqn:E.
  - destruct (builder_allocation_failure (Build_editmesh_verts empty_editmesh) F32.zero
                4 6 [] (-1) failing_state r st' eq_refl E) as (-> & Hh & _).
    exists st'. split; [reflexivity | exact Hh].
  - vm_compute in E. discriminate E.
Defined.

(** ** Acquisition from an edit mesh *)

(** [BKE_bvhtree_from_editmesh_get], step by step.  With a cache pointer
    it goes as for a mesh; without one the tree is built and balanced, and
    the cache is not looked at. *)
Lemma BKE_bvhtree_from_editmesh_get_inv em tree_type type p st data t st' :
  BKE_bvhtree_from_editmesh_get em tree_type type p st = Ok ((data, t), st') ->
  (exists data0,
      (forall st2, bvhtree_from_editmesh_setup_data None type em st2 = Ok (data0, st2))
      /\ data = fem_set_cached p (fem_set_tree t data0))
  /\ if p then
       (st' = st /\ fem_cached data = true
        /\ slot_is type {| is_filled := true; tree := t |} st)
       \/ (exists it st2 st3,
             items (cache_or_init st) !! BVHCacheType_index type = Some it
             /\ is_filled it = false
             /\ mutex (cache_or_init st) = false
             /\ editmesh_build em type tree_type None (locked_for_build st) = Ok (t, st2)
             /\ bvhtree_balance t true st2 = Ok (tt, st3)
             /\ bvh_cache st3 = bvh_cache (locked_for_build st)
             /\ eval_mutex st3 = eval_mutex st
             /\ fem_cached data = true
             /\ st' = cached_in type t (cache_or_init st) st3)
     else
       exists st2,
         editmesh_build em type tree_type None st = Ok (t, st2)
         /\ bvhtree_balance t false st2 = Ok (tt, st')
         /\ fem_cached data = false.
Proof.
  unfold BKE_bvhtree_from_editmesh_get. cbv zeta. intros H.
  apply bind_Ok in H as (data0 & st0 & Hsetup & H).
  assert (fem_tree data0 = None /\ fem_cached data0 = false) as [Htree0 Hcached0].
  { clear H. unfold bvhtree_from_editmesh_setup_data in Hsetup.
    destruct type; inv_M; done. }
  apply editmesh_setup_data_pure in Hsetup as [-> Hsetup].
  destruct p.
  - apply bind_Ok in H as ([[found t0] locked] & st1 & Hfind & H).
    rewrite Htree0 in Hfind.
    apply bvhcache_find_lock_spec in Hfind as (it & Hi & Hfind). simpl in H.
    destruct (is_filled it) eqn:Hf.
    + destruct Hfind as (-> & -> & -> & -> & Hc). inv_M.
      split; [exists data0; split; [exact Hsetup|done]|]. left.
      split; [done|]. split; [done|].
      exists (cache_or_init st). split; [done|]. by rewrite Hi, (item_eta it), Hf.
    + destruct Hfind as (-> & -> & -> & Hm & ->). simpl in H.
      apply bind_Ok in H as (t1 & st2 & Hbuild & H).
      apply bind_Ok in H as ([] & st3 & Hbal & H).
      apply bind_Ok in H as ([] & st4 & Hassert & H).
      unfold ret in Hassert. injection Hassert as <-.
      apply bind_Ok in H as ([] & st5 & Hins & H).
      apply bind_Ok in H as ([] & st6 & Hunlock & H). simpl in *.
      unfold ret in H. injection H as <- <- <-.
      split; [exists data0; split; [exact Hsetup|done]|]. right.
      assert (cache_untouched (locked_for_build st) st3) as [Hc3 Hm3].
      { etrans.
        - eapply preserves_apply; [exact Hbuild|]. destruct type; pres.
        - eapply preserves_apply; [exact Hbal|]. pres. }
      exists it, st2, st3. split; [done|]. split; [done|]. split; [done|].
      split; [exact Hbuild|]. split; [exact Hbal|]. split; [done|]. split; [done|].
      split; [done|].
      unfold bvhcache_insert in Hins.
      apply bind_Ok in Hins as (c3 & ? & [Hc3' ->]%the_cache_Ok & Hins).
      apply bind_Ok in Hins as (it3 & ? & Hi3 & Hins). unfold cache_item in Hi3.
      apply index_Ok in Hi3 as [Hi3 ->].
      apply bind_Ok in Hins as ([] & ? & [_ [= ->]]%BLI_assert_Ok & Hins).
      unfold modify in Hins. injection Hins as <-.
      unfold BLI_mutex_unlock_cache in Hunlock.
      apply bind_Ok in Hunlock as (c5 & ? & [Hc5 ->]%the_cache_Ok & Hunlock).
      unfold modify in Hunlock. injection Hunlock as <-.
      simpl in Hc5. injection Hc5 as <-.
      rewrite Hc3 in Hc3'. simpl in Hc3'. injection Hc3' as <-.
      unfold cached_in. simpl. rewrite set_mutex_set_item, <- Hm, set_mutex_same.
      done.
  - apply bind_Ok in H as (r & st1 & Hr & H). unfold ret in Hr. injection Hr as <- <-.
    simpl in H. rewrite Htree0 in H.
    apply bind_Ok in H as (t1 & st2 & Hbuild & H).
    apply bind_Ok in H as ([] & st3 & Hbal & H).
    unfold ret in H. injection H as <- <- <-.
    split; [exists data0; split; [exact Hsetup|]|].
    { unfold fem_set_cached, fem_set_tree. simpl. by rewrite Hcached0. }
    exists st2. split; [exact Hbuild|]. split; [exact Hbal|]. done.
Qed.

Lemma cached_in_slot type t c0 st3 it :
  items c0 !! BVHCacheType_index type = Some it ->
  slot_is type {| is_filled := true; tree := t |} (cached_in type t c0 st3).
Proof.
  intros Hi. eexists. split; [done|]. simpl.
  apply list_lookup_insert_eq. by eapply lookup_lt_Some.
Qed.

Lemma editmesh_build_indices em type tree_type data_tree st a st' :
  editmesh_build em type tree_type data_tree st = Ok (Some a, st') ->
  exists tr,
    heap st' !! a = Some tr
    /\ inserted_indices tr = Z.of_nat <$> seq 0 (Z.to_nat (editmesh_elements em type)).
Proof.
  unfold editmesh_build. intros H.
  destruct type; try (inv_M; done); simpl.
  - apply editmesh_verts_builds in H as (tr & Htr & Hidx & _).
    exists tr. by rewrite Hidx, filter_active_nomask.
  - apply editmesh_edges_builds in H as (tr & Htr & Hidx & _).
    exists tr. by rewrite Hidx, filter_active_nomask.
  - apply editmesh_looptri_builds in H as (tr & Htr & Hidx & _).
    exists tr. by rewrite Hidx, filter_active_nomask.
Qed.

(** X10.  The tree [BKE_bvhtree_from_editmesh_get] builds, with or without
    a cache pointer, holds every vertex, edge or loop triangle of the edit
    mesh, as the variant asks, under its index in the table, in order, and
    is balanced. *)
Theorem editmesh_get_indexes_every_element em tree_type type p st data a st' :
  (p = true -> slot_filled type st = false) ->
  BKE_bvhtree_from_editmesh_get em tree_type type p st = Ok ((data, Some a), st') ->
  exists tr,
    heap st' !! a = Some tr
    /\ inserted_indices tr = Z.of_nat <$> seq 0 (Z.to_nat (editmesh_elements em type))
    /\ bt_balanced tr = true.
Proof.
  intros Hempty [_ H]%BKE_bvhtree_from_editmesh_get_inv.
  assert (exists st2 st3,
             editmesh_build em type tree_type None st2 = Ok (Some a, st3)
             /\ heap st' !! a = (set_balanced <$> heap st3 !! a))
    as (st2 & st3 & Hbuild & Ha).
  { destruct p.
    - destruct H as [(-> & _ & Hs)|(it & st2 & st3 & _ & _ & _ & Hbuild & Hbal & _ & _ & _ & ->)].
      { apply slot_unfilled_not_hit in Hs; [done|]. by apply Hempty. }
      exists (locked_for_build st), st2. split; [done|].
      apply bvhtree_balance_Ok in Hbal as (tr & Htr & ->). simpl.
      by rewrite lookup_insert_eq, Htr.
    - destruct H as (st2 & Hbuild & Hbal & _).
      exists st, st2. split; [done|].
      apply bvhtree_balance_Ok in Hbal as (tr & Htr & ->). simpl.
      by rewrite lookup_insert_eq, Htr. }
  apply editmesh_build_indices in Hbuild as (tr & Htr & Hidx).
  exists (set_balanced tr). rewrite Ha, Htr. done.
Qed.

Lemma editmesh_get_indexes_every_element_witness :
  exists data a st' tr,
    BKE_bvhtree_from_editmesh_get triangle_editmesh 4 BVHTREE_FROM_EM_EDGES false
                                  fresh_state
    = Ok ((data, Some a), st')
    /\ heap st' !! a = Some tr
    /\ inserted_indices tr = [0; 1; 2]%Z.
Proof.
  destruct (BKE_bvhtree_from_editmesh_get triangle_editmesh 4 BVHTREE_FROM_EM_EDGES false
              fresh_state) as [[[data [a|]] st']|e] eqn:E.
  - destruct (editmesh_get_indexes_every_element triangle_editmesh 4
                BVHTREE_FROM_EM_EDGES false fresh_state data a st')
      as (tr & Htr & Hidx & _).
    + discriminate.
    + exact E.
    + exists data, a, st', tr. split; [reflexivity|]. split; [exact Htr | exact Hidx].
  - vm_compute in E. discriminate E.
  - vm_compute in E. discriminate E.
Defined.

(** X11.  Without a cache pointer [BKE_bvhtree_from_editmesh_get] leaves
    the cache and the mutexes alone (no cache is created), keeps every
    hierarchy that was live, and hands out a bundle that is not cached:
    releasing that bundle gives back the heap as it was before the
    acquisition. *)
Theorem editmesh_get_without_cache_is_private em tree_type type st data t st' :
  BKE_bvhtree_from_editmesh_get em tree_type type false st = Ok ((data, t), st') ->
  fem_cached data = false
  /\ bvh_cache st' = bvh_cache st
  /\ eval_mutex st' = eval_mutex st
  /\ (forall a tr, heap st !! a = Some tr -> heap st' !! a = Some tr)
  /\ exists data' st'',
       free_bvhtree_from_editmesh data st' = Ok (data', st'')
       /\ heap st'' = heap st
       /\ bvh_cache st'' = bvh_cache st.
Proof.
  intros [(data0 & _ & ->) (st2 & Hbuild & Hbal & Hcached)]%BKE_bvhtree_from_editmesh_get_inv.
  split; [done|].
  destruct (free_bvhtree_from_editmesh_spec (fem_set_cached false (fem_set_tree t data0)) st')
    as (st'' & Hfree & [Hc'' _] & Hheap). simpl in Hheap, Hfree.
  apply editmesh_build_built in Hbuild. apply bvhtree_balance_Ok in Hbal.
  destruct t as [a|].
  - destruct Hbuild as (b & mask & n & Hfresh & Hother & _ & _ & _ & [Hc Hm] & _).
    destruct Hbal as (tr & Htr & ->). simpl in *.
    split; [done|]. split; [done|]. split.
    { intros a' tr' Ha'. assert (a' <> a) by congruence.
      by rewrite lookup_insert_ne, Hother. }
    eexists _, st''. split; [exact Hfree|]. split; [|congruence].
    rewrite Hheap. apply map_eq. intros i. destruct (decide (i = a)) as [->|Hne].
    + by rewrite lookup_delete_eq.
    + by rewrite lookup_delete_ne, lookup_insert_ne, Hother.
  - subst st'. 
    assert (heap st2 = heap st /\ bvh_cache st2 = bvh_cache st
            /\ eval_mutex st2 = eval_mutex st) as (Hh & Hc & Hm)
      by (by destruct Hbuild as [->|[_ ->]]).
    split; [done|]. split; [done|]. split; [by rewrite Hh|].
    eexists _, st''. split; [exact Hfree|]. split; congruence.
Qed.

Lemma editmesh_get_without_cache_is_private_witness :
  exists data a st' data' st'',
    BKE_bvhtree_from_editmesh_get triangle_editmesh 4 BVHTREE_FROM_EM_VERTS false
                                  fresh_state
    = Ok ((data, Some a), st')
    /\ bvh_cache st' = None
    /\ free_bvhtree_from_editmesh data st' = Ok (data', st'')
    /\ heap st'' = ∅.
Proof.
  destruct (BKE_bvhtree_from_editmesh_get triangle_editmesh 4 BVHTREE_FROM_EM_VERTS false
              fresh_state) as [[[data [a|]] st']|e] eqn:E.
  - destruct (editmesh_get_without_cache_is_private _ _ _ _ _ _ _ E)
      as (_ & Hc & _ & _ & data' & st'' & Hfree & Hheap & _).
    exists data, a, st', data', st''. split; [reflexivity|]. split; [exact Hc|].
    split; [exact Hfree | exact Hheap].
  - vm_compute in E. discriminate E.
  - vm_compute in E. discriminate E.
Defined.

(** X12.  With a cache pointer, a second [BKE_bvhtree_from_editmesh_get] of
    the same variant is a hit: it returns the same bundle and the same
    tree, and changes nothing, the counters of allocations and insertions
    included. *)
Theorem editmesh_get_twice_hits_cache em tree_type type st data t st' :
  BKE_bvhtree_from_editmesh_get em tree_type type true st = Ok ((data, t), st') ->
  fem_cached data = true
  /\ BKE_bvhtree_from_editmesh_get em tree_type type true st' = Ok ((data, t), st').
Proof.
  intros [(data0 & Hsetup & ->) H]%BKE_bvhtree_from_editmesh_get_inv.
  split; [done|].
  assert (slot_is type {| is_filled := true; tree := t |} st') as Hslot.
  { destruct H as [(-> & _ & Hs)|(it & st2 & st3 & Hi & _ & _ & _ & _ & _ & _ & _ & ->)];
      [done|]. by eapply cached_in_slot. }
  unfold BKE_bvhtree_from_editmesh_get. cbv zeta.
  rewrite (bind_Ok_intro _ _ _ _ _ (Hsetup st')).
  rewrite (bind_Ok_intro _ _ _ _ _ (bvhcache_find_hit _ _ _ _ _ Hslot)).
  done.
Qed.

Lemma editmesh_get_twice_hits_cache_witness :
  exists data st',
    BKE_bvhtree_from_editmesh_get triangle_editmesh 4 BVHTREE_FROM_EM_LOOPTRI true
                                  fresh_state
    = Ok ((data, Some 0), st')
    /\ n_insert st' = 1
    /\ BKE_bvhtree_from_editmesh_get triangle_editmesh 4 BVHTREE_FROM_EM_LOOPTRI true st'
       = Ok ((data, Some 0), st').
Proof.
  destruct (BKE_bvhtree_from_editmesh_get triangle_editmesh 4 BVHTREE_FROM_EM_LOOPTRI true
              fresh_state) as [[[data t] st']|e] eqn:E.
  - assert (t = Some 0 /\ n_insert st' = 1) as [-> Hn].
    { vm_compute in E. injection E as _ <- <-. split; reflexivity. }
    exists data, st'. split; [reflexivity|]. split; [exact Hn|].
    destruct (editmesh_get_twice_hits_cache _ _ _ _ _ _ _ E) as [_ H2].
    exact H2.
  - vm_compute in E. discriminate E.
Defined.

(** ** The cache: release and locking *)

Lemma free_each_Ok (its : list BVHCacheItem) st :
  exists st',
    for_each its (fun item => BLI_bvhtree_free (tree item)) st = Ok (tt, st')
    /\ st' = set_heap (heap st') st
    /\ (forall a, Some a ∈ tree <$> its -> heap st' !! a = None)
    /\ (forall a, Some a ∉ tree <$> its -> heap st' !! a = heap st !! a).
Proof.
  revert st. induction its as [|it its IH]; intros st.
  - exists st. split; [done|]. split; [by destruct st|]. split; [|done].
    intros a Ha. simpl in Ha. by apply elem_of_nil in Ha.
  - cbn [for_each].
    assert (exists st1, BLI_bvhtree_free (tree it) st = Ok (tt, st1)
                        /\ st1 = set_heap (heap st1) st
                        /\ heap st1 = match tree it with
                                      | Some a => delete a (heap st)
                                      | None => heap st
                                      end) as (st1 & Hfree & Hst1 & Hh1).
    { unfold BLI_bvhtree_free. destruct (tree it) as [a|].
      - eexists. split; [reflexivity|]. done.
      - exists st. split; [done|]. split; [by destruct st|done]. }
    destruct (IH st1) as (st' & Hrest & Hst' & Hin & Hout).
    exists st'. split; [by rewrite (bind_Ok_intro _ _ _ _ _ Hfree)|].
    split; [rewrite Hst', Hst1; done|]. split.
    + intros a Ha. rewrite fmap_cons in Ha.
      destruct (decide (Some a ∈ tree <$> its)) as [Hits|Hits]; [by apply Hin|].
      apply elem_of_cons in Ha as [Ha|Ha]; [|done].
      rewrite Hout, Hh1, <- Ha by done. by rewrite lookup_delete_eq.
    + intros a Ha. rewrite fmap_cons in Ha.
      apply not_elem_of_cons in Ha as [Hne Hits].
      rewrite Hout, Hh1 by done. destruct (tree it) as [a'|]; [|done].
      rewrite lookup_delete_ne; [done|]. congruence.
Qed.


Lemma BVHCacheType_index_lt type :
  type <> BVHTREE_MAX_ITEM -> BVHCacheType_index type < BVHTREE_MAX_ITEM_num.
Proof. destruct type; intros Hne; try done; vm_compute; lia. Qed.

(** X14.  The tree [BKE_bvhtree_from_mesh_get] returns belongs to the
    cache: releasing the bundle with [free_bvhtree_from_mesh] leaves the
    heap as it is, and [bvhcache_free] of the cache of the mesh releases
    the tree. *)
Theorem acquired_tree_is_freed_with_cache mesh type tree_type st data a st' :
  type <> BVHTREE_MAX_ITEM ->
  BKE_bvhtree_from_mesh_get mesh type tree_type st = Ok ((data, Some a), st') ->
  exists c st1 st2,
    bvh_cache st' = Some c
    /\ free_bvhtree_from_mesh data st' = Ok (BVHTreeFromMesh_zero, st1)
    /\ heap st1 = heap st'
    /\ bvhcache_free c st1 = Ok (tt, st2)
    /\ heap st2 !! a = None.
Proof.
  intros Htype H.
  pose proof H as ((c & Hc & Hi) & data0 & _ & ->)%BKE_bvhtree_from_mesh_get_Ok.
  destruct (free_bvhtree_from_mesh_spec (fm_set_cached true (fm_set_tree (Some a) data0)) st')
    as (st1 & Hfree & _ & Hheap). simpl in Hheap.
  unfold bvhcache_free.
  destruct (free_each_Ok (take BVHTREE_MAX_ITEM_num (items c)) st1)
    as (st2 & Hfree2 & _ & Hin & _).
  exists c, st1, st2. split; [done|]. split; [done|]. split; [done|]. split; [done|].
  apply Hin. apply list_elem_of_fmap. eexists. split; [|eapply list_elem_of_lookup_2].
  2:{ rewrite lookup_take_lt by (by apply BVHCacheType_index_lt). exact Hi. }
  done.
Qed.

Lemma acquired_tree_is_freed_with_cache_witness :
  exists data a st' c st1 st2,
    BKE_bvhtree_from_mesh_get strip_mesh BVHTREE_FROM_EDGES 4 fresh_state
    = Ok ((data, Some a), st')
    /\ bvh_cache st' = Some c
    /\ free_bvhtree_from_mesh data st' = Ok (BVHTreeFromMesh_zero, st1)
    /\ bvhcache_free c st1 = Ok (tt, st2)
    /\ heap st2 !! a = None.
Proof.
  destruct (BKE_bvhtree_from_mesh_get strip_mesh BVHTREE_FROM_EDGES 4 fresh_state)
    as [[[data [a|]] st']|e] eqn:E.
  - destruct (acquired_tree_is_freed_with_cache strip_mesh BVHTREE_FROM_EDGES 4
                fresh_state data a st') as (c & st1 & st2 & Hc & Hf & _ & Hf2 & Ha).
    + discriminate.
    + exact E.
    + exists data, a, st', c, st1, st2. split; [reflexivity|]. split; [exact Hc|].
      split; [exact Hf|]. split; [exact Hf2 | exact Ha].
  - vm_compute in E. discriminate E.
  - vm_compute in E. discriminate E.
Defined.

(** X15.  [bvhcache_find] with a lock requested reports the lock started
    exactly on a miss, and [bvhcache_unlock] with that flag gives the mutex
    back: after the two calls the state is the one before, but for the
    cache that a miss has created when there was none. *)
Theorem find_then_unlock_restores_state type r st found t locked st' :
  bvhcache_find type r true st = Ok ((found, t, locked), st') ->
  locked = negb found
  /\ exists st'',
       bvhcache_unlock locked st' = Ok (tt, st'')
       /\ st'' = set_bvh_cache (Some (cache_or_init st)) st
       /\ (is_Some (bvh_cache st) -> st'' = st).
Proof.
  intros (it & Hi & H)%bvhcache_find_lock_spec.
  assert (is_Some (bvh_cache st) -> set_bvh_cache (Some (cache_or_init st)) st = st)
    as Hsame.
  { intros [c Hc]. unfold cache_or_init. rewrite Hc. simpl. rewrite <- Hc. by destruct st. }
  destruct (is_filled it).
  - destruct H as (-> & -> & -> & -> & Hc). split; [done|]. exists st.
    split; [done|]. split; [|done]. symmetry. apply Hsame. by rewrite Hc.
  - destruct H as (-> & -> & -> & Hm & ->). split; [done|].
    eexists. split; [reflexivity|]. simpl.
    assert (set_mutex false (set_mutex true (cache_or_init st)) = cache_or_init st) as ->.
    { destruct (cache_or_init st) as [its m]. simpl in Hm. by subst m. }
    split; [done|]. exact Hsame.
Qed.

Lemma find_then_unlock_restores_state_witness :
  exists t st' st'',
    bvhcache_find BVHTREE_FROM_VERTS None true fresh_state = Ok ((false, t, true), st')
    /\ bvhcache_unlock true st' = Ok (tt, st'')
    /\ st'' = set_bvh_cache (Some bvhcache_init) fresh_state.
Proof.
  destruct (bvhcache_find BVHTREE_FROM_VERTS None true fresh_state)
    as [[[[found t] locked] st']|e] eqn:E.
  - destruct (find_then_unlock_restores_state _ _ _ _ _ _ _ E) as (Hl & st'' & Hu & Hst & _).
    assert (found = false /\ locked = true) as [-> ->].
    { vm_compute in E. injection E as <- _ <- _. split; reflexivity. }
    exists t, st', st''. split; [reflexivity|]. split; [exact Hu | exact Hst].
  - vm_compute in E. discriminate E.
Defined.

(** ** The callbacks: the search bound never grows *)

Lemma SFcompare_Lt_trans a b c :
  SFcompare a b = Some Lt -> SFcompare b c = Some Lt -> SFcompare a c = Some Lt.
Proof.
  destruct a as [sa|sa| |sa ma ea], b as [sb|sb| |sb mb eb], c as [sc|sc| |sc mc ec];
    simpl; try discriminate;
    try (destruct sa, sb, sc; simpl; (discriminate || reflexivity)).
  change (Pos.compare_cont Eq ma mb) with (Pos.compare ma mb).
  change (Pos.compare_cont Eq mb mc) with (Pos.compare mb mc).
  change (Pos.compare_cont Eq ma mc) with (Pos.compare ma mc).
  destruct sa, sb, sc; simpl; try (discriminate || reflexivity);
    destruct (Z.compare_spec ea eb), (Z.compare_spec eb ec), (Z.compare_spec ea ec);
    try discriminate; try reflexivity; try lia; subst;
    destruct (Pos.compare_spec ma mb), (Pos.compare_spec mb mc),
      (Pos.compare_spec ma mc); simpl; try discriminate; try reflexivity; lia.
Qed.

Lemma SFcompare_Lt_irrefl a : SFcompare a a <> Some Lt.
Proof.
  destruct a as [s|s| |s m e]; simpl; try discriminate; try (by destruct s).
  change (Pos.compare_cont Eq m m) with (Pos.compare m m).
  rewrite Z.compare_refl, Pos.compare_refl. by destruct s.
Qed.

Lemma SFltb_Lt a b : SFltb a b = true <-> SFcompare a b = Some Lt.
Proof. unfold SFltb. destruct (SFcompare a b) as [[]|]; split; done. Qed.

Lemma SFltb_trans a b c : SFltb a b = true -> SFltb b c = true -> SFltb a c = true.
Proof. rewrite !SFltb_Lt. apply SFcompare_Lt_trans. Qed.

Lemma SFltb_asym a b : SFltb a b = true -> SFltb b a = false.
Proof.
  intros Hab. destruct (SFltb b a) eqn:Hba; [|done].
  destruct (SFcompare_Lt_irrefl a). apply SFltb_Lt. by eapply SFltb_trans.
Qed.

Lemma tightened_trans d1 d2 d3 : tightened d1 d2 -> tightened d2 d3 -> tightened d1 d3.
Proof.
  intros [->|H12] [->|H23]; [by left|by right|by right|].
  right. by eapply SFltb_trans.
Qed.

Lemma tightened_not_above d d' : tightened d d' -> SFltb d d' = false.
Proof.
  intros [->|H]; [|by apply SFltb_asym].
  destruct (SFltb d d) eqn:E; [|done]. by apply SFltb_Lt, SFcompare_Lt_irrefl in E.
Qed.

Section PointCallbackRules.
Context `{BLI_math} `{BLI_math_vector}.

Lemma nearest_tri_step_rule index co_ t0 t1 t2 nearest :
  nearest_tri_rule index co_ t0 t1 t2 nearest (nearest_tri_step index co_ t0 t1 t2 nearest).
Proof.
  unfold nearest_tri_rule, nearest_rule, nearest_tri_step, F32.ltb. cbv zeta.
  destruct (SFltb _ _); split; done.
Qed.

Lemma nearest_rule_tightened index p no dist_sq nearest nearest' :
  nearest_rule index p no dist_sq nearest nearest' ->
  tightened (near_dist_sq nearest) (near_dist_sq nearest').
Proof.
  intros [Hyes Hno]. destruct (SFltb dist_sq (near_dist_sq nearest)) eqn:E.
  - rewrite Hyes by done. by right.
  - rewrite Hno by done. by left.
Qed.

Lemma hit_rule_tightened index ray t0 t1 t2 hit hit' :
  hit_rule index ray t0 t1 t2 hit hit' -> tightened (hit_dist hit) (hit_dist hit').
Proof.
  intros [Hyes Hno].
  destruct (F32.geb (ray_tri_distance ray (hit_dist hit) t0 t1 t2) F32.zero
            && F32.ltb (ray_tri_distance ray (hit_dist hit) t0 t1 t2) (hit_dist hit)) eqn:E.
  - pose proof E as Hc%closer_test. rewrite (Hyes Hc). right. apply Hc.
  - rewrite Hno; [by left|]. intros Hc%closer_test. congruence.
Qed.

Lemma mesh_faces_nearest_point_rule data index co_ nearest nearest' :
  mesh_faces_nearest_point data index co_ nearest = Ok nearest' ->
  exists t0 t1 t2 t3 n1,
    mesh_faces_corners data index = Ok (t0, t1, t2, t3)
    /\ nearest_tri_rule index co_ t0 t1 t2 nearest n1
    /\ match t3 with
       | Some t3 => nearest_tri_rule index co_ t0 t2 t3 n1 nearest'
       | None => nearest' = n1
       end.
Proof.
  unfold mesh_faces_nearest_point.
  destruct (mesh_faces_corners data index) as [[[[t0 t1] t2] t3]|e]; simpl; [|done].
  intros Hr. exists t0, t1, t2, t3. eexists.
  split; [done|]. split; [apply nearest_tri_step_rule|].
  destruct t3 as [t3|]; injection Hr as <-; [|done].
  apply nearest_tri_step_rule.
Qed.

Lemma mesh_looptri_nearest_point_rule data index co_ nearest nearest' :
  mesh_looptri_nearest_point data index co_ nearest = Ok nearest' ->
  exists t0 t1 t2,
    mesh_looptri_vtri_co data index = Ok (t0, t1, t2)
    /\ nearest_tri_rule index co_ t0 t1 t2 nearest nearest'.
Proof.
  unfold mesh_looptri_nearest_point.
  destruct (mesh_looptri_vtri_co data index) as [[[t0 t1] t2]|e]; simpl; [|done].
  intros [= <-]. exists t0, t1, t2. split; [done|]. apply nearest_tri_step_rule.
Qed.

Lemma editmesh_looptri_nearest_point_rule data index co_ nearest nearest' :
  editmesh_looptri_nearest_point data index co_ nearest = Ok nearest' ->
  exists t0 t1 t2,
    editmesh_looptri_corners data index = Ok (t0, t1, t2)
    /\ nearest_tri_rule index co_ t0 t1 t2 nearest nearest'.
Proof.
  unfold editmesh_looptri_nearest_point.
  destruct (editmesh_looptri_corners data index) as [[[t0 t1] t2]|e]; simpl; [|done].
  intros [= <-]. exists t0, t1, t2. split; [done|]. apply nearest_tri_step_rule.
Qed.

Lemma mesh_edges_nearest_point_rule data index co_ nearest nearest' :
  mesh_edges_nearest_point data index co_ nearest = Ok nearest' ->
  exists t0 t1,
    mesh_edge_ends data index = Ok (t0, t1)
    /\ let p := closest_to_line_segment_v3 co_ t0 t1 in
       nearest_rule index p (normalize_v3 (sub_v3_v3v3 t0 t1)) (len_squared_v3v3 p co_)
                    nearest nearest'.
Proof.
  unfold mesh_edges_nearest_point.
  destruct (mesh_edge_ends data index) as [[t0 t1]|e]; simpl; [|done].
  intros Hr. exists t0, t1. split; [done|]. unfold nearest_rule, F32.ltb in *.
  destruct (SFltb _ _); injection Hr as <-; split; done.
Qed.

Lemma mesh_verts_spherecast_do_point_hit index v ray hit :
  point_hit index ray hit (mesh_verts_spherecast_do index v ray hit).
Proof.
  unfold mesh_verts_spherecast_do. cbv zeta.
  destruct (F32.geb _ _ && F32.ltb _ _) eqn:E; [|by left].
  apply andb_true_iff in E as [_ E]. right. done.
Qed.

Lemma mesh_edges_spherecast_point_hit data index ray hit hit' :
  mesh_edges_spherecast data index ray hit = Ok hit' -> point_hit index ray hit hit'.
Proof.
  unfold mesh_edges_spherecast.
  destruct (mesh_edge_ends data index) as [[v1 v2]|e]; simpl; [|done].
  destruct (equals_v3v3 v1 v2).
  { intros [= <-]. apply mesh_verts_spherecast_do_point_hit. }
  destruct (isect_line_line_v3 _ _ _ _) as [[i1 i2]|]; [|by intros [= <-]; left].
  destruct (F32.geb _ _ && F32.ltb _ _) eqn:E; [|by intros [= <-]; left].
  apply andb_true_iff in E as [_ E].
  destruct (F32.leb _ _); intros [= <-]; [|by left]. by right.
Qed.

Lemma point_hit_tightened index ray hit hit' :
  point_hit index ray hit hit' -> tightened (hit_dist hit) (hit_dist hit').
Proof. intros [->|(_ & _ & _ & Hlt)]; [by left|by right]. Qed.
End PointCallbackRules.



(** X17.  The ray-cast callbacks of points and edges never write the
    normal of the hit: [mesh_verts_spherecast], [editmesh_verts_spherecast]
    and [mesh_edges_spherecast] either leave the hit record as it is, or
    record their element at a distance strictly below the bound, that
    distance being the one from the origin of the ray to the point
    recorded, and keep the normal the record had. *)
Theorem point_and_edge_spherecast_keep_normal `{BLI_math_vector} :
  (forall data index ray hit hit',
      mesh_verts_spherecast data index ray hit = Ok hit' -> point_hit index ray hit hit')
  /\ (forall data index ray hit hit',
         editmesh_verts_spherecast data index ray hit = Ok hit' ->
         point_hit index ray hit hit')
  /\ (forall data index ray hit hit',
         mesh_edges_spherecast data index ray hit = Ok hit' ->
         point_hit index ray hit hit').
Proof.
  split; [|split].
  - intros data index ray hit hit'. unfold mesh_verts_spherecast.
    destruct (at_ptr _ _) as [v|e]; simpl; [|done].
    intros [= <-]. apply mesh_verts_spherecast_do_point_hit.
  - intros data index ray hit hit'. unfold editmesh_verts_spherecast.
    destruct (fem_em data) as [em|]; [|done].
    destruct (at_index _ _) as [eve|e]; simpl; [|done].
    intros [= <-]. apply mesh_verts_spherecast_do_point_hit.
  - exact mesh_edges_spherecast_point_hit.
Qed.

Lemma point_and_edge_spherecast_keep_normal_witness :
  let data :=
    {| fm_tree := None; fm_nearest_callback := None; fm_raycast_callback := None;
       fm_vert_positions := Some (vert_positions strip_mesh);
       fm_edge := Some (edges strip_mesh); fm_face := None;
       fm_loop := None; fm_looptri := None; fm_cached := false |} in
  let ray := {| origin := v3 0 0 0; direction := v3 0 0 1; radius := F32.of_pos 1 |} in
  let hit := {| hit_index := -1; hit_co := v3 0 0 0; hit_no := v3 0 0 1;
                hit_dist := F32.FLT_MAX |} in
  exists hit',
    @mesh_edges_spherecast unit_vector_math data 2 ray hit = Ok hit'
    /\ @point_hit unit_vector_math 2 ray hit hit'
    /\ hit_index hit' = 2%Z.
Proof.
  intros data ray hit.
  destruct (@mesh_edges_spherecast unit_vector_math data 2 ray hit) as [hit'|e] eqn:E.
  - exists hit'. split; [reflexivity|]. split.
    + exact (proj2 (proj2 (@point_and_edge_spherecast_keep_normal unit_vector_math))
               data 2 ray hit hit' E).
    + vm_compute in E. injection E as <-. reflexivity.
  - vm_compute in E. discriminate E.
Defined.

(** X18.  No callback ever raises the search bound: after any of the six
    ray-cast callbacks the distance of the hit record is not above the one
    it had, and after any of the four nearest-point callbacks the squared
    distance of the nearest record is not above the one it had, the two
    steps on a quad included. *)
Theorem callbacks_never_raise_the_bound `{BLI_math} `{BLI_math_vector} :
  (forall data index ray hit hit',
      mesh_faces_spherecast data index ray hit = Ok hit'
      \/ mesh_looptri_spherecast data index ray hit = Ok hit'
      \/ mesh_verts_spherecast data index ray hit = Ok hit'
      \/ mesh_edges_spherecast data index ray hit = Ok hit' ->
      SFltb (hit_dist hit) (hit_dist hit') = false)
  /\ (forall data index ray hit hit',
         editmesh_looptri_spherecast data index ray hit = Ok hit'
         \/ editmesh_verts_spherecast data index ray hit = Ok hit' ->
         SFltb (hit_dist hit) (hit_dist hit') = false)
  /\ (forall data index co_ nearest nearest',
         mesh_faces_nearest_point data index co_ nearest = Ok nearest'
         \/ mesh_looptri_nearest_point data index co_ nearest = Ok nearest'
         \/ mesh_edges_nearest_point data index co_ nearest = Ok nearest' ->
         SFltb (near_dist_sq nearest) (near_dist_sq nearest') = false)
  /\ (forall data index co_ nearest nearest',
         editmesh_looptri_nearest_point data index co_ nearest = Ok nearest' ->
         SFltb (near_dist_sq nearest) (near_dist_sq nearest') = false).
Proof.
  split; [|split; [|split]].
  - intros data index ray hit hit' Hcb. apply tightened_not_above.
    destruct Hcb as [Hcb|[Hcb|[Hcb|Hcb]]].
    + apply mesh_faces_spherecast_rule in Hcb as (t0 & t1 & t2 & t3 & hit1 & _ & H1 & H2).
      apply hit_rule_tightened in H1. destruct t3 as [t3|]; [|by subst].
      apply hit_rule_tightened in H2. by eapply tightened_trans.
    + apply mesh_looptri_spherecast_rule in Hcb as (t0 & t1 & t2 & _ & H1).
      by eapply hit_rule_tightened.
    + revert Hcb. unfold mesh_verts_spherecast.
      destruct (at_ptr _ _) as [v|e]; simpl; [|done]. intros [= <-].
      eapply point_hit_tightened, mesh_verts_spherecast_do_point_hit.
    + eapply point_hit_tightened, mesh_edges_spherecast_point_hit, Hcb.
  - intros data index ray hit hit' Hcb. apply tightened_not_above.
    destruct Hcb as [Hcb|Hcb].
    + apply editmesh_looptri_spherecast_rule in Hcb as (t0 & t1 & t2 & _ & H1).
      by eapply hit_rule_tightened.
    + revert Hcb. unfold editmesh_verts_spherecast.
      destruct (fem_em data) as [em|]; [|done].
      destruct (at_index _ _) as [eve|e]; simpl; [|done]. intros [= <-].
      eapply point_hit_tightened, mesh_verts_spherecast_do_point_hit.
  - intros data index co_ nearest nearest' Hcb. apply tightened_not_above.
    destruct Hcb as [Hcb|[Hcb|Hcb]].
    + apply mesh_faces_nearest_point_rule in Hcb
        as (t0 & t1 & t2 & t3 & n1 & _ & H1 & H2).
      apply nearest_rule_tightened in H1. destruct t3 as [t3|]; [|by subst].
      apply nearest_rule_tightened in H2. by eapply tightened_trans.
    + apply mesh_looptri_nearest_point_rule in Hcb as (t0 & t1 & t2 & _ & H1).
      by eapply nearest_rule_tightened.
    + apply mesh_edges_nearest_point_rule in Hcb as (t0 & t1 & _ & H1).
      by eapply nearest_rule_tightened.
  - intros data index co_ nearest nearest' Hcb. apply tightened_not_above.
    apply editmesh_looptri_nearest_point_rule in Hcb as (t0 & t1 & t2 & _ & H1).
    by eapply nearest_rule_tightened.
Qed.

Lemma callbacks_never_raise_the_bound_witness :
  let data :=
    {| fm_tree := None; fm_nearest_callback := None; fm_raycast_callback := None;
       fm_vert_positions := Some (vert_positions strip_mesh);
       fm_edge := None; fm_face := None;
       fm_loop := Some (loops strip_mesh); fm_looptri := Some (looptris strip_mesh);
       fm_cached := false |} in
  let ray := {| origin := v3 0 0 0; direction := v3 0 0 1; radius := F32.zero |} in
  let hit := {| hit_index := -1; hit_co := v3 0 0 0; hit_no := v3 0 0 0;
                hit_dist := F32.FLT_MAX |} in
  exists hit',
    @mesh_looptri_spherecast unit_hit_math data 1 ray hit = Ok hit'
    /\ SFltb (hit_dist hit) (hit_dist hit') = false.
Proof.
  intros data ray hit.
  destruct (@mesh_looptri_spherecast unit_hit_math data 1 ray hit) as [hit'|e] eqn:E.
  - exists hit'. split; [reflexivity|].
    exact (proj1 (@callbacks_never_raise_the_bound unit_hit_math unit_vector_math)
             data 1 ray hit hit' (or_intror (or_introl E))).
  - vm_compute in E. discriminate E.
Defined.

(** ** Point clouds *)

Lemma pointcloud_loop_run tree :
  forall l pre st tr,
    heap st !! tree = Some tr ->
    exists st',
      for_each (seq (length pre) (length l))
               (fun i => p <- index (pre ++ l) i ;; BLI_bvhtree_insert tree (Z.of_nat i) [p])
               st
      = Ok (tt, st')
      /\ heap st' = <[tree := add_leaves (point_leaves (length pre) l) tr]> (heap st)
      /\ bvh_cache st' = bvh_cache st /\ eval_mutex st' = eval_mutex st
      /\ n_new st' = n_new st /\ alloc_failures st' = alloc_failures st.
Proof.
  induction l as [|p l IH]; intros pre st tr Htr.
  - exists st. simpl. split; [done|]. split; [|done].
    unfold point_leaves, add_leaves. simpl. rewrite app_nil_r.
    rewrite insert_id; [done|]. rewrite Htr. by destruct tr.
  - cbn [length seq for_each].
    assert (index (pre ++ p :: l) (length pre) st = Ok (p, st)) as Hidx.
    { unfold index. by rewrite lookup_app_r, Nat.sub_diag by lia. }
    set (st1 := set_heap (<[tree := add_leaf (Z.of_nat (length pre)) [p] tr]> (heap st))
                  (set_counts (alloc_failures st) (n_new st) (S (n_insert st)) st)).
    assert ((p0 <- index (pre ++ p :: l) (length pre) ;;
             BLI_bvhtree_insert tree (Z.of_nat (length pre)) [p0]) st = Ok (tt, st1))
      as Hstep.
    { rewrite (bind_Ok_intro _ _ _ _ _ Hidx).
      unfold BLI_bvhtree_insert, the_tree, bind, gets, modify, ret. by rewrite Htr. }
    rewrite (bind_Ok_intro _ _ _ _ _ Hstep).
    destruct (IH (pre ++ [p]) st1 (add_leaf (Z.of_nat (length pre)) [p] tr))
      as (st' & Hrun & Hheap & Hc & Hm & Hn & Hf).
    { subst st1. simpl. by rewrite lookup_insert_eq. }
    rewrite length_app, Nat.add_1_r, <- app_assoc in Hrun. simpl in Hrun.
    exists st'. split; [exact Hrun|]. split; [|done].
    rewrite Hheap. subst st1. simpl. rewrite insert_insert_eq. f_equal.
    unfold add_leaves, add_leaf, point_leaves. simpl.
    rewrite length_app, Nat.add_1_r, <- app_assoc. done.
Qed.

Lemma point_leaves_indices first positions :
  (point_leaves first positions).*1 = Z.of_nat <$> seq first (length positions).
Proof.
  unfold point_leaves. revert first.
  induction positions as [|p l IH]; intros first; simpl; [done|]. by rewrite IH.
Qed.

Lemma point_leaves_length first positions :
  length (point_leaves first positions) = length positions.
Proof. by rewrite <- (length_fmap fst), point_leaves_indices, length_fmap, length_seq. Qed.

Lemma pointcloud_get_run data pointcloud tree_type st :
  head (alloc_failures st) <> Some true ->
  Z.of_nat (length (pointcloud_positions pointcloud)) = totpoint pointcloud ->
  exists a st',
    BKE_bvhtree_from_pointcloud_get data pointcloud tree_type st
    = Ok (({| pc_tree := Some a; pc_nearest_callback := None;
              pc_coords := pointcloud_coords pointcloud |}, Some a), st')
    /\ heap st !! a = None
    /\ heap st'
       = <[a := set_balanced
                  (add_leaves (point_leaves 0 (pointcloud_positions pointcloud))
                              (empty_tree (totpoint pointcloud) F32.zero
                                          (char_of_int tree_type) (char_of_int 6)))]>
           (heap st)
    /\ bvh_cache st' = bvh_cache st.
Proof.
  intros Hok Hlen. set (a := fresh (dom (heap st))).
  set (tr0 := empty_tree (totpoint pointcloud) F32.zero
                         (char_of_int tree_type) (char_of_int 6)).
  set (st1 := set_heap (<[a := tr0]> (heap st))
                (set_counts (tail (alloc_failures st)) (S (n_new st)) (n_insert st) st)).
  assert (BLI_bvhtree_new (totpoint pointcloud) F32.zero tree_type 6 st = Ok (Some a, st1))
    as Hnew.
  { unfold BLI_bvhtree_new, bind, gets, modify, ret. simpl.
    destruct (alloc_failures st) as [|[] ?]; done. }
  destruct (pointcloud_loop_run a (pointcloud_positions pointcloud) [] st1 tr0)
    as (st2 & Hloop & Hheap2 & Hc2 & _).
  { subst st1. simpl. by rewrite lookup_insert_eq. }
  simpl in Hloop. subst st1. simpl in Hheap2, Hc2. rewrite insert_insert_eq in Hheap2.
  exists a. eexists. split; [|split; [apply not_elem_of_dom, is_fresh|]].
  - unfold BKE_bvhtree_from_pointcloud_get. rewrite (bind_Ok_intro _ _ _ _ _ Hnew).
    cbv zeta. unfold for_range. rewrite Nat2Z.id.
    rewrite (bind_Ok_intro _ _ _ _ _ Hloop).
    unfold BLI_bvhtree_get_len, bvhtree_balance, BLI_bvhtree_balance, the_tree,
      BLI_assert, bind, gets, modify, ret.
    rewrite Hheap2, lookup_insert_eq. cbn beta iota.
    unfold add_leaves at 1. simpl. rewrite point_leaves_length, Hlen, Z.eqb_refl.
    cbn beta iota. rewrite Hheap2, lookup_insert_eq. reflexivity.
  - simpl. rewrite Hheap2, insert_insert_eq. done.
Qed.

(** X19.  For a point cloud whose positions are as many as [totpoint], and
    when the allocation does not fail, [BKE_bvhtree_from_pointcloud_get]
    returns a tree at an address that was not live: it is sized for
    [totpoint], holds every point under its own index in order, and is
    balanced, with epsilon 0 and 6 axes, and with the tree type asked for
    when that is in the range 0 to 127 of a [char]; the rest of the heap and
    the cache are as they were.  The bundle carries the tree and no
    callback; its [coords] is the array of the attribute when the positions
    are stored, and is left dangling when they are not. *)
Theorem pointcloud_get_indexes_every_point data pointcloud tree_type st :
  head (alloc_failures st) <> Some true ->
  Z.of_nat (length (pointcloud_positions pointcloud)) = totpoint pointcloud ->
  exists a st' tr,
    BKE_bvhtree_from_pointcloud_get data pointcloud tree_type st
    = Ok (({| pc_tree := Some a; pc_nearest_callback := None;
              pc_coords := pointcloud_coords pointcloud |}, Some a), st')
    /\ (position_attribute pointcloud = None
        -> pointcloud_coords pointcloud = Coords_dangling)
    /\ heap st !! a = None
    /\ heap st' = <[a := tr]> (heap st)
    /\ bt_maxsize tr = totpoint pointcloud
    /\ bt_leaves tr = point_leaves 0 (pointcloud_positions pointcloud)
    /\ bt_balanced tr = true
    /\ bt_epsilon tr = F32.zero
    /\ bt_axis tr = 6%Z
    /\ ((0 <= tree_type < 128)%Z -> bt_tree_type tr = tree_type)
    /\ bvh_cache st' = bvh_cache st.
Proof.
  intros Hok Hlen.
  destruct (pointcloud_get_run data pointcloud tree_type st Hok Hlen)
    as (a & st' & Hget & Hfresh & Hheap & Hc).
  exists a, st'. eexists. split; [exact Hget|].
  split; [by unfold pointcloud_coords; intros ->|].
  split; [exact Hfresh|]. split; [exact Hheap|]. simpl.
  repeat split; try done. intros Hrange. by apply char_of_int_small.
Qed.

Lemma pointcloud_get_indexes_every_point_witness :
  exists data' a st' tr,
    BKE_bvhtree_from_pointcloud_get BVHTreeFromPointCloud_zero three_points 4 fresh_state
    = Ok ((data', Some a), st')
    /\ heap st' !! a = Some tr
    /\ inserted_indices tr = [0; 1; 2]%Z
    /\ bt_balanced tr = true
    /\ bt_tree_type tr = 4%Z.
Proof.
  destruct (pointcloud_get_indexes_every_point BVHTreeFromPointCloud_zero three_points 4
              fresh_state)
    as (a & st' & tr & Hget & _ & _ & Hheap & _ & Hleaves & Hbal & _ & _ & Ht & _).
  - simpl. discriminate.
  - reflexivity.
  - eexists _, a, st', tr. split; [exact Hget|].
    split; [rewrite Hheap; apply lookup_insert_eq|].
    split; [unfold inserted_indices; rewrite Hleaves; reflexivity|].
    split; [exact Hbal|]. apply Ht. lia.
Defined.

(** Without the stored attribute the tree is the same, of three points at
    the origin, and the pointer of the bundle dangles. *)
Example pointcloud_get_default_positions_dangle :
  exists data' a st',
    BKE_bvhtree_from_pointcloud_get
      BVHTreeFromPointCloud_zero {| totpoint := 3; position_attribute := None |} 4
      fresh_state
    = Ok ((data', Some a), st')
    /\ pc_coords data' = Coords_dangling.
Proof. eexists _, _, _. split; [vm_compute; reflexivity|reflexivity]. Qed.

(** X20.  A point cloud has no cache: whenever
    [BKE_bvhtree_from_pointcloud_get] returns, the cache and the mutexes are
    as they were and every hierarchy that was live is untouched.  When the
    allocation fails it returns null and leaves the bundle and the heap as
    they were; otherwise the tree is new, and
    [free_bvhtree_from_pointcloud] on the bundle releases it, which gives
    back the heap as it was before the acquisition. *)
Theorem pointcloud_get_then_free_restores_heap data pointcloud tree_type st data' t st' :
  BKE_bvhtree_from_pointcloud_get data pointcloud tree_type st = Ok ((data', t), st') ->
  bvh_cache st' = bvh_cache st
  /\ eval_mutex st' = eval_mutex st
  /\ (forall b tr, heap st !! b = Some tr -> heap st' !! b = Some tr)
  /\ match t with
     | None => data' = data /\ heap st' = heap st /\ head (alloc_failures st) = Some true
     | Some a =>
         heap st !! a = None
         /\ pc_tree data' = Some a
         /\ exists st'',
              free_bvhtree_from_pointcloud data' st' = Ok (BVHTreeFromPointCloud_zero, st'')
              /\ heap st'' = heap st
              /\ bvh_cache st'' = bvh_cache st
     end.
Proof.
  unfold BKE_bvhtree_from_pointcloud_get. intros H.
  apply bind_Ok in H as ([tree|] & st1 & Hnew & H).
  2:{ apply BLI_bvhtree_new_None in Hnew as [Hfail ->]. inv_M. by repeat split. }
  apply BLI_bvhtree_new_Some in Hnew as (Hfresh & _ & ->). cbv zeta in H.
  apply bind_Ok in H as ([] & st2 & Hloop & H).
  apply bind_Ok in H as (len & st3 & ->%BLI_bvhtree_get_len_Ok & H).
  apply bind_Ok in H as ([] & st3 & [_ [= ->]]%BLI_assert_Ok & H).
  apply bind_Ok in H as ([] & st3 & Hbal & H).
  unfold ret in H. injection H as <- <- <-.
  assert (tree_kept tree
            (set_heap (<[tree := empty_tree (totpoint pointcloud) F32.zero
                                            (char_of_int tree_type) (char_of_int 6)]>
                         (heap st))
               (set_counts (tail (alloc_failures st)) (S (n_new st)) (n_insert st) st))
            st2) as ([Hc Hm] & _ & _ & Hother & _).
  { revert Hloop. apply preserves_for_range; [apply _|]. intros i. kept. }
  apply bvhtree_balance_Ok in Hbal as (tr & Htr & ->). simpl in *.
  assert (forall b, b <> tree -> heap st2 !! b = heap st !! b) as Hother'.
  { intros b Hb. by rewrite Hother, lookup_insert_ne. }
  split; [done|]. split; [done|]. split.
  { intros b tr' Hb. assert (b <> tree) by congruence.
    by rewrite lookup_insert_ne, Hother'. }
  split; [done|]. split; [done|].
  eexists. split; [reflexivity|]. simpl. split; [|done].
  apply map_eq. intros i. destruct (decide (i = tree)) as [->|Hne].
  - by rewrite lookup_delete_eq.
  - by rewrite lookup_delete_ne, lookup_insert_ne, Hother'.
Qed.

Lemma pointcloud_get_then_free_restores_heap_witness :
  exists data' a st' st'',
    BKE_bvhtree_from_pointcloud_get BVHTreeFromPointCloud_zero three_points 4 fresh_state
    = Ok ((data', Some a), st')
    /\ free_bvhtree_from_pointcloud data' st' = Ok (BVHTreeFromPointCloud_zero, st'')
    /\ heap st'' = ∅.
Proof.
  destruct (BKE_bvhtree_from_pointcloud_get BVHTreeFromPointCloud_zero three_points 4
              fresh_state) as [[[data' [a|]] st']|e] eqn:E.
  - destruct (pointcloud_get_then_free_restores_heap _ _ _ _ _ _ _ E)
      as (_ & _ & _ & _ & _ & st'' & Hfree & Hheap & _).
    exists data', a, st', st''. split; [reflexivity|]. split; [exact Hfree | exact Hheap].
  - vm_compute in E. discriminate E.
  - vm_compute in E. discriminate E.
Defined.

(** ** The [_ex] builders: the tree is the caller's *)

Lemma built_then_balanced b epsilon tree_type axis mask num_active st t st1 st2 :
  run_builder b epsilon tree_type axis mask num_active st = Ok (t, st1) ->
  bvhtree_balance t false st1 = Ok (tt, st2) ->
  handed_over st t st2.
Proof.
  intros Hrun%run_builder_built Hbal%bvhtree_balance_Ok. destruct t as [a|].
  - destruct Hrun as (Hfresh & Hother & _ & _ & _ & [Hc Hm] & _).
    destruct Hbal as (tr & Htr & ->). split; [done|]. simpl.
    split; [done|]. split.
    + exists (set_balanced tr). by rewrite lookup_insert_eq.
    + apply map_eq. intros i. destruct (decide (i = a)) as [->|Hne].
      * by rewrite lookup_delete_eq.
      * by rewrite lookup_delete_ne, lookup_insert_ne, Hother.
  - subst st2. by destruct Hrun as [->|[_ ->]].
Qed.

Lemma mesh_bundle_owned_intro st t st' d0 :
  handed_over st t st' -> fm_tree d0 = t -> fm_cached d0 = false ->
  mesh_bundle_owned st (Some d0) t st'.
Proof.
  intros [_ Hh] Ht Hc d [= <-]. split; [done|]. split; [done|].
  destruct (free_bvhtree_from_mesh_spec d0 st') as (st'' & Hfree & _ & Hheap).
  exists st''. split; [done|]. rewrite Hheap, Hc, Ht.
  destruct t as [a|]; [apply Hh | done].
Qed.

Lemma editmesh_bundle_owned_intro st t st' d0 :
  handed_over st t st' -> fem_tree d0 = t -> fem_cached d0 = false ->
  editmesh_bundle_owned st (Some d0) t st'.
Proof.
  intros [_ Hh] Ht Hc d [= <-]. split; [done|]. split; [done|].
  destruct (free_bvhtree_from_editmesh_spec d0 st') as (st'' & Hfree & _ & Hheap).
  eexists _, st''. split; [done|]. rewrite Hheap, Hc, Ht.
  destruct t as [a|]; [apply Hh | done].
Qed.

(** One [_ex] builder of a mesh, given its builder and the variant of its
    bundle. *)
Lemma mesh_ex_owned (data : bool) b epsilon tree_type axis mask num_active
    type positions edge face loop looptris st d t st' :
  (t <- run_builder b epsilon tree_type axis mask num_active ;;
   bvhtree_balance t false ;;
   if data then
     d <- bvhtree_from_mesh_setup_data t type positions edge face loop looptris ;;
     ret (Some d, t)
   else ret (None, t)) st = Ok ((d, t), st') ->
  handed_over st t st' /\ mesh_bundle_owned st d t st' /\ (data = false -> d = None).
Proof.
  intros H. apply bind_Ok in H as (t1 & st1 & Hrun & H).
  apply bind_Ok in H as ([] & st2 & Hbal & H).
  pose proof (built_then_balanced _ _ _ _ _ _ _ _ _ _ Hrun Hbal) as Hover.
  destruct data.
  - apply bind_Ok in H as (d0 & st3 & Hsetup & H).
    unfold ret in H. injection H as <- <- <-.
    assert (st3 = st2 /\ fm_tree d0 = t1 /\ fm_cached d0 = false) as (-> & Ht & Hc).
    { unfold bvhtree_from_mesh_setup_data in Hsetup. destruct type; inv_M; done. }
    split; [done|]. split; [by apply mesh_bundle_owned_intro | done].
  - unfold ret in H. injection H as <- <- <-. split; [done|]. split; [|done].
    intros d0 [=].
Qed.

Lemma editmesh_ex_owned (data : bool) b epsilon tree_type axis mask num_active
    type em st d t st' :
  (t <- run_builder b epsilon tree_type axis mask num_active ;;
   bvhtree_balance t false ;;
   if data then
     d <- bvhtree_from_editmesh_setup_data t type em ;;
     ret (Some d, t)
   else ret (None, t)) st = Ok ((d, t), st') ->
  handed_over st t st' /\ editmesh_bundle_owned st d t st' /\ (data = false -> d = None).
Proof.
  intros H. apply bind_Ok in H as (t1 & st1 & Hrun & H).
  apply bind_Ok in H as ([] & st2 & Hbal & H).
  pose proof (built_then_balanced _ _ _ _ _ _ _ _ _ _ Hrun Hbal) as Hover.
  destruct data.
  - apply bind_Ok in H as (d0 & st3 & Hsetup & H).
    unfold ret in H. injection H as <- <- <-.
    assert (st3 = st2 /\ fem_tree d0 = t1 /\ fem_cached d0 = false) as (-> & Ht & Hc).
    { unfold bvhtree_from_editmesh_setup_data in Hsetup. destruct type; inv_M; done. }
    split; [done|]. split; [by apply editmesh_bundle_owned_intro | done].
  - unfold ret in H. injection H as <- <- <-. split; [done|]. split; [|done].
    intros d0 [=].
Qed.

(** X21.  The six [_ex] builders never look at the cache: whatever the
    mask, the tree they return is new and balanced, or null with the heap
    as it was; the bundle they fill, when given one, carries that tree and
    is not marked cached, so that [free_bvhtree_from_mesh] or
    [free_bvhtree_from_editmesh] on it gives back the heap as it was before
    the call. *)
Theorem ex_builders_hand_over_the_tree :
  (forall data positions verts_num mask n epsilon tree_type axis st d t st',
      bvhtree_from_mesh_verts_ex data positions verts_num mask n epsilon tree_type axis st
      = Ok ((d, t), st') ->
      handed_over st t st' /\ mesh_bundle_owned st d t st')
  /\ (forall data positions edge edges_num mask n epsilon tree_type axis st d t st',
         bvhtree_from_mesh_edges_ex data positions edge edges_num mask n
                                    epsilon tree_type axis st
         = Ok ((d, t), st') ->
         handed_over st t st' /\ mesh_bundle_owned st d t st')
  /\ (forall data positions mloop looptri mask n epsilon tree_type axis st d t st',
         bvhtree_from_mesh_looptri_ex data positions mloop looptri mask n
                                      epsilon tree_type axis st
         = Ok ((d, t), st') ->
         handed_over st t st' /\ mesh_bundle_owned st d t st')
  /\ (forall data em mask n epsilon tree_type axis st d t st',
         bvhtree_from_editmesh_verts_ex data em mask n epsilon tree_type axis st
         = Ok ((d, t), st')
         \/ bvhtree_from_editmesh_edges_ex data em mask n epsilon tree_type axis st
            = Ok ((d, t), st')
         \/ bvhtree_from_editmesh_looptri_ex data em mask n epsilon tree_type axis st
            = Ok ((d, t), st') ->
         handed_over st t st' /\ editmesh_bundle_owned st d t st').
Proof.
  split; [|split; [|split]].
  - intros data positions verts_num mask n epsilon tree_type axis st d t st' H.
    by apply (mesh_ex_owned data (Build_mesh_verts positions verts_num)) in H as (? & ? & _).
  - intros data positions edge edges_num mask n epsilon tree_type axis st d t st' H.
    by apply (mesh_ex_owned data (Build_mesh_edges positions edge edges_num)) in H
      as (? & ? & _).
  - intros data positions mloop looptri mask n epsilon tree_type axis st d t st' H.
    by apply (mesh_ex_owned data (Build_mesh_looptri positions mloop looptri)) in H
      as (? & ? & _).
  - intros data em mask n epsilon tree_type axis st d t st' [H|[H|H]].
    + by apply (editmesh_ex_owned data (Build_editmesh_verts em)) in H as (? & ? & _).
    + by apply (editmesh_ex_owned data (Build_editmesh_edges em)) in H as (? & ? & _).
    + by apply (editmesh_ex_owned data (Build_editmesh_looptri em)) in H as (? & ? & _).
Qed.

Lemma ex_builders_hand_over_the_tree_witness :
  exists d a st' st'',
    bvhtree_from_mesh_verts_ex true (Some (vert_positions strip_mesh)) 6
                               [true; false; false; true; false; true] 3 F32.zero 4 6
                               fresh_state
    = Ok ((Some d, Some a), st')
    /\ fm_cached d = false
    /\ free_bvhtree_from_mesh d st' = Ok (BVHTreeFromMesh_zero, st'')
    /\ heap st'' = ∅.
Proof.
  destruct (bvhtree_from_mesh_verts_ex true (Some (vert_positions strip_mesh)) 6
              [true; false; false; true; false; true] 3 F32.zero 4 6 fresh_state)
    as [[[[d|] [a|]] st']|e] eqn:E; try (vm_compute in E; discriminate E).
  destruct (proj1 ex_builders_hand_over_the_tree _ _ _ _ _ _ _ _ _ _ _ _ E) as [_ Hown].
  destruct (Hown d eq_refl) as (_ & Hc & st'' & Hfree & Hheap).
  exists d, a, st', st''. split; [reflexivity|]. split; [exact Hc|].
  split; [exact Hfree | exact Hheap].
Defined.

(** ** An acquisition that returns *)

Lemma bvhcache_find_miss type r st it :
  eval_mutex st = false ->
  items (cache_or_init st) !! BVHCacheType_index type = Some it ->
  is_filled it = false ->
  mutex (cache_or_init st) = false ->
  bvhcache_find type r true st = Ok ((false, r, true), locked_for_build st).
Proof.
  intros He Hi Hf Hm. unfold bvhcache_find. change (negb true) with false. cbv iota.
  set (st1 := set_bvh_cache (Some (cache_or_init st)) st).
  rewrite (bind_Ok_intro _ _ _ _ _ (eq_refl : gets bvh_cache st = Ok (bvh_cache st, st))).
  assert (match bvh_cache st with
          | Some _ => ret tt
          | None =>
              locked <- gets eval_mutex ;;
              (if locked then fail Deadlock else modify (set_eval_mutex true)) ;;
              c' <- gets bvh_cache ;;
              match c' with
              | None => modify (set_bvh_cache (Some bvhcache_init))
              | Some _ => ret tt
              end ;;
              modify (set_eval_mutex false)
          end st = Ok (tt, st1)) as Hinit.
  { subst st1. unfold cache_or_init, bind, gets, modify, ret.
    destruct st as [h fl nn ni [c|] em]; simpl in *; by subst em. }
  rewrite (bind_Ok_intro _ _ _ _ _ Hinit).
  assert (the_cache st1 = Ok (cache_or_init st, st1)) as Hcache by done.
  rewrite (bind_Ok_intro _ _ _ _ _ Hcache).
  assert (cache_item (cache_or_init st) type st1 = Ok (it, st1)) as Hitem.
  { unfold cache_item, index. by rewrite Hi. }
  rewrite (bind_Ok_intro _ _ _ _ _ Hitem), Hf.
  assert (BLI_mutex_lock_cache st1 = Ok (tt, locked_for_build st)) as Hlock.
  { unfold BLI_mutex_lock_cache. rewrite (bind_Ok_intro _ _ _ _ _ Hcache), Hm. done. }
  rewrite (bind_Ok_intro _ _ _ _ _ Hlock).
  assert (bvhcache_find_nolock type r (locked_for_build st)
          = Ok ((false, r), locked_for_build st)) as Hfind.
  { unfold bvhcache_find_nolock, cache_item, index, bind, gets, ret. simpl.
    by rewrite Hi, Hf. }
  rewrite (bind_Ok_intro _ _ _ _ _ Hfind). done.
Qed.

Lemma mesh_get_verts_run mesh tree_type st it :
  vert_positions mesh <> [] ->
  Z.of_nat (length (vert_positions mesh)) = totvert mesh ->
  eval_mutex st = false ->
  mutex (cache_or_init st) = false ->
  items (cache_or_init st) !! BVHCacheType_index BVHTREE_FROM_VERTS = Some it ->
  is_filled it = false ->
  head (alloc_failures st) <> Some true ->
  exists data a st',
    BKE_bvhtree_from_mesh_get mesh BVHTREE_FROM_VERTS tree_type st
    = Ok ((data, Some a), st')
    /\ heap st !! a = None
    /\ heap st'
       = <[a := set_balanced
                  (add_leaves (point_leaves 0 (vert_positions mesh))
                              (empty_tree (totvert mesh) F32.zero
                                          (char_of_int tree_type) (char_of_int 6)))]>
           (heap st)
    /\ fm_tree data = Some a /\ fm_cached data = true
    /\ slot_is BVHTREE_FROM_VERTS {| is_filled := true; tree := Some a |} st'.
Proof.
  intros Hverts Hlen He Hm Hi Hf Hok.
  pose proof (bvhcache_find_miss BVHTREE_FROM_VERTS None st it He Hi Hf Hm) as Hfind.
  set (st0 := locked_for_build st) in *.
  set (a := fresh (dom (heap st))).
  set (tr0 := empty_tree (totvert mesh) F32.zero (char_of_int tree_type) (char_of_int 6)).
  set (st1 := set_heap (<[a := tr0]> (heap st0))
                (set_counts (tail (alloc_failures st0)) (S (n_new st0)) (n_insert st0) st0)).
  assert (BLI_bvhtree_new (totvert mesh) F32.zero tree_type 6 st0 = Ok (Some a, st1))
    as Hnew.
  { unfold BLI_bvhtree_new, bind, gets, modify, ret. subst st1 st0. simpl.
    destruct (alloc_failures st) as [|[] ?]; done. }
  destruct (pointcloud_loop_run a (vert_positions mesh) [] st1 tr0)
    as (st2 & Hloop & Hheap2 & Hc2 & Hm2 & _).
  { subst st1. simpl. by rewrite lookup_insert_eq. }
  simpl in Hloop. subst st1. simpl in Hheap2, Hc2, Hm2.
  rewrite insert_insert_eq in Hheap2.
  assert ((totvert mesh =? 0)%Z = false) as Hnz.
  { apply Z.eqb_neq. destruct (vert_positions mesh); [done|]. simpl in Hlen. lia. }
  assert (span_data (vert_positions mesh) = Some (vert_positions mesh)) as Hspan.
  { by destruct (vert_positions mesh). }
  assert (bvhtree_from_mesh_verts_create_tree
            F32.zero tree_type 6 (span_data (vert_positions mesh)) (totvert mesh) [] (-1) st0
          = Ok (Some a, st2)) as Hbuild.
  { unfold bvhtree_from_mesh_verts_create_tree. rewrite Hspan. simpl negb. cbn iota.
    rewrite (bind_Ok_intro _ _ _ _ _ (eq_refl : ret (totvert mesh) st0 = Ok (_, st0))).
    rewrite Hnz, (bind_Ok_intro _ _ _ _ _ Hnew).
    unfold for_range. rewrite <- Hlen, Nat2Z.id.
    rewrite (bind_Ok_intro _ _ _ _ _ Hloop).
    unfold BLI_bvhtree_get_len, the_tree, BLI_assert, bind, gets, modify, ret.
    rewrite Hheap2, lookup_insert_eq. cbn beta iota.
    unfold add_leaves at 1. simpl. rewrite point_leaves_length, Z.eqb_refl. done. }
  eexists _, a, _. split; [|split; [apply not_elem_of_dom, is_fresh|]].
  - unfold BKE_bvhtree_from_mesh_get. cbv zeta.
    unfold bvhtree_from_mesh_setup_data at 1. cbn iota.
    rewrite (bind_Ok_intro _ _ _ _ _ (eq_refl : ret _ st = Ok (_, st))).
    cbn [fm_tree]. rewrite (bind_Ok_intro _ _ _ _ _ Hfind). cbn -[bvhtree_from_mesh_verts_create_tree span_data].
    rewrite (bind_Ok_intro _ _ _ _ _ Hbuild).
    unfold bvhtree_balance, bvhtree_balance_isolated, BLI_bvhtree_balance, bvhcache_insert,
      bvhcache_unlock, BLI_mutex_unlock_cache, the_tree, the_cache, cache_item, index,
      BLI_assert, bind, gets, modify, ret.
    rewrite Hheap2, lookup_insert_eq. cbn beta iota. cbn [bvh_cache set_heap].
    rewrite Hc2. subst st0. unfold locked_for_build. cbn [bvh_cache set_bvh_cache items set_mutex].
    rewrite Hi, Hf. cbn. reflexivity.
  - cbn. rewrite Hheap2, insert_insert_eq. subst st0. split; [done|].
    split; [done|]. split; [done|].
    eexists. split; [reflexivity|]. cbn.
    apply list_lookup_insert_eq. by eapply lookup_lt_Some.
Qed.


(** X22.  An acquisition that goes through: for a mesh that has vertices,
    as many as [totvert], in a state where no mutex is held, the slot of
    [BVHTREE_FROM_VERTS] is there and not filled, and the allocation does
    not fail, [BKE_bvhtree_from_mesh_get] returns a tree at an address that
    was not live.  The tree is sized for [totvert], holds every vertex
    under its index with its own position, and is balanced, with epsilon 0
    and 6 axes, and with the tree type asked for when that is in the range
    0 to 127 of a [char]; the bundle is marked cached, the slot holds the
    tree, and the rest of the heap is as it was. *)
Theorem mesh_get_verts_succeeds mesh tree_type st it :
  vert_positions mesh <> [] ->
  Z.of_nat (length (vert_positions mesh)) = totvert mesh ->
  eval_mutex st = false ->
  mutex (cache_or_init st) = false ->
  items (cache_or_init st) !! BVHCacheType_index BVHTREE_FROM_VERTS = Some it ->
  is_filled it = false ->
  head (alloc_failures st) <> Some true ->
  exists data a st' tr,
    BKE_bvhtree_from_mesh_get mesh BVHTREE_FROM_VERTS tree_type st
    = Ok ((data, Some a), st')
    /\ heap st !! a = None
    /\ heap st' = <[a := tr]> (heap st)
    /\ bt_maxsize tr = totvert mesh
    /\ bt_leaves tr = point_leaves 0 (vert_positions mesh)
    /\ bt_balanced tr = true
    /\ bt_epsilon tr = F32.zero
    /\ bt_axis tr = 6%Z
    /\ ((0 <= tree_type < 128)%Z -> bt_tree_type tr = tree_type)
    /\ fm_tree data = Some a /\ fm_cached data = true
    /\ slot_is BVHTREE_FROM_VERTS {| is_filled := true; tree := Some a |} st'.
Proof.
  intros Hverts Hlen He Hm Hi Hf Hok.
  destruct (mesh_get_verts_run mesh tree_type st it Hverts Hlen He Hm Hi Hf Hok)
    as (data & a & st' & Hget & Hfresh & Hheap & Ht & Hc & Hslot).
  exists data, a, st'. eexists. split; [exact Hget|]. split; [exact Hfresh|].
  split; [exact Hheap|]. simpl.
  repeat split; try done. intros Hrange. by apply char_of_int_small.
Qed.

Lemma mesh_get_verts_succeeds_witness :
  exists data a st' tr,
    BKE_bvhtree_from_mesh_get strip_mesh BVHTREE_FROM_VERTS 4 fresh_state
    = Ok ((data, Some a), st')
    /\ heap st' !! a = Some tr
    /\ bt_leaves tr = [(0, [v3 0 0 0]); (1, [v3 1 0 0]); (2, [v3 2 0 0]);
                       (3, [v3 3 0 0]); (4, [v3 4 0 0]); (5, [v3 5 0 0])]%Z
    /\ bt_tree_type tr = 4%Z.
Proof.
  destruct (mesh_get_verts_succeeds strip_mesh 4 fresh_state
              {| is_filled := false; tree := None |})
    as (data & a & st' & tr & Hget & _ & Hheap & _ & Hleaves & _ & _ & _ & Ht & _).
  - discriminate.
  - reflexivity.
  - reflexivity.
  - reflexivity.
  - reflexivity.
  - reflexivity.
  - simpl. discriminate.
  - exists data, a, st', tr. split; [exact Hget|].
    split; [rewrite Hheap; apply lookup_insert_eq|].
    split; [rewrite Hleaves; reflexivity|]. apply Ht. lia.
Defined.

(** ** The builders: every primitive has the points of its candidate *)

Lemma leaves_all_insert t P i co st st' :
  BLI_bvhtree_insert t i co st = Ok (tt, st') ->
  P (i, co) -> leaves_all t P st -> leaves_all t P st'.
Proof.
  intros [_ Hheap]%BLI_bvhtree_insert_Ok Hp (tr & Htr & Hall).
  exists (add_leaf i co tr). split; [by apply Hheap|].
  simpl. apply Forall_app. split; [done|]. by apply Forall_singleton.
Qed.

Lemma for_each_leaves t P body (l : list nat) :
  (forall i st st', body i st = Ok (tt, st') -> leaves_all t P st -> leaves_all t P st') ->
  forall st st',
    for_each l body st = Ok (tt, st') -> leaves_all t P st -> leaves_all t P st'.
Proof.
  intros Hbody. induction l as [|i l IH]; intros st st' H Hall.
  - simpl in H. by inv_M.
  - simpl in H. apply bind_Ok in H as ([] & st1 & Hi & H).
    eapply IH; [exact H|]. by eapply Hbody.
Qed.

Lemma leaves_all_new maxsize epsilon tree_type axis st t st' P :
  BLI_bvhtree_new maxsize epsilon tree_type axis st = Ok (Some t, st') ->
  leaves_all t P st'.
Proof.
  intros (Htree & _)%BLI_bvhtree_new_Ok. eexists. split; [exact Htree|]. by apply Forall_nil.
Qed.

(** One turn of the loop of a builder: the candidate is skipped, or its
    points are read and inserted. *)
Ltac turn_leaves :=
  let i := fresh "i" in
  let st1 := fresh "st" in
  let st2 := fresh "st" in
  let Hb := fresh "Hb" in
  let Ha := fresh "Ha" in
  let Hall := fresh "Hall" in
  intros i st1 st2 Hb Hall;
  apply bind_Ok in Hb as (? & ? & [-> ->]%mask_skips_Ok & Hb);
  destruct (active _ i) eqn:Ha; simpl in Hb;
  [ repeat (let Hx := fresh "Hx" in
            apply bind_Ok in Hb as (? & ? & Hx & Hb);
            first [ apply index_Ok in Hx as [? ->]
                  | apply index_ptr_Ok in Hx as (? & ? & ? & ->) ]);
    try (match type of Hb with context [decide ?P] => destruct (decide P) end);
    repeat (let Hx := fresh "Hx" in
            apply bind_Ok in Hb as (? & ? & Hx & Hb);
            first [ apply index_Ok in Hx as [? ->]
                  | apply index_ptr_Ok in Hx as (? & ? & ? & ->) ]);
    (eapply leaves_all_insert; [exact Hb| |exact Hall]);
    (exists i; split; [done|]; split; [exact Ha|]; simplify_eq/=;
     repeat (match goal with
             | H : ?l !! ?k = Some _ |- context [?l !! ?k] => rewrite H; simpl
             end);
     try case_decide; try done)
  | unfold ret in Hb; injection Hb as <-; exact Hall ].

Lemma run_builder_corners b epsilon tree_type axis mask num_active st t st' :
  run_builder b epsilon tree_type axis mask num_active st = Ok (Some t, st') ->
  leaves_all t (corner_leaf b mask) st'.
Proof.
  destruct b; simpl; intros H.
  - unfold bvhtree_from_editmesh_verts_create_tree in H. cbv zeta in H.
    apply bind_Ok in H as (n & st0 & (-> & _ & _)%resolve_active_Ok & H).
    apply bind_Ok in H as ([tree|] & st1 & Hnew & H); [|by inv_M].
    apply bind_Ok in H as ([] & st2 & Hloop & H).
    apply builder_epilogue in H as [-> ->].
    eapply for_each_leaves; [|exact Hloop|by eapply leaves_all_new]. turn_leaves.
  - unfold bvhtree_from_mesh_verts_create_tree in H.
    apply bind_Ok in H as (n & st0 & (-> & _ & _)%resolve_active_Ok & H).
    destruct (n =? 0)%Z; [by inv_M|].
    apply bind_Ok in H as ([tree|] & st1 & Hnew & H); [|by inv_M].
    apply bind_Ok in H as ([] & st2 & Hloop & H).
    apply builder_epilogue in H as [-> ->].
    eapply for_each_leaves; [|exact Hloop|by eapply leaves_all_new]. turn_leaves.
  - unfold bvhtree_from_editmesh_edges_create_tree in H. cbv zeta in H.
    apply bind_Ok in H as (n & st0 & (-> & _ & _)%resolve_active_Ok & H).
    apply bind_Ok in H as ([tree|] & st1 & Hnew & H); [|by inv_M].
    apply bind_Ok in H as ([] & st2 & Hloop & H).
    apply builder_epilogue in H as [-> ->].
    eapply for_each_leaves; [|exact Hloop|by eapply leaves_all_new]. turn_leaves.
  - unfold bvhtree_from_mesh_edges_create_tree in H.
    apply bind_Ok in H as (n & st0 & (-> & _ & _)%resolve_active_Ok & H).
    destruct (n =? 0)%Z; [by inv_M|].
    apply bind_Ok in H as ([tree|] & st1 & Hnew & H); [|by inv_M].
    apply bind_Ok in H as ([] & st2 & Hloop & H).
    unfold ret in H. injection H as <- <-.
    eapply for_each_leaves; [|exact Hloop|by eapply leaves_all_new]. turn_leaves.
  - unfold bvhtree_from_mesh_faces_create_tree in H.
    destruct (faces_num =? 0)%Z; [by inv_M|].
    apply bind_Ok in H as (n & st0 & (-> & _ & _)%resolve_active_Ok & H).
    apply bind_Ok in H as ([tree|] & st1 & Hnew & H); [|by inv_M].
    apply bind_Ok in H as ([] & st2 & Hloop & H).
    apply builder_epilogue in H as [-> ->].
    destruct (negb (is_null positions) && negb (is_null face)).
    + eapply for_each_leaves; [|exact Hloop|by eapply leaves_all_new]. turn_leaves.
    + unfold ret in Hloop. injection Hloop as <-. by eapply leaves_all_new.
  - unfold bvhtree_from_editmesh_looptri_create_tree in H. cbv zeta in H.
    destruct (em_tottri em =? 0)%Z; [by inv_M|].
    apply bind_Ok in H as (n & st0 & (-> & _ & _)%resolve_active_Ok & H).
    apply bind_Ok in H as ([tree|] & st1 & Hnew & H); [|by inv_M].
    apply bind_Ok in H as ([] & st2 & Hloop & H).
    apply builder_epilogue in H as [-> ->].
    eapply for_each_leaves; [|exact Hloop|by eapply leaves_all_new].
    intros i sta stb Hb Hall.
    apply bind_Ok in Hb as (ltri & ? & [Hltri ->]%index_Ok & Hb).
    apply bind_Ok in Hb as (ins & ? & Hins & Hb).
    assert (ins = active mask i /\ x = sta) as [-> ->].
    { unfold active. destruct mask as [|b mask]; simpl in Hins; inv_M; [done|].
      split; [|done]. match goal with E : _ !! _ = Some _ |- _ => by rewrite E end. }
    destruct (active mask i) eqn:Ha.
    + eapply leaves_all_insert; [exact Hb| |exact Hall].
      exists i. split; [done|]. split; [done|]. simpl. by rewrite Hltri.
    + unfold ret in Hb. by injection Hb as <-.
  - unfold bvhtree_from_mesh_looptri_create_tree in H. cbv zeta in H.
    apply bind_Ok in H as (n & st0 & (-> & _ & _)%resolve_active_Ok & H).
    destruct (n =? 0)%Z; [by inv_M|].
    apply bind_Ok in H as ([tree|] & st1 & Hnew & H); [|by inv_M].
    apply bind_Ok in H as ([] & st2 & Hloop & H).
    apply builder_epilogue in H as [-> ->].
    destruct (negb _ && negb _).
    + eapply for_each_leaves; [|exact Hloop|by eapply leaves_all_new]. turn_leaves.
    + unfold ret in Hloop. injection Hloop as <-. by eapply leaves_all_new.
Qed.

Lemma leaves_in_order (C : nat -> option (list V3)) (Q : nat -> Prop)
    (leaves : list (Z * list V3)) :
  forall l : list nat,
    leaves.*1 = Z.of_nat <$> l ->
    Forall (fun leaf => exists i, leaf.1 = Z.of_nat i /\ Q i /\ C i = Some leaf.2) leaves ->
    Forall2 (fun leaf i => leaf.1 = Z.of_nat i /\ C i = Some leaf.2) leaves l.
Proof.
  induction leaves as [|leaf leaves IH]; intros [|i l] Hidx Hall; try done.
  simpl in Hidx. injection Hidx as Hi Hidx.
  apply Forall_cons in Hall as [(i' & Hi' & _ & Hc) Hall].
  assert (i' = i) as -> by lia.
  apply Forall2_cons. split; [done|]. by apply IH.
Qed.

(** X23.  The primitives of the hierarchy a builder returns are, in order,
    the active candidates, each under its own index and with its own
    points: the position of the vertex, the two ends of the edge, the three
    or four corners of the face, the three corners of the loop triangle. *)
Theorem builders_insert_corner_positions b epsilon tree_type axis mask num_active st t st' :
  arrays_present b ->
  run_builder b epsilon tree_type axis mask num_active st = Ok (Some t, st') ->
  exists tr,
    heap st' !! t = Some tr
    /\ Forall2 (fun leaf i => leaf.1 = Z.of_nat i /\ corners b i = Some leaf.2)
               (bt_leaves tr)
               (filter (fun i => active mask i = true) (seq 0 (Z.to_nat (candidates b)))).
Proof.
  intros Hpresent H.
  destruct (run_builder_indices _ _ _ _ _ _ _ _ _ Hpresent H) as (tr & Htr & Hidx & _).
  apply run_builder_corners in H as (tr' & Htr' & Hall).
  assert (tr' = tr) as -> by congruence.
  exists tr. split; [done|].
  apply (leaves_in_order (corners b) (fun i => active mask i = true));
    [exact Hidx | exact Hall].
Qed.

Lemma builders_insert_corner_positions_witness :
  let b := Build_mesh_edges (Some (vert_positions strip_mesh))
                            (Some (edges strip_mesh)) 5 in
  let mask := [false; true; false; true; false] in
  exists t st' tr,
    run_builder b F32.zero 4 6 mask 2 fresh_state = Ok (Some t, st')
    /\ heap st' !! t = Some tr
    /\ Forall2 (fun leaf i => leaf.1 = Z.of_nat i /\ corners b i = Some leaf.2)
               (bt_leaves tr) [1; 3].
Proof.
  intros b mask.
  destruct (run_builder b F32.zero 4 6 mask 2 fresh_state) as [[[t|] st']|e] eqn:E.
  - destruct (builders_insert_corner_positions b F32.zero 4 6 mask 2 fresh_state t st' I E)
      as (tr & Htr & Hall).
    exists t, st', tr. split; [reflexivity|]. split; [exact Htr | exact Hall].
  - vm_compute in E. discriminate E.
  - vm_compute in E. discriminate E.
Defined.

(** ** The bundle can fetch every primitive of its tree *)

Lemma mesh_build_corners mesh type tree_type data_tree st a st' :
  mesh_build mesh type tree_type data_tree st = Ok (Some a, st') ->
  exists mask, leaves_all a (corner_leaf (mesh_builder mesh type) mask) st'.
Proof.
  unfold mesh_build. cbv zeta. intros H.
  destruct type; try (inv_M; done); simpl.
  - eexists. exact (run_builder_corners (Build_mesh_verts _ _) _ _ _ _ _ _ _ _ H).
  - eexists. exact (run_builder_corners (Build_mesh_edges _ _ _) _ _ _ _ _ _ _ _ H).
  - apply bind_Ok in H as ([] & st1 & [_ [= ->]]%BLI_assert_Ok & H).
    eexists. exact (run_builder_corners (Build_mesh_faces _ _ _) _ _ _ _ _ _ _ _ H).
  - eexists. exact (run_builder_corners (Build_mesh_looptri _ _ _) _ _ _ _ _ _ _ _ H).
  - apply bind_Ok in H as (m & st1 & [_ ->]%lift_Ok & H).
    eexists. exact (run_builder_corners (Build_mesh_looptri _ _ _) _ _ _ _ _ _ _ _ H).
  - apply bind_Ok in H as (m & st1 & [_ ->]%lift_Ok & H).
    eexists. exact (run_builder_corners (Build_mesh_verts _ _) _ _ _ _ _ _ _ _ H).
  - eexists. exact (run_builder_corners (Build_mesh_edges _ _ _) _ _ _ _ _ _ _ _ H).
Qed.

Lemma mesh_get_bundle_arrays mesh type tree_type st data t st' :
  BKE_bvhtree_from_mesh_get mesh type tree_type st = Ok ((data, t), st') ->
  fm_vert_positions data = span_data (vert_positions mesh)
  /\ fm_edge data = span_data (edges mesh)
  /\ fm_face data = mface mesh
  /\ fm_loop data = span_data (loops mesh)
  /\ fm_looptri data
     = span_data match type with
                 | BVHTREE_FROM_LOOPTRI | BVHTREE_FROM_LOOPTRI_NO_HIDDEN => looptris mesh
                 | _ => []
                 end.
Proof.
  intros (_ & data0 & Hsetup & ->)%BKE_bvhtree_from_mesh_get_Ok.
  specialize (Hsetup st). unfold bvhtree_from_mesh_setup_data in Hsetup.
  destruct type; inv_M; done.
Qed.

Lemma span_data_lookup {A} (l : list A) i x :
  l !! i = Some x -> span_data l = Some l.
Proof. by destruct l. Qed.

Lemma corners_resolve mesh type data i co_ :
  fm_vert_positions data = span_data (vert_positions mesh) ->
  fm_edge data = span_data (edges mesh) ->
  fm_face data = mface mesh ->
  fm_loop data = span_data (loops mesh) ->
  fm_looptri data
  = span_data match type with
              | BVHTREE_FROM_LOOPTRI | BVHTREE_FROM_LOOPTRI_NO_HIDDEN => looptris mesh
              | _ => []
              end ->
  type <> BVHTREE_FROM_EM_VERTS -> type <> BVHTREE_FROM_EM_EDGES ->
  type <> BVHTREE_FROM_EM_LOOPTRI -> type <> BVHTREE_MAX_ITEM ->
  corners (mesh_builder mesh type) i = Some co_ ->
  bundle_corners type data i = Ok co_.
Proof.
  intros Hp He Hf Hl Hlt ? ? ? ? Hc.
  unfold bundle_corners, mesh_edge_ends, mesh_faces_corners, mesh_looptri_vtri_co.
  rewrite ?Hp, ?He, ?Hf, ?Hl, ?Hlt.
  destruct type; try done; simpl in Hc; simplify_option_eq;
    repeat match goal with
           | H : ?l !! _ = Some _ |- context [span_data ?l] =>
               rewrite (span_data_lookup l _ _ H)
           end;
    unfold at_ptr, at_index; simpl;
    repeat match goal with
           | H : ?l !! ?k = Some _ |- context [?l !! ?k] => rewrite H; simpl
           end;
    try done; by case_decide.
Qed.

(** X24.  Every primitive of the tree [BKE_bvhtree_from_mesh_get] builds
    can be fetched back through the bundle it returns: for the index of
    each primitive, the arrays of the bundle give, the way the callbacks of
    the variant read them, exactly the points the primitive was inserted
    with; no such read is out of bounds or through a null pointer. *)
Theorem acquired_primitives_resolve mesh type tree_type st data a st' :
  slot_filled type st = false ->
  BKE_bvhtree_from_mesh_get mesh type tree_type st = Ok ((data, Some a), st') ->
  exists tr,
    heap st' !! a = Some tr
    /\ Forall (fun leaf => exists i, leaf.1 = Z.of_nat i
                                     /\ bundle_corners type data i = Ok leaf.2)
              (bt_leaves tr).
Proof.
  intros Hempty H.
  pose proof (mesh_get_bundle_arrays _ _ _ _ _ _ _ H) as (Hp & He & Hf & Hl & Hlt).
  apply BKE_bvhtree_from_mesh_get_inv in H
    as [[-> Hs]|(it & st2 & st3 & _ & _ & _ & Hbuild & Hbal & _ & _ & ->)].
  { by apply slot_unfilled_not_hit in Hs. }
  assert (type <> BVHTREE_FROM_EM_VERTS /\ type <> BVHTREE_FROM_EM_EDGES
          /\ type <> BVHTREE_FROM_EM_LOOPTRI /\ type <> BVHTREE_MAX_ITEM)
    as (? & ? & ? & ?).
  { unfold mesh_build in Hbuild. repeat split; intros ->; by inv_M. }
  apply mesh_build_corners in Hbuild as (mask & tr & Htr & Hall).
  apply bvhtree_balance_Ok in Hbal as (tr' & Htr' & ->).
  assert (tr' = tr) as -> by congruence.
  exists (set_balanced tr). simpl. rewrite lookup_insert_eq. split; [done|].
  eapply Forall_impl; [exact Hall|].
  intros leaf (i & Hi & _ & Hc). exists i. split; [done|].
  by eapply corners_resolve.
Qed.

Lemma acquired_primitives_resolve_witness :
  exists data a st' tr,
    BKE_bvhtree_from_mesh_get strip_mesh BVHTREE_FROM_LOOPTRI 4 fresh_state
    = Ok ((data, Some a), st')
    /\ heap st' !! a = Some tr
    /\ Forall (fun leaf => exists i, leaf.1 = Z.of_nat i
                                     /\ bundle_corners BVHTREE_FROM_LOOPTRI data i
                                        = Ok leaf.2)
              (bt_leaves tr).
Proof.
  destruct (BKE_bvhtree_from_mesh_get strip_mesh BVHTREE_FROM_LOOPTRI 4 fresh_state)
    as [[[data [a|]] st']|e] eqn:E.
  - destruct (acquired_primitives_resolve strip_mesh BVHTREE_FROM_LOOPTRI 4 fresh_state
                data a st') as (tr & Htr & Hall).
    + reflexivity.
    + exact E.
    + exists data, a, st', tr. split; [reflexivity|]. split; [exact Htr | exact Hall].
  - vm_compute in E. discriminate E.
  - vm_compute in E. discriminate E.
Defined.

Lemma editmesh_build_corners em type tree_type data_tree st a st' :
  editmesh_build em type tree_type data_tree st = Ok (Some a, st') ->
  leaves_all a (corner_leaf (editmesh_builder em type) []) st'.
Proof.
  unfold editmesh_build. intros H.
  destruct type; try (inv_M; done); simpl.
  - exact (run_builder_corners (Build_editmesh_verts _) _ _ _ _ _ _ _ _ H).
  - exact (run_builder_corners (Build_editmesh_edges _) _ _ _ _ _ _ _ _ H).
  - exact (run_builder_corners (Build_editmesh_looptri _) _ _ _ _ _ _ _ _ H).
Qed.

(** X25.  The same for an edit mesh: every primitive of the tree
    [BKE_bvhtree_from_editmesh_get] builds for the vertices or the loop
    triangles can be fetched back through the bundle, the way
    [editmesh_verts_spherecast] and the callbacks of the loop triangles
    read the edit mesh, with exactly the points it was inserted with.  (The
    bundle of the edges has no callback.) *)
Theorem editmesh_acquired_primitives_resolve em tree_type type p st data a st' :
  (p = true -> slot_filled type st = false) ->
  type <> BVHTREE_FROM_EM_EDGES ->
  BKE_bvhtree_from_editmesh_get em tree_type type p st = Ok ((data, Some a), st') ->
  exists tr,
    heap st' !! a = Some tr
    /\ Forall (fun leaf => exists i, leaf.1 = Z.of_nat i
                                     /\ editmesh_bundle_corners type data i = Ok leaf.2)
              (bt_leaves tr).
Proof.
  intros Hempty Hedges [(data0 & Hsetup & ->) H]%BKE_bvhtree_from_editmesh_get_inv.
  assert (exists st2 st3,
             editmesh_build em type tree_type None st2 = Ok (Some a, st3)
             /\ heap st' !! a = (set_balanced <$> heap st3 !! a))
    as (st2 & st3 & Hbuild & Ha).
  { destruct p.
    - destruct H as [(-> & _ & Hs)|(it & st2 & st3 & _ & _ & _ & Hbuild & Hbal & _ & _ & _ & ->)].
      { apply slot_unfilled_not_hit in Hs; [done|]. by apply Hempty. }
      exists (locked_for_build st), st2. split; [done|].
      apply bvhtree_balance_Ok in Hbal as (tr & Htr & ->). simpl.
      by rewrite lookup_insert_eq, Htr.
    - destruct H as (st2 & Hbuild & Hbal & _).
      exists st, st2. split; [done|].
      apply bvhtree_balance_Ok in Hbal as (tr & Htr & ->). simpl.
      by rewrite lookup_insert_eq, Htr. }
  assert (fem_em data0 = Some em) as Hem.
  { specialize (Hsetup st). unfold bvhtree_from_editmesh_setup_data in Hsetup.
    destruct type; inv_M; done. }
  pose proof Hbuild as (tr & Htr & Hall)%editmesh_build_corners.
  exists (set_balanced tr). rewrite Ha, Htr. split; [done|]. simpl.
  eapply Forall_impl; [exact Hall|].
  intros leaf (i & Hi & _ & Hc). exists i. split; [done|].
  unfold editmesh_build in Hbuild.
  unfold editmesh_bundle_corners, editmesh_looptri_corners. simpl. rewrite Hem.
  destruct type; try done; try (by inv_M); simpl in Hc; simplify_option_eq;
    unfold at_index;
    repeat match goal with
           | H : ?l !! ?k = Some _ |- context [?l !! ?k] => rewrite H; simpl
           end;
    by rewrite <- Hc.
Qed.

Lemma editmesh_acquired_primitives_resolve_witness :
  exists data a st' tr,
    BKE_bvhtree_from_editmesh_get triangle_editmesh 4 BVHTREE_FROM_EM_VERTS true
                                  fresh_state
    = Ok ((data, Some a), st')
    /\ heap st' !! a = Some tr
    /\ Forall (fun leaf => exists i, leaf.1 = Z.of_nat i
                                     /\ editmesh_bundle_corners BVHTREE_FROM_EM_VERTS data i
                                        = Ok leaf.2)
              (bt_leaves tr).
Proof.
  destruct (BKE_bvhtree_from_editmesh_get triangle_editmesh 4 BVHTREE_FROM_EM_VERTS true
              fresh_state) as [[[data [a|]] st']|e] eqn:E.
  - destruct (editmesh_acquired_primitives_resolve triangle_editmesh 4
                BVHTREE_FROM_EM_VERTS true fresh_state data a st')
      as (tr & Htr & Hall).
    + reflexivity.
    + discriminate.
    + exact E.
    + exists data, a, st', tr. split; [reflexivity|]. split; [exact Htr | exact Hall].
  - vm_compute in E. discriminate E.
  - vm_compute in E. discriminate E.
Defined.

(** ** Telling a cached tree from a private one *)

(** X26.  [bvhcache_has_tree] tells the trees of the cache from the others:
    it answers true for the tree a [BKE_bvhtree_from_mesh_get] has just
    returned (null included), and, in a state whose cache holds no dangling
    pointer, false for the hierarchy a builder has just made for its
    caller. *)
Theorem has_tree_tells_cached_from_private :
  (forall mesh type tree_type st data t st',
      type <> BVHTREE_MAX_ITEM ->
      BKE_bvhtree_from_mesh_get mesh type tree_type st = Ok ((data, t), st') ->
      bvhcache_has_tree (bvh_cache st') t = true)
  /\ (forall b epsilon tree_type axis mask num_active st a st',
         no_dangling_slot st ->
         run_builder b epsilon tree_type axis mask num_active st = Ok (Some a, st') ->
         bvhcache_has_tree (bvh_cache st') (Some a) = false).
Proof.
  split.
  - intros mesh type tree_type st data t st' Htype
      ((c & Hc & Hi) & _)%BKE_bvhtree_from_mesh_get_Ok.
    rewrite Hc. simpl. apply has_tree_loop_spec.
    exists (BVHCacheType_index type), {| is_filled := true; tree := t |}.
    split; [|reflexivity].
    by rewrite lookup_take_lt by (by apply BVHCacheType_index_lt).
  - intros b epsilon tree_type axis mask num_active st a st' Hlive
      (Hfresh & _ & _ & _ & _ & [Hc _] & _)%run_builder_built.
    rewrite Hc. destruct (bvh_cache st) as [c|] eqn:Hcache; [|done]. simpl.
    destruct (has_tree_loop _ _) eqn:E; [|done].
    apply has_tree_loop_spec in E as (i & it & Hi & Ht).
    apply lookup_take_Some in Hi as [Hi _].
    destruct (Hlive c i it a Hcache Hi Ht) as [tr Htr]. congruence.
Qed.

Lemma has_tree_tells_cached_from_private_witness :
  exists data a st' b st'',
    BKE_bvhtree_from_mesh_get strip_mesh BVHTREE_FROM_EDGES 4 fresh_state
    = Ok ((data, Some a), st')
    /\ bvhcache_has_tree (bvh_cache st') (Some a) = true
    /\ run_builder (Build_mesh_verts (Some (vert_positions strip_mesh)) 6)
                   F32.zero 4 6 [] (-1) st'
       = Ok (Some b, st'')
    /\ bvhcache_has_tree (bvh_cache st'') (Some b) = false.
Proof.
  destruct (BKE_bvhtree_from_mesh_get strip_mesh BVHTREE_FROM_EDGES 4 fresh_state)
    as [[[data [a|]] st']|e] eqn:E; try (vm_compute in E; discriminate E).
  destruct (run_builder (Build_mesh_verts (Some (vert_positions strip_mesh)) 6)
              F32.zero 4 6 [] (-1) st') as [[[b|] st'']|e] eqn:E2.
  - exists data, a, st', b, st''. split; [reflexivity|]. split; [|split; [exact E2|]].
    + apply (proj1 has_tree_tells_cached_from_private strip_mesh BVHTREE_FROM_EDGES 4%Z
               fresh_state data (Some a) st'); [discriminate | exact E].
    + apply (proj2 has_tree_tells_cached_from_private
               (Build_mesh_verts (Some (vert_positions strip_mesh)) 6)
               F32.zero 4%Z 6%Z [] (-1)%Z st' b st''); [|exact E2].
      vm_compute in E. injection E as <- <- <-.
      intros c i it b0 [= <-] Hi Ht.
      do 10 (destruct i as [|i]; [simpl in Hi; injection Hi as <-; simpl in Ht;
                                  first [discriminate Ht
                                        | injection Ht as <-; by eexists]|]).
      discriminate Hi.
  - vm_compute in E. injection E as <- <- <-. vm_compute in E2. discriminate E2.
  - vm_compute in E. injection E as <- <- <-. vm_compute in E2. discriminate E2.
Defined.

(** ** The trees of the cache are live *)

Lemma cache_or_init_live st c i it b :
  no_dangling_slot st ->
  cache_or_init st = c -> items c !! i = Some it -> tree it = Some b ->
  is_Some (heap st !! b).
Proof.
  unfold cache_or_init. intros Hlive <- Hi Ht.
  destruct (bvh_cache st) as [c|] eqn:Hc; simpl in Hi.
  - by eapply Hlive.
  - apply bvhcache_init_unfilled in Hi as ->. done.
Qed.

Lemma miss_keeps_no_dangling type tree_type t st st2 st3 it :
  no_dangling_slot st ->
  items (cache_or_init st) !! BVHCacheType_index type = Some it ->
  match t with
  | Some a => exists b mask n, built b F32.zero tree_type 6 mask n (locked_for_build st) a st2
  | None => not_built (locked_for_build st) st2
  end ->
  bvhtree_balance t true st2 = Ok (tt, st3) ->
  no_dangling_slot (cached_in type t (cache_or_init st) st3).
Proof.
  intros Hlive Hi Hbuilt Hbal%bvhtree_balance_Ok c i it' b [= <-] Hi' Ht. simpl in *.
  destruct (decide (i = BVHCacheType_index type)) as [->|Hne].
  - rewrite list_lookup_insert_eq in Hi' by (by eapply lookup_lt_Some).
    injection Hi' as <-. simpl in Ht. subst t.
    destruct Hbal as (tr & _ & ->). simpl. by rewrite lookup_insert_eq.
  - rewrite list_lookup_insert_ne in Hi' by done.
    destruct (cache_or_init_live st _ i it' b Hlive eq_refl Hi' Ht) as [tr Hb].
    destruct t as [a|].
    + destruct Hbuilt as (bd & mask & n & Hfresh & Hother & _).
      destruct Hbal as (tr' & _ & ->). simpl in *.
      assert (b <> a) by congruence.
      rewrite lookup_insert_ne, Hother by done. by rewrite Hb.
    + subst st3. destruct Hbuilt as [->|[_ ->]]; simpl; by rewrite Hb.
Qed.

(** X27.  The cache never holds a dangling tree: if every tree in a slot is
    live before [BKE_bvhtree_from_mesh_get], or before
    [BKE_bvhtree_from_editmesh_get] with a cache pointer, then every tree
    in a slot is live after it, the one just built included. *)
Theorem acquisition_keeps_cached_trees_live :
  (forall mesh type tree_type st data t st',
      no_dangling_slot st ->
      BKE_bvhtree_from_mesh_get mesh type tree_type st = Ok ((data, t), st') ->
      no_dangling_slot st')
  /\ (forall em tree_type type st data t st',
         no_dangling_slot st ->
         BKE_bvhtree_from_editmesh_get em tree_type type true st = Ok ((data, t), st') ->
         no_dangling_slot st').
Proof.
  split.
  - intros mesh type tree_type st data t st' Hlive
      [[-> _]|(it & st2 & st3 & Hi & _ & _ & Hbuild & Hbal & _ & _ & ->)]
      %BKE_bvhtree_from_mesh_get_inv; [done|].
    apply mesh_build_built in Hbuild. by eapply miss_keeps_no_dangling.
  - intros em tree_type type st data t st' Hlive
      [_ [(-> & _)|(it & st2 & st3 & Hi & _ & _ & Hbuild & Hbal & _ & _ & _ & ->)]]
      %BKE_bvhtree_from_editmesh_get_inv; [done|].
    apply editmesh_build_built in Hbuild. by eapply miss_keeps_no_dangling.
Qed.

Lemma acquisition_keeps_cached_trees_live_witness :
  exists data t st',
    BKE_bvhtree_from_mesh_get strip_mesh BVHTREE_FROM_LOOPTRI 4 fresh_state
    = Ok ((data, t), st')
    /\ no_dangling_slot st'.
Proof.
  destruct (BKE_bvhtree_from_mesh_get strip_mesh BVHTREE_FROM_LOOPTRI 4 fresh_state)
    as [[[data t] st']|e] eqn:E.
  - exists data, t, st'. split; [reflexivity|].
    apply (proj1 acquisition_keeps_cached_trees_live strip_mesh BVHTREE_FROM_LOOPTRI 4%Z
             fresh_state data t st'); [|exact E].
    intros c i it b Hc. simpl in Hc. discriminate Hc.
  - vm_compute in E. discriminate E.
Defined.

(** ** From the variant to the primitives *)

Lemma mesh_build_indices mesh type tree_type data_tree st a st' :
  arrays_present (mesh_builder mesh type) ->
  mesh_build mesh type tree_type data_tree st = Ok (Some a, st') ->
  exists mask n tr,
    variant_mask mesh type = Ok (mask, n)
    /\ heap st' !! a = Some tr
    /\ inserted_indices tr
       = Z.of_nat <$> filter (fun i => active mask i = true)
                             (seq 0 (Z.to_nat (candidates (mesh_builder mesh type)))).
Proof.
  unfold mesh_build. cbv zeta. intros Hpresent H.
  assert (forall b mask n,
             arrays_present b ->
             run_builder b F32.zero tree_type 6 mask n st = Ok (Some a, st') ->
             exists tr,
               heap st' !! a = Some tr
               /\ inserted_indices tr
                  = Z.of_nat <$> filter (fun i => active mask i = true)
                                        (seq 0 (Z.to_nat (candidates b)))) as Hrun.
  { intros b mask n Hb Hr.
    destruct (run_builder_indices _ _ _ _ _ _ _ _ _ Hb Hr) as (tr & ? & ? & _). eauto. }
  destruct type; try (inv_M; done); simpl in Hpresent |- *.
  - destruct (Hrun (Build_mesh_verts _ _) _ _ Hpresent H) as (tr & ? & ?).
    by exists [], (-1)%Z, tr.
  - destruct (Hrun (Build_mesh_edges _ _ _) _ _ Hpresent H) as (tr & ? & ?).
    by exists [], (-1)%Z, tr.
  - apply bind_Ok in H as ([] & st1 & [_ [= ->]]%BLI_assert_Ok & H).
    destruct (Hrun (Build_mesh_faces _ _ _) _ _ Hpresent H) as (tr & ? & ?).
    by exists [], (-1)%Z, tr.
  - destruct (Hrun (Build_mesh_looptri _ _ _) _ _ Hpresent H) as (tr & ? & ?).
    by exists [], (-1)%Z, tr.
  - apply bind_Ok in H as ([mask n] & st1 & [Hmask ->]%lift_Ok & H).
    destruct (Hrun (Build_mesh_looptri _ _ _) _ _ Hpresent H) as (tr & ? & ?).
    by exists mask, n, tr.
  - apply bind_Ok in H as ([mask n] & st1 & [Hmask ->]%lift_Ok & H).
    destruct (Hrun (Build_mesh_verts _ _) _ _ Hpresent H) as (tr & ? & ?).
    by exists mask, n, tr.
  - destruct (Hrun (Build_mesh_edges _ _ _) _ _ Hpresent H) as (tr & ? & ?).
    by eexists _, _, tr.
Qed.

(** X28.  Whatever the variant, on a miss the tree
    [BKE_bvhtree_from_mesh_get] returns holds the candidates of the variant
    that its mask selects, each under its own index, in increasing order:
    every vertex, edge, face or loop triangle for the variants without a
    mask, the edges flagged in the loose-edge classification of the mesh
    for [BVHTREE_FROM_LOOSEEDGES], and what [loose_verts_map_get] and
    [looptri_no_hidden_map_get] select for the other two. *)
Theorem mesh_get_tree_holds_the_active_candidates mesh type tree_type st data a st' :
  arrays_present (mesh_builder mesh type) ->
  slot_filled type st = false ->
  BKE_bvhtree_from_mesh_get mesh type tree_type st = Ok ((data, Some a), st') ->
  exists mask n tr,
    variant_mask mesh type = Ok (mask, n)
    /\ heap st' !! a = Some tr
    /\ inserted_indices tr
       = Z.of_nat <$> filter (fun i => active mask i = true)
                             (seq 0 (Z.to_nat (candidates (mesh_builder mesh type)))).
Proof.
  intros Hpresent Hempty
    [[-> Hs]|(it & st2 & st3 & _ & _ & _ & Hbuild & Hbal & _ & _ & ->)]
    %BKE_bvhtree_from_mesh_get_inv.
  { by apply slot_unfilled_not_hit in Hs. }
  apply mesh_build_indices in Hbuild as (mask & n & tr & Hmask & Htr & Hidx); [|done].
  apply bvhtree_balance_Ok in Hbal as (tr' & Htr' & ->).
  assert (tr' = tr) as -> by congruence.
  exists mask, n, (set_balanced tr). split; [done|]. simpl.
  rewrite lookup_insert_eq. split; [done|]. by rewrite inserted_indices_balanced.
Qed.

Lemma mesh_get_tree_holds_the_active_candidates_witness :
  exists data a st' tr,
    BKE_bvhtree_from_mesh_get strip_mesh BVHTREE_FROM_LOOSEEDGES 4 fresh_state
    = Ok ((data, Some a), st')
    /\ heap st' !! a = Some tr
    /\ inserted_indices tr = [1; 3]%Z.
Proof.
  destruct (BKE_bvhtree_from_mesh_get strip_mesh BVHTREE_FROM_LOOSEEDGES 4 fresh_state)
    as [[[data [a|]] st']|e] eqn:E.
  - destruct (mesh_get_tree_holds_the_active_candidates strip_mesh BVHTREE_FROM_LOOSEEDGES
                4 fresh_state data a st') as (mask & n & tr & Hmask & Htr & Hidx).
    + exact I.
    + reflexivity.
    + exact E.
    + exists data, a, st', tr. split; [reflexivity|]. split; [exact Htr|].
      injection Hmask as <- <-. exact Hidx.
  - vm_compute in E. discriminate E.
  - vm_compute in E. discriminate E.
Defined.

(** ** A triangle the ray does not meet *)

Section MissedTriangle.
Context `{BLI_math}.


End MissedTriangle.


